(** * DIPlib convolution engine: filter normalisation, separable line filter,
      and the three convolution drivers of [src/linear/convolution.cpp].

    Conventions of the embedding.
    - [dip::uint] is [std::size_t] and [dip::sint] is [std::ptrdiff_t]; both
      are taken 64 bits wide.  Unsigned arithmetic wraps ([wrap]); casts
      between the two are written out ([to_sint], [to_uint]).
    - Coefficients ([dfloat]) are rationals [Q]: every finite [dfloat] is one.
    - The line filters are templates over the sample type [TPI].  They are
      given twice: in module [TPI] over the arithmetic of the sample type
      ([SampleArith.t]), with IEEE binary32 and binary64 among its
      instances, and at top level with samples idealised as exact
      rationals [Q], where rounding and overflow are absent and values are
      compared by [==].  The second is the instance of the first at exact
      arithmetic ([Filter_is_exact_instance]).
    - Buffers handed to a line filter are memories addressed by element
      offset ([Z -> Q], or [Z -> T] in module [TPI]); a pointer is an
      offset of type [Z].
    - Exceptions are values of [Error]; code that may throw returns
      [result].  Calls into parts of the library that live outside this
      file (the line-processing frameworks, the Fourier transform, ...) are
      nodes of a program tree [Prog], interpreted by a handler. *)

From Stdlib Require Import ZArith QArith List String Bool Lia SpecFloat.
Import ListNotations.

Local Open Scope Z_scope.

(** ** Machine integers *)

Definition uint_modulus : Z := 2 ^ 64.

(** Result of an arithmetic operation on [dip::uint]. *)
Definition wrap (z : Z) : Z := z mod uint_modulus.

(** [static_cast< dip::sint >( u )] for [0 <= u < 2^64]. *)
Definition to_sint (u : Z) : Z := if u <? 2 ^ 63 then u else u - uint_modulus.

(** [static_cast< dip::uint >( s )] for [-2^63 <= s < 2^63]. *)
Definition to_uint (s : Z) : Z := s mod uint_modulus.

(** ** Errors *)

(** The [E::...] message constants, and the messages built in place by
    [DIP_THROW]. *)
Inductive Error : Type :=
| IMAGE_NOT_FORGED
| DIMENSIONALITY_NOT_SUPPORTED
| ARRAY_ILLEGAL_SIZE
| ARRAY_PARAMETER_WRONG_LENGTH
| SIZES_DONT_MATCH
| RunTimeError (what : string).

Inductive result (A : Type) : Type :=
| Ok (a : A)
| Throw (e : Error).

Arguments Ok {A} a.
Arguments Throw {A} e.

Definition bind_result {A B : Type} (r : result A) (k : A -> result B) : result B :=
  match r with
  | Ok a => k a
  | Throw e => Throw e
  end.

(** [for( auto const& x : xs ) ys.emplace_back( x )] with a constructor that
    may throw: the first failure aborts the loop. *)
Fixpoint map_result {A B : Type} (f : A -> result B) (xs : list A) : result (list B) :=
  match xs with
  | [] => Ok []
  | x :: xs' =>
      bind_result (f x) (fun y =>
      bind_result (map_result f xs') (fun ys => Ok (y :: ys)))
  end.

(** ** One-dimensional filters *)

Definition FloatArray : Type := list Q.
Definition UnsignedArray : Type := list Z.
Definition BooleanArray : Type := list bool.
Definition StringArray : Type := list string.

Inductive FilterSymmetry : Type :=
| GENERAL
| EVEN
| ODD
| D_EVEN
| D_ODD.

(** The caller's description of a filter ([dip::OneDimensionalFilter]). *)
Module OneDimensionalFilter.
Record t : Type := mk {
  filter : FloatArray;
  origin : Z;            (* dip::sint, negative when not given *)
  symmetry : string
}.
End OneDimensionalFilter.

Module InternOneDimensionalFilter.
Record t : Type := mk {
  filter : FloatArray;   (* the coefficients as supplied *)
  size : Z;              (* dip::uint *)
  origin : Z;            (* dip::uint *)
  symmetry : FilterSymmetry
}.

(** The value of the members before the constructor body runs. *)
Definition init (f : FloatArray) : t := mk f 0 0 GENERAL.

(** The [if / else if] chain on [in.symmetry]: the symmetry tag and the
    updated [size], or the exception. *)
Definition parse_symmetry (s : string) (size : Z) : result (FilterSymmetry * Z) :=
  if ((s =? "")%string || (s =? "general")%string)%bool then Ok (GENERAL, size)
  else if (s =? "even")%string then Ok (EVEN, wrap (size + wrap (size - 1)))
  else if (s =? "odd")%string then Ok (ODD, wrap (size + wrap (size - 1)))
  else if (s =? "d-even")%string then Ok (D_EVEN, wrap (size + size))
  else if (s =? "d-odd")%string then Ok (D_ODD, wrap (size + size))
  else Throw (RunTimeError ("Symmetry string not recognized: " ++ s)%string).

(** The constructor [InternOneDimensionalFilter( OneDimensionalFilter const& in )]. *)
Definition ctor (f : OneDimensionalFilter.t) : result t :=
  let flt := OneDimensionalFilter.filter f in
  let size0 := Z.of_nat (List.length flt) in
  if size0 =? 0 then Ok (init flt)
  else
    bind_result (parse_symmetry (OneDimensionalFilter.symmetry f) size0) (fun p =>
    let '(sym, sz) := p in
    if OneDimensionalFilter.origin f <? 0 then
      Ok (mk flt sz (sz / 2) sym)
    else
      let o := to_uint (OneDimensionalFilter.origin f) in
      if sz <=? o then Throw (RunTimeError "Origin outside of filter")
      else Ok (mk flt sz o sym)).
End InternOneDimensionalFilter.

Definition InternOneDimensionalFilterArray : Type := list InternOneDimensionalFilter.t.

(** [IsMeaninglessFilter]; [filter.filter[ 0 ]] is only evaluated when
    [size == 1], where the array is not empty. *)
Definition IsMeaninglessFilter (f : InternOneDimensionalFilter.t) : bool :=
  (InternOneDimensionalFilter.size f =? 0)
  || ((InternOneDimensionalFilter.size f =? 1)
      && Qeq_bool (nth 0 (InternOneDimensionalFilter.filter f) 0%Q) 1%Q).

(** ** The separable line filter *)

(** A line buffer as the framework hands it over: where the line starts, how
    many samples it has and the distance between consecutive samples. *)
Module SeparableBuffer.
Record t : Type := mk {
  buffer : Z;
  length : Z;            (* dip::uint *)
  stride : Z             (* dip::sint *)
}.
End SeparableBuffer.

(** The members of [Framework::SeparableLineFilterParameters] that
    [Filter] reads. *)
Module SeparableLineFilterParameters.
Record t : Type := mk {
  inBuffer : SeparableBuffer.t;
  outBuffer : SeparableBuffer.t;
  dimension : Z;         (* dip::uint *)
  tensorToSpatial : bool
}.
End SeparableLineFilterParameters.

Definition Memory : Type := Z -> Q.

(** [*p = v]. *)
Definition store (m : Memory) (p : Z) (v : Q) : Memory :=
  fun a => if a =? p then v else m a.

(** The loop [for( jj = 0; jj < filterSize; ++jj ) { sum += filter[ jj ] * *in_t; in_t -= inStride; }];
    [n] counts the iterations that remain. *)
Fixpoint general_taps (imem : Memory) (flt : FloatArray) (inStride : Z)
  (n jj : nat) (in_t : Z) (sum : Q) : Q :=
  match n with
  | O => sum
  | S n' =>
      general_taps imem flt inStride n' (S jj) (in_t - inStride)
        (sum + nth jj flt 0 * imem in_t)%Q
  end.

(** The loop [while( jj > 0 ) { --jj; sum += filter[ jj ] * ( *in_r (+/-) *in_l ); in_l -= inStride; in_r += inStride; }]
    shared by the four symmetric cases; [pair] is the operation applied to
    [*in_r] and [*in_l]. *)
Fixpoint paired_taps (pair : Q -> Q -> Q) (imem : Memory) (flt : FloatArray)
  (inStride : Z) (jj : nat) (in_l in_r : Z) (sum : Q) : Q :=
  match jj with
  | O => sum
  | S j =>
      paired_taps pair imem flt inStride j (in_l - inStride) (in_r + inStride)
        (sum + nth j flt 0 * pair (imem in_r) (imem in_l))%Q
  end.

(** The body of the loop over [ii], up to the store: the value of [sum]
    for the current position [in_] of the input pointer.  [fsh] is the
    value the variable has inside the loop (already incremented for
    [D_EVEN] and [D_ODD]). *)
Definition line_sample (sym : FilterSymmetry) (imem : Memory) (flt : FloatArray)
  (filterSize fsh inStride in_ : Z) : Q :=
  match sym with
  | GENERAL =>
      general_taps imem flt inStride (Z.to_nat filterSize) 0 in_ 0%Q
  | EVEN =>
      let in_r := in_ in
      let sum := (nth (Z.to_nat fsh) flt 0 * imem in_r)%Q in
      let in_l := in_r - inStride in
      let in_r := in_r + inStride in
      paired_taps Qplus imem flt inStride (Z.to_nat fsh) in_l in_r sum
  | ODD =>
      let in_r := in_ in
      let sum := (nth (Z.to_nat fsh) flt 0 * imem in_r)%Q in
      let in_l := in_r - inStride in
      let in_r := in_r + inStride in
      paired_taps Qminus imem flt inStride (Z.to_nat fsh) in_l in_r sum
  | D_EVEN =>
      let in_r := in_ in
      let in_l := in_r - inStride in
      paired_taps Qplus imem flt inStride (Z.to_nat fsh) in_l in_r 0%Q
  | D_ODD =>
      let in_r := in_ in
      let in_l := in_r - inStride in
      paired_taps Qminus imem flt inStride (Z.to_nat fsh) in_l in_r 0%Q
  end.

(** The loop [for( ii = 0; ii < length; ++ii ) { ...; *out = sum; in += inStride; out += outStride; }]. *)
Fixpoint line_loop (body : Z -> Q) (inStride outStride : Z) (n : nat)
  (in_ out : Z) (omem : Memory) : Memory :=
  match n with
  | O => omem
  | S n' =>
      line_loop body inStride outStride n' (in_ + inStride) (out + outStride)
        (store omem out (body in_))
  end.

(** Which entry of [filter_] serves the line: [None] when [DIP_ASSERT]
    fails. *)
Definition select_procDim (nFilters : nat) (p : SeparableLineFilterParameters.t) : option Z :=
  if (1 <? Z.of_nat nFilters) then
    let procDim := SeparableLineFilterParameters.dimension p in
    if SeparableLineFilterParameters.tensorToSpatial p then
      if 0 <? procDim then Some (procDim - 1) else None
    else Some procDim
  else Some 0.

(** [SeparableConvolutionLineFilter::Filter]: the output memory after the
    call.  [None] stands for a failed assertion or an index outside
    [filter_].  A coefficient index outside [filter] reads as 0; the
    records the constructor builds have no such index. *)
Definition Filter (filter_ : InternOneDimensionalFilterArray)
  (params : SeparableLineFilterParameters.t) (imem omem : Memory) : option Memory :=
  let in_ := SeparableBuffer.buffer (SeparableLineFilterParameters.inBuffer params) in
  let length := SeparableBuffer.length (SeparableLineFilterParameters.inBuffer params) in
  let inStride := SeparableBuffer.stride (SeparableLineFilterParameters.inBuffer params) in
  let out := SeparableBuffer.buffer (SeparableLineFilterParameters.outBuffer params) in
  let outStride := SeparableBuffer.stride (SeparableLineFilterParameters.outBuffer params) in
  match select_procDim (List.length filter_) params with
  | None => None
  | Some procDim =>
      match nth_error filter_ (Z.to_nat procDim) with
      | None => None
      | Some f =>
          let filter := InternOneDimensionalFilter.filter f in
          let origin := InternOneDimensionalFilter.origin f in
          let filterSize := InternOneDimensionalFilter.size f in
          let fsh := wrap (Z.of_nat (List.length filter) - 1) in
          let sym := InternOneDimensionalFilter.symmetry f in
          let in0 :=
            match sym with
            | GENERAL => in_ + to_sint origin * inStride
            | _ => in_ + to_sint (wrap (origin - fsh)) * inStride
            end in
          let fsh' :=
            match sym with
            | D_EVEN | D_ODD => wrap (fsh + 1)
            | _ => fsh
            end in
          Some (line_loop (line_sample sym imem filter filterSize fsh' inStride)
                  inStride outStride (Z.to_nat length) in0 out omem)
      end
  end.

(** The explicit full-length filter that a half-filter [h] stands for under
    each symmetry, following the description of the filter symmetries:
    [h] holds the left half up to and including the centre for "even" and
    "odd", and the whole left half for "d-even" and "d-odd". *)
Definition full_filter (sym : FilterSymmetry) (h : FloatArray) : FloatArray :=
  match sym with
  | GENERAL => h
  | EVEN => h ++ tl (rev h)
  | ODD => h ++ map Qopp (tl (rev h))
  | D_EVEN => h ++ rev h
  | D_ODD => h ++ map Qopp (rev h)
  end.


(** Logical size of a filter with [n] stored coefficients, as the data
    model states it. *)
Definition logicalSize (sym : FilterSymmetry) (n : Z) : Z :=
  match sym with
  | GENERAL => n
  | EVEN | ODD => 2 * n - 1
  | D_EVEN | D_ODD => 2 * n
  end.

(** The two sums the loops compute, by recursion on the coefficients in the
    order the loops consume them. *)
Fixpoint conv_sum (imem : Memory) (inStride : Z) (l : FloatArray) (p : Z) : Q :=
  match l with
  | [] => 0%Q
  | c :: l' => (c * imem p + conv_sum imem inStride l' (p - inStride))%Q
  end.

Fixpoint pair_sum (pair : Q -> Q -> Q) (imem : Memory) (inStride : Z)
  (l : FloatArray) (in_l in_r : Z) : Q :=
  match l with
  | [] => 0%Q
  | c :: l' =>
      (c * pair (imem in_r) (imem in_l)
       + pair_sum pair imem inStride l' (in_l - inStride) (in_r + inStride))%Q
  end.

(** The tag a symmetry string stands for, following the symmetry
    vocabulary: one of the five tags, or nothing for [GENERAL]. *)
Definition recognized (s : string) : option FilterSymmetry :=
  if (s =? "")%string then Some GENERAL
  else if (s =? "general")%string then Some GENERAL
  else if (s =? "even")%string then Some EVEN
  else if (s =? "odd")%string then Some ODD
  else if (s =? "d-even")%string then Some D_EVEN
  else if (s =? "d-odd")%string then Some D_ODD
  else None.

(** Bound on the number of coefficients of a filter held in memory:
    a [dfloat] takes 8 bytes of a 64-bit address space. *)
Definition max_filter_length : Z := 2 ^ 61.

(** The value of [fsh] inside the loop over [ii] for a half-filter of [n]
    coefficients. *)
Definition loop_fsh (sym : FilterSymmetry) (n : Z) : Z :=
  match sym with
  | D_EVEN | D_ODD => n
  | _ => n - 1
  end.

(** ** The line filter of the general convolution *)

Module FullBuffer.
Record t : Type := mk {
  buffer : Z;
  stride : Z             (* dip::sint *)
}.
End FullBuffer.

(** The offsets a [PixelTableOffsets] iterator runs through, and the
    weights that go with them. *)
Module PixelTableOffsets.
Record t : Type := mk {
  offsets : list Z;
  Weights : list Q
}.
End PixelTableOffsets.

(** The members of [Framework::FullLineFilterParameters] that [Filter]
    reads. *)
Module FullLineFilterParameters.
Record t : Type := mk {
  inBuffer : FullBuffer.t;
  outBuffer : FullBuffer.t;
  bufferLength : Z;      (* dip::uint *)
  pixelTable : PixelTableOffsets.t
}.
End FullLineFilterParameters.

(** The loop [while( !ito.IsAtEnd() ) { sum += in[ *ito ] * weight; ++ito; ++itw; }];
    [None] when the weights run out before the offsets do. *)
Fixpoint weighted_taps (imem : Memory) (in_ : Z) (offsets : list Z)
  (weights : list Q) (sum : Q) : option Q :=
  match offsets with
  | [] => Some sum
  | o :: offsets' =>
      match weights with
      | [] => None
      | w :: weights' =>
          weighted_taps imem in_ offsets' weights' (sum + imem (in_ + o)%Z * w)%Q
      end
  end.

(** The loop over [ii] of a full line filter. *)
Fixpoint full_line_loop (body : Z -> option Q) (inStride outStride : Z) (n : nat)
  (in_ out : Z) (omem : Memory) : option Memory :=
  match n with
  | O => Some omem
  | S n' =>
      match body in_ with
      | None => None
      | Some sum =>
          full_line_loop body inStride outStride n' (in_ + inStride)
            (out + outStride) (store omem out sum)
      end
  end.

(** [GeneralConvolutionLineFilter::Filter]. *)
Definition GeneralConvolutionLineFilter_Filter (params : FullLineFilterParameters.t)
  (imem omem : Memory) : option Memory :=
  let in_ := FullBuffer.buffer (FullLineFilterParameters.inBuffer params) in
  let inStride := FullBuffer.stride (FullLineFilterParameters.inBuffer params) in
  let out := FullBuffer.buffer (FullLineFilterParameters.outBuffer params) in
  let outStride := FullBuffer.stride (FullLineFilterParameters.outBuffer params) in
  let length := FullLineFilterParameters.bufferLength params in
  let pixelTable := FullLineFilterParameters.pixelTable params in
  let weights := PixelTableOffsets.Weights pixelTable in
  full_line_loop
    (fun p => weighted_taps imem p (PixelTableOffsets.offsets pixelTable) weights 0%Q)
    inStride outStride (Z.to_nat length) in_ out omem.

(** The sum of the samples under the footprint, without weights. *)
Fixpoint neighborhood_sum (imem : Memory) (in_ : Z) (offsets : list Z) : Q :=
  match offsets with
  | [] => 0%Q
  | o :: offsets' => (imem (in_ + o)%Z + neighborhood_sum imem in_ offsets')%Q
  end.

(** Modelled from the spec: one output sample of the uniform (box) filter
    [Uniform], whose code is in another part of the library: the
    unweighted neighbourhood sum divided by the kernel cardinality. *)
Definition Uniform_sample (imem : Memory) (in_ : Z) (offsets : list Z) : Q :=
  (neighborhood_sum imem in_ offsets / inject_Z (Z.of_nat (List.length offsets)))%Q.

(** Modelled from the spec: the uniform filter as a full line filter,
    writing [Uniform_sample] at every output position of the line. *)
Definition Uniform_Filter (params : FullLineFilterParameters.t)
  (imem omem : Memory) : option Memory :=
  let in_ := FullBuffer.buffer (FullLineFilterParameters.inBuffer params) in
  let inStride := FullBuffer.stride (FullLineFilterParameters.inBuffer params) in
  let out := FullBuffer.buffer (FullLineFilterParameters.outBuffer params) in
  let outStride := FullBuffer.stride (FullLineFilterParameters.outBuffer params) in
  let length := FullLineFilterParameters.bufferLength params in
  let pixelTable := FullLineFilterParameters.pixelTable params in
  full_line_loop
    (fun p => Some (Uniform_sample imem p (PixelTableOffsets.offsets pixelTable)))
    inStride outStride (Z.to_nat length) in_ out omem.

(** The weights of a binary kernel on its footprint: 1 at every offset. *)
Definition binary_weights (offsets : list Z) : list Q :=
  map (fun _ => 1%Q) offsets.

(** * The line filters over the arithmetic of the sample type *)

(** What the line filters use of the sample type [TPI]: the value [0], the
    operators [+], [-] and [*], and [static_cast< FloatType< TPI >>] applied
    to a [dfloat] coefficient. *)
Module SampleArith.
Record t (T : Type) : Type := mk {
  zero : T;
  add : T -> T -> T;
  sub : T -> T -> T;
  mul : T -> T -> T;
  cast : Q -> T
}.
Arguments mk {T} zero add sub mul cast.
Arguments zero {T} t.
Arguments add {T} t _ _.
Arguments sub {T} t _ _.
Arguments mul {T} t _ _.
Arguments cast {T} t _.
End SampleArith.

Module TPI.
Section WithArith.
Context {T : Type} (A : SampleArith.t T).

Definition Memory : Type := Z -> T.

(** [*p = v]. *)
Definition store (m : Memory) (p : Z) (v : T) : Memory :=
  fun a => if a =? p then v else m a.

(** The loop [for( jj = 0; jj < filterSize; ++jj ) { sum += static_cast< FloatType< TPI >>( filter[ jj ] ) * *in_t; in_t -= inStride; }];
    [n] counts the iterations that remain. *)
Fixpoint general_taps (imem : Memory) (flt : FloatArray) (inStride : Z)
  (n jj : nat) (in_t : Z) (sum : T) : T :=
  match n with
  | O => sum
  | S n' =>
      general_taps imem flt inStride n' (S jj) (in_t - inStride)
        (SampleArith.add A sum
           (SampleArith.mul A (SampleArith.cast A (nth jj flt 0%Q)) (imem in_t)))
  end.

(** The loop [while( jj > 0 ) { --jj; sum += static_cast< FloatType< TPI >>( filter[ jj ] ) * ( *in_r (+/-) *in_l ); in_l -= inStride; in_r += inStride; }]
    shared by the four symmetric cases; [pair] is the operation applied to
    [*in_r] and [*in_l], ahead of the multiplication. *)
Fixpoint paired_taps (pair : T -> T -> T) (imem : Memory) (flt : FloatArray)
  (inStride : Z) (jj : nat) (in_l in_r : Z) (sum : T) : T :=
  match jj with
  | O => sum
  | S j =>
      paired_taps pair imem flt inStride j (in_l - inStride) (in_r + inStride)
        (SampleArith.add A sum
           (SampleArith.mul A (SampleArith.cast A (nth j flt 0%Q))
              (pair (imem in_r) (imem in_l))))
  end.

(** The body of the loop over [ii], up to the store: the value of [sum]
    for the current position [in_] of the input pointer.  [fsh] is the
    value the variable has inside the loop (already incremented for
    [D_EVEN] and [D_ODD]). *)
Definition line_sample (sym : FilterSymmetry) (imem : Memory) (flt : FloatArray)
  (filterSize fsh inStride in_ : Z) : T :=
  match sym with
  | GENERAL =>
      general_taps imem flt inStride (Z.to_nat filterSize) 0 in_ (SampleArith.zero A)
  | EVEN =>
      let in_r := in_ in
      let sum :=
        SampleArith.mul A (SampleArith.cast A (nth (Z.to_nat fsh) flt 0%Q)) (imem in_r) in
      let in_l := in_r - inStride in
      let in_r := in_r + inStride in
      paired_taps (SampleArith.add A) imem flt inStride (Z.to_nat fsh) in_l in_r sum
  | ODD =>
      let in_r := in_ in
      let sum :=
        SampleArith.mul A (SampleArith.cast A (nth (Z.to_nat fsh) flt 0%Q)) (imem in_r) in
      let in_l := in_r - inStride in
      let in_r := in_r + inStride in
      paired_taps (SampleArith.sub A) imem flt inStride (Z.to_nat fsh) in_l in_r sum
  | D_EVEN =>
      let in_r := in_ in
      let in_l := in_r - inStride in
      paired_taps (SampleArith.add A) imem flt inStride (Z.to_nat fsh) in_l in_r
        (SampleArith.zero A)
  | D_ODD =>
      let in_r := in_ in
      let in_l := in_r - inStride in
      paired_taps (SampleArith.sub A) imem flt inStride (Z.to_nat fsh) in_l in_r
        (SampleArith.zero A)
  end.

(** The loop [for( ii = 0; ii < length; ++ii ) { ...; *out = sum; in += inStride; out += outStride; }]. *)
Fixpoint line_loop (body : Z -> T) (inStride outStride : Z) (n : nat)
  (in_ out : Z) (omem : Memory) : Memory :=
  match n with
  | O => omem
  | S n' =>
      line_loop body inStride outStride n' (in_ + inStride) (out + outStride)
        (store omem out (body in_))
  end.

(** [SeparableConvolutionLineFilter< TPI >::Filter]: the output memory after
    the call.  [None] stands for a failed assertion or an index outside
    [filter_].  A coefficient index outside [filter] reads as 0; the
    records the constructor builds have no such index. *)
Definition Filter (filter_ : InternOneDimensionalFilterArray)
  (params : SeparableLineFilterParameters.t) (imem omem : Memory) : option Memory :=
  let in_ := SeparableBuffer.buffer (SeparableLineFilterParameters.inBuffer params) in
  let length := SeparableBuffer.length (SeparableLineFilterParameters.inBuffer params) in
  let inStride := SeparableBuffer.stride (SeparableLineFilterParameters.inBuffer params) in
  let out := SeparableBuffer.buffer (SeparableLineFilterParameters.outBuffer params) in
  let outStride := SeparableBuffer.stride (SeparableLineFilterParameters.outBuffer params) in
  match select_procDim (List.length filter_) params with
  | None => None
  | Some procDim =>
      match nth_error filter_ (Z.to_nat procDim) with
      | None => None
      | Some f =>
          let filter := InternOneDimensionalFilter.filter f in
          let origin := InternOneDimensionalFilter.origin f in
          let filterSize := InternOneDimensionalFilter.size f in
          let fsh := wrap (Z.of_nat (List.length filter) - 1) in
          let sym := InternOneDimensionalFilter.symmetry f in
          let in0 :=
            match sym with
            | GENERAL => in_ + to_sint origin * inStride
            | _ => in_ + to_sint (wrap (origin - fsh)) * inStride
            end in
          let fsh' :=
            match sym with
            | D_EVEN | D_ODD => wrap (fsh + 1)
            | _ => fsh
            end in
          Some (line_loop (line_sample sym imem filter filterSize fsh' inStride)
                  inStride outStride (Z.to_nat length) in0 out omem)
      end
  end.

(** The loop [while( !ito.IsAtEnd() ) { sum += in[ *ito ] * static_cast< FloatType< TPI >>( *itw ); ++ito; ++itw; }];
    [None] when the weights run out before the offsets do. *)
Fixpoint weighted_taps (imem : Memory) (in_ : Z) (offsets : list Z)
  (weights : list Q) (sum : T) : option T :=
  match offsets with
  | [] => Some sum
  | o :: offsets' =>
      match weights with
      | [] => None
      | w :: weights' =>
          weighted_taps imem in_ offsets' weights'
            (SampleArith.add A sum
               (SampleArith.mul A (imem (in_ + o)) (SampleArith.cast A w)))
      end
  end.

(** The loop over [ii] of a full line filter. *)
Fixpoint full_line_loop (body : Z -> option T) (inStride outStride : Z) (n : nat)
  (in_ out : Z) (omem : Memory) : option Memory :=
  match n with
  | O => Some omem
  | S n' =>
      match body in_ with
      | None => None
      | Some sum =>
          full_line_loop body inStride outStride n' (in_ + inStride)
            (out + outStride) (store omem out sum)
      end
  end.

(** [GeneralConvolutionLineFilter< TPI >::Filter]. *)
Definition GeneralConvolutionLineFilter_Filter (params : FullLineFilterParameters.t)
  (imem omem : Memory) : option Memory :=
  let in_ := FullBuffer.buffer (FullLineFilterParameters.inBuffer params) in
  let inStride := FullBuffer.stride (FullLineFilterParameters.inBuffer params) in
  let out := FullBuffer.buffer (FullLineFilterParameters.outBuffer params) in
  let outStride := FullBuffer.stride (FullLineFilterParameters.outBuffer params) in
  let length := FullLineFilterParameters.bufferLength params in
  let pixelTable := FullLineFilterParameters.pixelTable params in
  let weights := PixelTableOffsets.Weights pixelTable in
  full_line_loop
    (fun p => weighted_taps imem p (PixelTableOffsets.offsets pixelTable) weights
                (SampleArith.zero A))
    inStride outStride (Z.to_nat length) in_ out omem.

End WithArith.
End TPI.

(** ** Sample arithmetics *)

(** Arithmetic without rounding or overflow, on rationals. *)
Definition exact : SampleArith.t Q :=
  SampleArith.mk 0%Q Qplus Qminus Qmult (fun q => q).

(** IEEE 754 binary arithmetic of precision [prec] and exponent bound
    [emax], rounding to nearest, ties to even.  The cast of a coefficient
    converts numerator and denominator and divides: for a coefficient that
    is a [dfloat] both conversions are exact (the denominator is a power of
    two) and the quotient is rounded once. *)
Definition ieee (prec emax : Z) : SampleArith.t spec_float :=
  SampleArith.mk (S754_zero false)
    (SFadd prec emax) (SFsub prec emax) (SFmul prec emax)
    (fun q =>
       SFdiv prec emax
         (binary_normalize prec emax (Qnum q) 0 false)
         (binary_normalize prec emax (Z.pos (Qden q)) 0 false)).

(** [sfloat] and [dfloat]. *)
Definition binary32 : SampleArith.t spec_float := ieee 24 128.
Definition binary64 : SampleArith.t spec_float := ieee 53 1024.

(** ** Boundary conditions *)

(** Modelled from the spec: the boundary-condition vocabulary, whose
    translation [StringArrayToBoundaryConditionArray] is in another part of
    the library.  One tag per string of the vocabulary; any other string is
    a configuration error. *)
Inductive BoundaryCondition : Type :=
| BC_PERIODIC
| BC_ADD_ZEROS
| BC_SYMMETRIC_MIRROR
| BC_ASYMMETRIC_MIRROR
| BC_ZERO_ORDER
| BC_SECOND_ORDER
| BC_THIRD_ORDER
| BC_DEFAULT.

Definition BoundaryConditionArray : Type := list BoundaryCondition.

(** Modelled from the spec: translation of one boundary-condition string. *)
Definition StringToBoundaryCondition (s : string) : result BoundaryCondition :=
  if (s =? "periodic")%string then Ok BC_PERIODIC
  else if (s =? "add zeros")%string then Ok BC_ADD_ZEROS
  else if (s =? "symmetric mirror")%string then Ok BC_SYMMETRIC_MIRROR
  else if (s =? "asymmetric mirror")%string then Ok BC_ASYMMETRIC_MIRROR
  else if (s =? "zero order")%string then Ok BC_ZERO_ORDER
  else if (s =? "second order")%string then Ok BC_SECOND_ORDER
  else if (s =? "third order")%string then Ok BC_THIRD_ORDER
  else if (s =? "default")%string then Ok BC_DEFAULT
  else Throw (RunTimeError ("Boundary condition not recognized: " ++ s)%string).

(** Modelled from the spec: translation of the boundary-condition array,
    one entry per string. *)
Definition StringArrayToBoundaryConditionArray (bc : StringArray)
  : result BoundaryConditionArray :=
  map_result StringToBoundaryCondition bc.

(** ** Arrays *)

(** [a[ i ] = v]; an index outside the array is not checked by the
    library, the model leaves the array as it is. *)
Fixpoint assign {A : Type} (a : list A) (i : nat) (v : A) : list A :=
  match a, i with
  | [], _ => []
  | _ :: t, O => v :: t
  | x :: t, S i' => x :: assign t i' v
  end.

(** [a.fill( v )]. *)
Definition fill {A : Type} (a : list A) (v : A) : list A := map (fun _ => v) a.

(** Modelled from the spec: the comparison [lhs <= rhs] of two
    [UnsignedArray]s, whose code is in another part of the library: no
    element of [lhs] exceeds the element of [rhs] at the same index.  The
    remark at its use in [ConvolveFT] adds that it is false for arrays of
    different lengths. *)
Fixpoint UnsignedArray_le (lhs rhs : UnsignedArray) : bool :=
  match lhs, rhs with
  | [], [] => true
  | a :: lhs', b :: rhs' => (a <=? b) && UnsignedArray_le lhs' rhs'
  | _, _ => false
  end.

(** ** Images, kernels and the calls that leave this file *)

Section Engine.

(** The sample type tag with the three queries used here, and the pixel
    store of an image; both belong to another part of the library and are
    kept abstract. *)
Variable DataType : Type.
Variable Pixels : Type.
Variable IsReal : DataType -> bool.
Variable IsBinary : DataType -> bool.
Variable SuggestFlex : DataType -> DataType.

(** What zero-padding from one shape to another does to the pixel store. *)
Variable pad_pixels : UnsignedArray -> UnsignedArray -> Pixels -> Pixels.

Record Image : Type := mkImage {
  forged : bool;
  sizes : UnsignedArray;
  dataType : DataType;
  pixels : Pixels
}.

Definition IsForged (img : Image) : bool := forged img.

Definition Dimensionality (img : Image) : Z := Z.of_nat (List.length (sizes img)).

(** [img.Size( ii )]. *)
Definition Size (img : Image) (ii : nat) : Z := nth ii (sizes img) 0.

(** [img.QuickCopy()]: a second handle on the same samples. *)
Definition QuickCopy (img : Image) : Image := img.

(** Modelled from the spec: [ExpandDimensionality] appends trailing
    singleton dimensions up to dimensionality [n]. *)
Definition ExpandDimensionality (img : Image) (n : Z) : Image :=
  mkImage (forged img)
    (sizes img ++ repeat 1 (Z.to_nat n - List.length (sizes img)))
    (dataType img) (pixels img).

(** Modelled from the spec: [Pad] zero-pads the image to the shape
    [newSizes]; the sample type stays. *)
Definition Pad (img : Image) (newSizes : UnsignedArray) : Image :=
  mkImage (forged img) newSizes (dataType img)
    (pad_pixels (sizes img) newSizes (pixels img)).

(** Modelled from the spec: a kernel built from a weight image, with a
    flag that records whether its offsets are mirrored. *)
Record Kernel : Type := mkKernel {
  kernelImage : Image;
  mirror : bool
}.

(** [Kernel filter{ c_filter }]. *)
Definition Kernel_of_image (img : Image) : Kernel := mkKernel img false.

(** [filter.Mirror()]. *)
Definition Mirror (k : Kernel) : Kernel := mkKernel (kernelImage k) (negb (mirror k)).

(** A call into the library outside this file, with its arguments; each
    call hands back an image (its output argument). *)
Inductive Call : Type :=
| Framework_Separable (in_ : Image) (inBufferType outBufferType : DataType)
    (process : BooleanArray) (border : UnsignedArray)
    (bc : BoundaryConditionArray) (lineFilter : InternOneDimensionalFilterArray)
| Framework_Full (in_ : Image) (inBufferType outBufferType outImageType : DataType)
    (nTensorElements : Z) (bc : BoundaryConditionArray) (kernel : Kernel)
| Uniform (in_ : Image) (kernel : Kernel) (boundaryCondition : StringArray)
| FourierTransform (in_ : Image) (options : list string)
| MultiplySampleWise (lhs rhs : Image) (dt : DataType).

(** A function body: it returns, throws, or makes a call and goes on with
    the image the call produced. *)
Inductive Prog (A : Type) : Type :=
| Ret (a : A)
| Raise (e : Error)
| Do (c : Call) (k : Image -> Prog A).

Arguments Ret {A} a.
Arguments Raise {A} e.
Arguments Do {A} c k.

Fixpoint bind {A B : Type} (p : Prog A) (f : A -> Prog B) : Prog B :=
  match p with
  | Ret a => f a
  | Raise e => Raise e
  | Do c k => Do c (fun img => bind (k img) f)
  end.

(** An exception of a callee that is not caught. *)
Definition lift {A : Type} (r : result A) : Prog A :=
  match r with
  | Ok a => Ret a
  | Throw e => Raise e
  end.

(** [DIP_THROW_IF( cond, e )]. *)
Definition throw_if (cond : bool) (e : Error) : Prog unit :=
  if cond then Raise e else Ret tt.

(** Running a body against a handler that answers the calls: the outcome
    and the calls made, in order.  A call that throws ends the run. *)
Fixpoint run {A : Type} (h : Call -> result Image) (p : Prog A)
  : result A * list Call :=
  match p with
  | Ret a => (Ok a, [])
  | Raise e => (Throw e, [])
  | Do c k =>
      match h c with
      | Ok img => let (r, t) := run h (k img) in (r, c :: t)
      | Throw e => (Throw e, [c])
      end
  end.

Declare Scope prog_scope.
Delimit Scope prog_scope with prog.
Notation "x <- p ;; q" := (bind p (fun x => q))
  (at level 61, p at next level, right associativity) : prog_scope.
Notation "p ;; q" := (bind p (fun _ => q))
  (at level 61, right associativity) : prog_scope.

(** ** SeparableConvolution *)

(** [IsMeaninglessFilter] is applied to [filterData[ ii ]]; inside the
    array bounds the default of [nth] is never used. *)
Definition absent_filter : InternOneDimensionalFilter.t :=
  InternOneDimensionalFilter.init [].

(** [b = std::max( b, sz - b - 1 )] on [dip::uint]. *)
Definition border_of (f : InternOneDimensionalFilter.t) : Z :=
  let sz := InternOneDimensionalFilter.size f in
  let b := InternOneDimensionalFilter.origin f in
  Z.max b (wrap (sz - b - 1)).

(** The [border] array built from [filterData]. *)
Definition make_border (filterData : InternOneDimensionalFilterArray) (nDims : Z)
  : UnsignedArray :=
  let border := repeat 0 (Z.to_nat nDims) in
  if Z.of_nat (List.length filterData) =? 1 then
    fill border (border_of (nth 0 filterData absent_filter))
  else
    fold_left
      (fun border ii => assign border ii (border_of (nth ii filterData absent_filter)))
      (seq 0 (Z.to_nat nDims)) border.

(** The update of [process] after its length has been settled. *)
Definition restrict_process (in_ : Image) (filterData : InternOneDimensionalFilterArray)
  (nDims : Z) (process : BooleanArray) : BooleanArray :=
  if Z.of_nat (List.length filterData) =? 1 then
    if IsMeaninglessFilter (nth 0 filterData absent_filter) then fill process false
    else process
  else
    fold_left
      (fun process ii =>
         if IsMeaninglessFilter (nth ii filterData absent_filter) || (Size in_ ii <=? 1)
         then assign process ii false
         else process)
      (seq 0 (Z.to_nat nDims)) process.

Definition SeparableConvolution (in_ : Image) (filterArray : list OneDimensionalFilter.t)
  (boundaryCondition : StringArray) (process : BooleanArray) : Prog Image :=
  (throw_if (negb (IsForged in_)) IMAGE_NOT_FORGED ;;
   let nDims := Dimensionality in_ in
   throw_if (nDims <? 1) DIMENSIONALITY_NOT_SUPPORTED ;;
   throw_if (negb (Z.of_nat (List.length filterArray) =? 1)
             && negb (Z.of_nat (List.length filterArray) =? nDims))
     ARRAY_ILLEGAL_SIZE ;;
   filterData <- lift (map_result InternOneDimensionalFilter.ctor filterArray) ;;
   let border := make_border filterData nDims in
   process <- (match process with
               | [] => Ret (repeat true (Z.to_nat nDims))
               | _ =>
                   throw_if (negb (Z.of_nat (List.length process) =? nDims))
                     ARRAY_PARAMETER_WRONG_LENGTH ;;
                   Ret process
               end) ;;
   let process := restrict_process in_ filterData nDims process in
   bc <- lift (StringArrayToBoundaryConditionArray boundaryCondition) ;;
   let dtype := SuggestFlex (dataType in_) in
   Do (Framework_Separable in_ dtype dtype process border bc filterData) Ret)%prog.

(** Modelled from the spec: the per-line engine behind
    [Framework::Separable], whose code is in another part of the library.
    It starts from the input converted to the buffer type and visits the
    dimensions; a dimension marked for processing is filtered line by line
    ([line_pass], which stands for buffer handling, boundary extension and
    the calls of the line filter), the others are left as they are. *)
Definition Separable_engine
  (line_pass : (SeparableLineFilterParameters.t -> Memory -> Memory -> option Memory)
               -> Image -> nat -> Z -> BoundaryCondition -> Image)
  (in_ : Image) (outImageType : DataType) (process : BooleanArray)
  (border : UnsignedArray) (bc : BoundaryConditionArray)
  (lineFilter : InternOneDimensionalFilterArray) : Image :=
  fold_left
    (fun img d =>
       if nth d process false
       then line_pass (Filter lineFilter) img d (nth d border 0)
              (nth d bc (hd BC_DEFAULT bc))
       else img)
    (seq 0 (List.length (sizes in_)))
    (mkImage (forged in_) (sizes in_) outImageType (pixels in_)).

(** A handler that answers [Framework::Separable] by the engine above and
    passes every other call on to [ext]. *)
Definition with_Separable_engine
  (line_pass : (SeparableLineFilterParameters.t -> Memory -> Memory -> option Memory)
               -> Image -> nat -> Z -> BoundaryCondition -> Image)
  (ext : Call -> result Image) (c : Call) : result Image :=
  match c with
  | Framework_Separable in_ _ outImageType process border bc lineFilter =>
      Ok (Separable_engine line_pass in_ outImageType process border bc lineFilter)
  | _ => ext c
  end.

(** ** ConvolveFT *)

(** The body of [ConvolveFT]; next to the output image it hands back the
    final value of the local variable [real]. *)
Definition ConvolveFT_body (in_ filter : Image)
  (inRepresentation filterRepresentation outRepresentation : string)
  : Prog (Image * bool) :=
  (throw_if (negb (IsForged in_)) IMAGE_NOT_FORGED ;;
   throw_if (negb (IsForged filter)) IMAGE_NOT_FORGED ;;
   let real := true in
   st <- (if (inRepresentation =? "spatial")%string then
            let real := real && IsReal (dataType in_) in
            inFT <- Do (FourierTransform in_ []) Ret ;;
            Ret (inFT, real)
          else
            Ret (QuickCopy in_, false)) ;;
   let '(inFT, real) := st in
   let filterFT := QuickCopy filter in
   let filterFT :=
     if Dimensionality filterFT <? Dimensionality in_
     then ExpandDimensionality filterFT (Dimensionality in_)
     else filterFT in
   throw_if (negb (UnsignedArray_le (sizes filterFT) (sizes in_))) SIZES_DONT_MATCH ;;
   let filterFT := Pad filterFT (sizes in_) in
   st <- (if (filterRepresentation =? "spatial")%string then
            let real := real && IsReal (dataType filterFT) in
            filterFT <- Do (FourierTransform filterFT []) Ret ;;
            Ret (filterFT, real)
          else
            Ret (filterFT, false)) ;;
   let '(filterFT, real) := st in
   let dt := dataType inFT in
   out <- Do (MultiplySampleWise inFT filterFT dt) Ret ;;
   if (outRepresentation =? "spatial")%string then
     let options := "inverse"%string :: (if real then ["real"%string] else []) in
     out <- Do (FourierTransform out options) Ret ;;
     Ret (out, real)
   else
     Ret (out, real))%prog.

Definition ConvolveFT (in_ filter : Image)
  (inRepresentation filterRepresentation outRepresentation : string) : Prog Image :=
  (r <- ConvolveFT_body in_ filter inRepresentation filterRepresentation
          outRepresentation ;;
   Ret (fst r))%prog.

(** ** GeneralConvolution *)

Definition GeneralConvolution (in_ c_filter : Image) (boundaryCondition : StringArray)
  : Prog Image :=
  (throw_if (negb (IsForged in_)) IMAGE_NOT_FORGED ;;
   throw_if (negb (IsForged c_filter)) IMAGE_NOT_FORGED ;;
   let filter := Mirror (Kernel_of_image c_filter) in
   if IsBinary (dataType c_filter) then
     Do (Uniform in_ filter boundaryCondition) Ret
   else
     bc <- lift (StringArrayToBoundaryConditionArray boundaryCondition) ;;
     let dtype := SuggestFlex (dataType in_) in
     Do (Framework_Full in_ dtype dtype dtype 1 bc filter) Ret)%prog.

(** ** Statements examined below *)

(** The reading of the symmetry check under which the content of the
    filter plays no part: a symmetry string outside the vocabulary makes
    the normaliser fail with the "not recognized" error, whatever the
    coefficients are. *)
Definition unrecognized_symmetry_fails (f : OneDimensionalFilter.t) : Prop :=
  recognized (OneDimensionalFilter.symmetry f) = None ->
  InternOneDimensionalFilter.ctor f =
    Throw (RunTimeError ("Symmetry string not recognized: "
                         ++ OneDimensionalFilter.symmetry f)%string).

(** A filter that does nothing: logical size 0, or logical size 1 with the
    coefficient 1. *)
Definition is_noop (f : InternOneDimensionalFilter.t) : Prop :=
  InternOneDimensionalFilter.size f = 0 \/
  (InternOneDimensionalFilter.size f = 1 /\
   (nth 0 (InternOneDimensionalFilter.filter f) 0 == 1)%Q).

(** How [ConvolveFT] reads a representation string. *)
Definition as_representation (r : string) : string :=
  if (r =? "spatial")%string then "spatial"%string else "frequency"%string.

(** The value the [real] flag should have by the description of
    [ConvolveFT]: both operands were given in the spatial domain and both
    have a real sample type. *)
Definition real_expected (in_ filter : Image)
  (inRepresentation filterRepresentation : string) : bool :=
  (inRepresentation =? "spatial")%string && IsReal (dataType in_)
  && ((filterRepresentation =? "spatial")%string && IsReal (dataType filter)).

(** The filter of [ConvolveFT] after the step that brings it to the
    dimensionality of the input. *)
Definition expanded_filter (in_ filter : Image) : Image :=
  if Dimensionality (QuickCopy filter) <? Dimensionality in_
  then ExpandDimensionality (QuickCopy filter) (Dimensionality in_)
  else QuickCopy filter.

(** Some dimension that both shapes have, in which the first shape is
    larger than the second. *)
Definition exceeds_somewhere (a b : UnsignedArray) : Prop :=
  exists (d : nat) (x y : Z),
    nth_error a d = Some x /\ nth_error b d = Some y /\ y < x.

(** The reading of the size check of [ConvolveFT] as an equivalence: the
    size-mismatch error is thrown exactly when the expanded filter is
    larger than the input in some dimension. *)
Definition size_mismatch_iff_extent_exceeds (h : Call -> result Image)
  (in_ filter : Image) (r1 r2 r3 : string) : Prop :=
  fst (run h (ConvolveFT in_ filter r1 r2 r3)) = Throw SIZES_DONT_MATCH <->
  exceeds_somewhere (sizes (expanded_filter in_ filter)) (sizes in_).

(** The reading of the binary-kernel shortcut as an equality of results:
    at an output sample the uniform filter yields what the weighted sum
    over the same footprint, with the weights of a binary kernel, yields. *)
Definition uniform_equals_weighted (imem : Memory) (in_ : Z) (offsets : list Z) : Prop :=
  forall g : Q,
    weighted_taps imem in_ offsets (binary_weights offsets) 0%Q = Some g ->
    (Uniform_sample imem in_ offsets == g)%Q.




(** ** Further notions used in the properties of the line filters *)

(** The weighted sum over a footprint in closed form: every offset that has
    a weight contributes its sample times that weight. *)
Fixpoint weighted_sum (imem : Memory) (in_ : Z) (offsets : list Z) (weights : list Q) : Q :=
  match offsets, weights with
  | o :: offsets', w :: weights' =>
      (imem (in_ + o)%Z * w + weighted_sum imem in_ offsets' weights')%Q
  | _, _ => 0%Q
  end.



(** * Properties *)

(** ** Machine integers *)

Lemma wrap_small (z : Z) : 0 <= z < uint_modulus -> wrap z = z.
Proof. intros Hz. unfold wrap. now apply Z.mod_small. Qed.

Lemma to_sint_small (z : Z) : z < 2 ^ 63 -> to_sint z = z.
Proof.
  intros Hz. unfold to_sint.
  destruct (Z.ltb_spec z (2 ^ 63)) as [_ | Hge]; [reflexivity | lia].
Qed.

Lemma to_sint_wrap (z : Z) : - 2 ^ 63 <= z < 2 ^ 63 -> to_sint (wrap z) = z.
Proof.
  intros Hz. unfold to_sint, wrap, uint_modulus.
  destruct (Z.neg_nonneg_cases z) as [Hneg | Hpos].
  - replace (z mod 2 ^ 64) with (z + 2 ^ 64).
    + destruct (Z.ltb_spec (z + 2 ^ 64) (2 ^ 63)); lia.
    + apply Z.mod_unique with (q := -1); lia.
  - rewrite Z.mod_small by lia.
    destruct (Z.ltb_spec z (2 ^ 63)); lia.
Qed.

(** ** The loops of the line filter as sums *)

Section LineSums.
Variable imem : Memory.
Variable s : Z.

Lemma general_taps_sum (l2 : FloatArray) :
  forall (l1 : FloatArray) (p : Z) (acc : Q),
    (general_taps imem (l1 ++ l2) s (List.length l2) (List.length l1) p acc
     == acc + conv_sum imem s l2 p)%Q.
Proof.
  induction l2 as [| c l2 IH]; intros l1 p acc; simpl.
  - ring.
  - rewrite nth_middle.
    replace (l1 ++ c :: l2) with ((l1 ++ [c]) ++ l2) by (rewrite <- app_assoc; reflexivity).
    replace (S (List.length l1)) with (List.length (l1 ++ [c]))
      by (rewrite length_app; simpl; lia).
    rewrite IH. ring.
Qed.

Lemma paired_taps_sum (pair : Q -> Q -> Q) (flt : FloatArray) :
  forall (jj : nat) (in_l in_r : Z) (acc : Q),
    (jj <= List.length flt)%nat ->
    (paired_taps pair imem flt s jj in_l in_r acc
     == acc + pair_sum pair imem s (rev (firstn jj flt)) in_l in_r)%Q.
Proof.
  induction jj as [| j IH]; intros in_l in_r acc Hjj; simpl paired_taps.
  - simpl. ring.
  - rewrite IH by lia.
    assert (Hsplit : firstn (S j) flt = firstn j flt ++ [nth j flt 0%Q]).
    { clear IH. revert j Hjj. induction flt as [| x xs IHxs]; intros j Hj.
      - simpl in Hj. lia.
      - destruct j as [| j]; [reflexivity |].
        simpl in Hj. change (firstn (S (S j)) (x :: xs)) with (x :: firstn (S j) xs).
        rewrite IHxs by lia. reflexivity. }
    rewrite Hsplit, rev_app_distr. simpl. ring.
Qed.

Lemma conv_sum_app (l1 l2 : FloatArray) :
  forall p : Z,
    (conv_sum imem s (l1 ++ l2) p
     == conv_sum imem s l1 p + conv_sum imem s l2 (p - Z.of_nat (List.length l1) * s))%Q.
Proof.
  induction l1 as [| c l1 IH]; intros p.
  - cbn [app conv_sum List.length].
    replace (p - Z.of_nat 0 * s) with p by (simpl; ring). ring.
  - cbn [app conv_sum]. rewrite IH.
    replace (p - s - Z.of_nat (List.length l1) * s)
      with (p - Z.of_nat (List.length (c :: l1)) * s)
      by (cbn [List.length]; rewrite Nat2Z.inj_succ; ring).
    ring.
Qed.

Lemma pair_sum_app (pair : Q -> Q -> Q) (l1 l2 : FloatArray) :
  forall in_l in_r : Z,
    (pair_sum pair imem s (l1 ++ l2) in_l in_r
     == pair_sum pair imem s l1 in_l in_r
        + pair_sum pair imem s l2 (in_l - Z.of_nat (List.length l1) * s)
            (in_r + Z.of_nat (List.length l1) * s))%Q.
Proof.
  induction l1 as [| c l1 IH]; intros in_l in_r.
  - cbn [app pair_sum List.length].
    replace (in_l - Z.of_nat 0 * s) with in_l by (simpl; ring).
    replace (in_r + Z.of_nat 0 * s) with in_r by (simpl; ring). ring.
  - cbn [app pair_sum]. rewrite IH.
    replace (in_l - s - Z.of_nat (List.length l1) * s)
      with (in_l - Z.of_nat (List.length (c :: l1)) * s)
      by (cbn [List.length]; rewrite Nat2Z.inj_succ; ring).
    replace (in_r + s + Z.of_nat (List.length l1) * s)
      with (in_r + Z.of_nat (List.length (c :: l1)) * s)
      by (cbn [List.length]; rewrite Nat2Z.inj_succ; ring).
    ring.
Qed.

(** A filter made of a left half [h], a middle part [m] and the mirrored
    half with [f] applied to every coefficient: its dot product with the
    line equals the dot product of the middle part plus the paired sum of
    the half-filter. *)
Lemma mirrored_sum (f : Q -> Q) (pair : Q -> Q -> Q)
  (Hpair : forall c x y : Q, (c * pair x y == c * x + f c * y)%Q)
  (m : FloatArray) :
  forall (h : FloatArray) (r : Z),
    (conv_sum imem s (h ++ m ++ map f (rev h)) (r + Z.of_nat (List.length h) * s)
     == conv_sum imem s m r
        + pair_sum pair imem s (rev h) (r - Z.of_nat (List.length m) * s) (r + s))%Q.
Proof.
  induction h as [| a h IH]; intros r.
  - cbn [app rev map pair_sum List.length]. rewrite app_nil_r.
    replace (r + Z.of_nat 0 * s) with r by (simpl; ring). ring.
  - cbn [rev]. rewrite map_app. cbn [map].
    replace ((a :: h) ++ m ++ map f (rev h) ++ [f a])
      with (a :: (h ++ m ++ map f (rev h)) ++ [f a])
      by (cbn [app]; rewrite <- !app_assoc; reflexivity).
    cbn [conv_sum]. rewrite conv_sum_app, pair_sum_app.
    cbn [List.length]. rewrite Nat2Z.inj_succ.
    replace (r + Z.succ (Z.of_nat (List.length h)) * s - s)
      with (r + Z.of_nat (List.length h) * s) by ring.
    rewrite IH. cbn [conv_sum pair_sum].
    rewrite !length_app, length_map, !length_rev, !Nat2Z.inj_add.
    rewrite Hpair.
    replace (r + Z.of_nat (List.length h) * s
             - (Z.of_nat (List.length h)
                + (Z.of_nat (List.length m) + Z.of_nat (List.length h))) * s)
      with (r - Z.of_nat (List.length m) * s - Z.of_nat (List.length h) * s) by ring.
    replace (r + s + Z.of_nat (List.length h) * s)
      with (r + Z.succ (Z.of_nat (List.length h)) * s) by ring.
    ring.
Qed.

End LineSums.

(** ** The filter normaliser *)

Lemma parse_symmetry_recognized (s : string) (n : Z) :
  0 < n < max_filter_length ->
  InternOneDimensionalFilter.parse_symmetry s n =
    match recognized s with
    | Some sym => Ok (sym, logicalSize sym n)
    | None => Throw (RunTimeError ("Symmetry string not recognized: " ++ s)%string)
    end.
Proof.
  intros Hn. unfold max_filter_length in Hn.
  assert (Hodd : wrap (n + wrap (n - 1)) = 2 * n - 1).
  { rewrite (wrap_small (n - 1)) by (unfold uint_modulus; lia).
    rewrite wrap_small by (unfold uint_modulus; lia). lia. }
  assert (Heven : wrap (n + n) = 2 * n).
  { rewrite wrap_small by (unfold uint_modulus; lia). lia. }
  unfold InternOneDimensionalFilter.parse_symmetry, recognized.
  rewrite Hodd, Heven.
  destruct (s =? "")%string; [reflexivity |].
  destruct (s =? "general")%string; [reflexivity |].
  destruct (s =? "even")%string; [reflexivity |].
  destruct (s =? "odd")%string; [reflexivity |].
  destruct (s =? "d-even")%string; [reflexivity |].
  destruct (s =? "d-odd")%string; reflexivity.
Qed.


(** What the constructor does with a non-empty filter whose symmetry string
    is recognised. *)
Lemma ctor_recognized (flt : FloatArray) (o : Z) (s : string) (sym : FilterSymmetry) :
  flt <> [] ->
  Z.of_nat (List.length flt) < max_filter_length ->
  recognized s = Some sym ->
  InternOneDimensionalFilter.ctor (OneDimensionalFilter.mk flt o s) =
    let sz := logicalSize sym (Z.of_nat (List.length flt)) in
    if o <? 0 then Ok (InternOneDimensionalFilter.mk flt sz (sz / 2) sym)
    else if sz <=? to_uint o then Throw (RunTimeError "Origin outside of filter")
    else Ok (InternOneDimensionalFilter.mk flt sz (to_uint o) sym).
Proof.
  intros Hne Hlen Hrec.
  assert (Hpos : 0 < Z.of_nat (List.length flt)).
  { destruct flt; [congruence | simpl; lia]. }
  unfold InternOneDimensionalFilter.ctor. cbn [OneDimensionalFilter.filter
    OneDimensionalFilter.symmetry OneDimensionalFilter.origin].
  destruct (Z.eqb_spec (Z.of_nat (List.length flt)) 0) as [H0 | _]; [lia |].
  rewrite parse_symmetry_recognized by lia.
  rewrite Hrec. reflexivity.
Qed.

Lemma ctor_empty (o : Z) (s : string) :
  InternOneDimensionalFilter.ctor (OneDimensionalFilter.mk [] o s) =
    Ok (InternOneDimensionalFilter.init []).
Proof. reflexivity. Qed.

Lemma full_filter_length (sym : FilterSymmetry) (h : FloatArray) :
  h <> [] ->
  Z.of_nat (List.length (full_filter sym h)) = logicalSize sym (Z.of_nat (List.length h)).
Proof.
  intros Hne. destruct h as [| c h]; [congruence |].
  assert (Htl : List.length (tl (rev (c :: h))) = List.length h).
  { pose proof (length_rev (c :: h)) as Hr.
    destruct (rev (c :: h)) as [| x xs]; simpl in Hr |- *; lia. }
  destruct sym; unfold full_filter, logicalSize;
    rewrite ?length_app, ?length_map, ?Htl, ?length_rev; cbn [List.length]; lia.
Qed.

(** ** Symmetric line filters against their explicit full filters *)

Section LineSamples.
Variable imem : Memory.
Variable s : Z.

Lemma line_sample_general (flt : FloatArray) (fsh p : Z) :
  (line_sample GENERAL imem flt (Z.of_nat (List.length flt)) fsh s p
   == conv_sum imem s flt p)%Q.
Proof.
  unfold line_sample. rewrite Nat2Z.id.
  pose proof (general_taps_sum imem s flt [] p 0%Q) as H.
  cbn [app List.length] in H. rewrite H. ring.
Qed.

Lemma firstn_length_app (h' : FloatArray) (c : Q) :
  firstn (List.length h') (h' ++ [c]) = h'.
Proof.
  rewrite firstn_app, Nat.sub_diag, firstn_all. cbn [firstn]. apply app_nil_r.
Qed.

Lemma line_sample_centred (pair : Q -> Q -> Q) (sym : FilterSymmetry)
  (h' : FloatArray) (c : Q) (sz q : Z) :
  (sym = EVEN /\ pair = Qplus) \/ (sym = ODD /\ pair = Qminus) ->
  (line_sample sym imem (h' ++ [c]) sz (Z.of_nat (List.length h')) s q
   == c * imem q + pair_sum pair imem s (rev h') (q - s) (q + s))%Q.
Proof.
  intros [[-> ->] | [-> ->]]; unfold line_sample; rewrite Nat2Z.id, nth_middle;
    (rewrite paired_taps_sum by (rewrite length_app; simpl; lia));
    rewrite firstn_length_app; reflexivity.
Qed.

Lemma line_sample_double (pair : Q -> Q -> Q) (sym : FilterSymmetry)
  (h : FloatArray) (sz q : Z) :
  (sym = D_EVEN /\ pair = Qplus) \/ (sym = D_ODD /\ pair = Qminus) ->
  (line_sample sym imem h sz (Z.of_nat (List.length h)) s q
   == pair_sum pair imem s (rev h) (q - s) q)%Q.
Proof.
  intros [[-> ->] | [-> ->]]; unfold line_sample; rewrite Nat2Z.id;
    (rewrite paired_taps_sum by lia); rewrite firstn_all; ring.
Qed.

Lemma plus_pairs (c x y : Q) : (c * Qplus x y == c * x + (fun a : Q => a) c * y)%Q.
Proof. cbv beta. ring. Qed.

Lemma minus_pairs (c x y : Q) : (c * Qminus x y == c * x + Qopp c * y)%Q.
Proof. ring. Qed.

(** One output sample: the explicit filter read [n - 1] samples further
    right gives what the symmetric loop gives. *)
Lemma line_sample_full_filter (sym : FilterSymmetry) (h : FloatArray) (sz fsh q : Z) :
  h <> [] ->
  sym <> GENERAL ->
  (line_sample GENERAL imem (full_filter sym h)
     (Z.of_nat (List.length (full_filter sym h))) fsh s
     (q + (Z.of_nat (List.length h) - 1) * s)
   == line_sample sym imem h sz (loop_fsh sym (Z.of_nat (List.length h))) s q)%Q.
Proof.
  intros Hne Hsym. rewrite line_sample_general.
  destruct sym; [congruence | | | |]; unfold loop_fsh, full_filter.
  - (* EVEN *)
    destruct (exists_last Hne) as [h' [c ->]].
    rewrite rev_app_distr. cbn [rev app tl].
    rewrite length_app. cbn [List.length]. rewrite Nat2Z.inj_add.
    replace (Z.of_nat (List.length h') + Z.of_nat 1 - 1) with (Z.of_nat (List.length h')) by lia.
    rewrite (line_sample_centred Qplus) by (left; split; reflexivity).
    rewrite <- (map_id (rev h')) at 1. rewrite <- app_assoc.
    rewrite (mirrored_sum imem s (fun a => a) Qplus plus_pairs [c] h' q).
    cbn [conv_sum List.length].
    replace (q - Z.of_nat 1 * s) with (q - s) by (change (Z.of_nat 1) with 1; ring). ring.
  - (* ODD *)
    destruct (exists_last Hne) as [h' [c ->]].
    rewrite rev_app_distr. cbn [rev app tl].
    rewrite length_app. cbn [List.length]. rewrite Nat2Z.inj_add.
    replace (Z.of_nat (List.length h') + Z.of_nat 1 - 1) with (Z.of_nat (List.length h')) by lia.
    rewrite (line_sample_centred Qminus) by (right; split; reflexivity).
    rewrite <- app_assoc.
    rewrite (mirrored_sum imem s Qopp Qminus minus_pairs [c] h' q).
    cbn [conv_sum List.length].
    replace (q - Z.of_nat 1 * s) with (q - s) by (change (Z.of_nat 1) with 1; ring). ring.
  - (* D_EVEN *)
    rewrite (line_sample_double Qplus) by (left; split; reflexivity).
    rewrite <- (map_id (rev h)) at 1.
    replace (q + (Z.of_nat (List.length h) - 1) * s)
      with ((q - s) + Z.of_nat (List.length h) * s) by ring.
    rewrite (mirrored_sum imem s (fun a => a) Qplus plus_pairs [] h (q - s)).
    cbn [conv_sum List.length].
    replace (q - s - Z.of_nat 0 * s) with (q - s) by (change (Z.of_nat 0) with 0; ring).
    replace (q - s + s) with q by ring. ring.
  - (* D_ODD *)
    rewrite (line_sample_double Qminus) by (right; split; reflexivity).
    replace (q + (Z.of_nat (List.length h) - 1) * s)
      with ((q - s) + Z.of_nat (List.length h) * s) by ring.
    rewrite (mirrored_sum imem s Qopp Qminus minus_pairs [] h (q - s)).
    cbn [conv_sum List.length].
    replace (q - s - Z.of_nat 0 * s) with (q - s) by (change (Z.of_nat 0) with 0; ring).
    replace (q - s + s) with q by ring. ring.
Qed.

(** Two runs of the loop over [ii] whose bodies agree up to a shift [d] of
    the input pointer write the same output. *)
Lemma line_loop_shift (b1 b2 : Z -> Q) (os d : Z)
  (Hb : forall p : Z, (b1 (p + d)%Z == b2 p)%Q) :
  forall (n : nat) (in2 out : Z) (om1 om2 : Memory),
    (forall a : Z, (om1 a == om2 a)%Q) ->
    forall a : Z,
      (line_loop b1 s os n (in2 + d) out om1 a == line_loop b2 s os n in2 out om2 a)%Q.
Proof.
  induction n as [| n IH]; intros in2 out om1 om2 Hom a; cbn [line_loop].
  - apply Hom.
  - replace (in2 + d + s) with ((in2 + s) + d) by ring.
    apply IH. intros b. unfold store.
    destruct (b =? out); [apply Hb | apply Hom].
Qed.

End LineSamples.

Lemma Filter_single (f : InternOneDimensionalFilter.t)
  (params : SeparableLineFilterParameters.t) (imem omem : Memory) :
  Filter [f] params imem omem =
    let inb := SeparableLineFilterParameters.inBuffer params in
    let outb := SeparableLineFilterParameters.outBuffer params in
    let flt := InternOneDimensionalFilter.filter f in
    let fsh := wrap (Z.of_nat (List.length flt) - 1) in
    let sym := InternOneDimensionalFilter.symmetry f in
    Some (line_loop
            (line_sample sym imem flt (InternOneDimensionalFilter.size f)
               (match sym with D_EVEN | D_ODD => wrap (fsh + 1) | _ => fsh end)
               (SeparableBuffer.stride inb))
            (SeparableBuffer.stride inb) (SeparableBuffer.stride outb)
            (Z.to_nat (SeparableBuffer.length inb))
            (match sym with
             | GENERAL =>
                 SeparableBuffer.buffer inb
                 + to_sint (InternOneDimensionalFilter.origin f) * SeparableBuffer.stride inb
             | _ =>
                 SeparableBuffer.buffer inb
                 + to_sint (wrap (InternOneDimensionalFilter.origin f - fsh))
                   * SeparableBuffer.stride inb
             end)
            (SeparableBuffer.buffer outb) omem).
Proof. reflexivity. Qed.

Lemma logicalSize_ge (sym : FilterSymmetry) (n : Z) : 1 <= n -> n <= logicalSize sym n.
Proof. destruct sym; unfold logicalSize; lia. Qed.

(** The two filters of the comparison, once normalised with an origin
    inside the filter. *)
Lemma Filter_full_filter (sym : FilterSymmetry) (h : FloatArray) (org : Z)
  (params : SeparableLineFilterParameters.t) (imem omem : Memory) :
  h <> [] ->
  Z.of_nat (List.length (full_filter sym h)) < max_filter_length ->
  0 <= org < logicalSize sym (Z.of_nat (List.length h)) ->
  exists mf mh : Memory,
    Filter [InternOneDimensionalFilter.mk (full_filter sym h)
              (logicalSize sym (Z.of_nat (List.length h))) org GENERAL]
      params imem omem = Some mf /\
    Filter [InternOneDimensionalFilter.mk h
              (logicalSize sym (Z.of_nat (List.length h))) org sym]
      params imem omem = Some mh /\
    forall a : Z, (mf a == mh a)%Q.
Proof.
  intros Hne Hlen Horg.
  pose proof (full_filter_length sym h Hne) as Hfull.
  assert (Hn : 1 <= Z.of_nat (List.length h)).
  { destruct h; [congruence | simpl; lia]. }
  pose proof (logicalSize_ge sym _ Hn) as Hge.
  unfold max_filter_length in Hlen.
  rewrite !Filter_single.
  cbn [InternOneDimensionalFilter.filter InternOneDimensionalFilter.size
       InternOneDimensionalFilter.origin InternOneDimensionalFilter.symmetry].
  cbv zeta.
  eexists. eexists. split; [reflexivity |]. split; [reflexivity |].
  set (n := Z.of_nat (List.length h)) in *.
  set (st := SeparableBuffer.stride (SeparableLineFilterParameters.inBuffer params)).
  set (base := SeparableBuffer.buffer (SeparableLineFilterParameters.inBuffer params)).
  assert (Hfsh : wrap (n - 1) = n - 1) by (apply wrap_small; unfold uint_modulus; lia).
  assert (Hfsh1 : wrap (n - 1 + 1) = n).
  { rewrite wrap_small by (unfold uint_modulus; lia). lia. }
  assert (Hshift : to_sint (wrap (org - (n - 1))) = org - (n - 1))
    by (apply to_sint_wrap; lia).
  assert (Hcast : to_sint org = org) by (apply to_sint_small; lia).
  rewrite Hcast.
  destruct sym.
  - (* GENERAL: the same filter twice *)
    intros a. reflexivity.
  - rewrite Hfsh, Hshift.
    replace (base + org * st) with ((base + (org - (n - 1)) * st) + (n - 1) * st) by ring.
    apply line_loop_shift; [| reflexivity].
    intros p. rewrite <- Hfull.
    apply (line_sample_full_filter imem st EVEN h); [assumption | discriminate].
  - rewrite Hfsh, Hshift.
    replace (base + org * st) with ((base + (org - (n - 1)) * st) + (n - 1) * st) by ring.
    apply line_loop_shift; [| reflexivity].
    intros p. rewrite <- Hfull.
    apply (line_sample_full_filter imem st ODD h); [assumption | discriminate].
  - rewrite Hfsh, Hfsh1, Hshift.
    replace (base + org * st) with ((base + (org - (n - 1)) * st) + (n - 1) * st) by ring.
    apply line_loop_shift; [| reflexivity].
    intros p. rewrite <- Hfull.
    apply (line_sample_full_filter imem st D_EVEN h); [assumption | discriminate].
  - rewrite Hfsh, Hfsh1, Hshift.
    replace (base + org * st) with ((base + (org - (n - 1)) * st) + (n - 1) * st) by ring.
    apply line_loop_shift; [| reflexivity].
    intros p. rewrite <- Hfull.
    apply (line_sample_full_filter imem st D_ODD h); [assumption | discriminate].
Qed.


(** The explicit filters of the "even" symmetry are exactly the odd-length
    sequences that read the same in both directions. *)
Lemma full_filter_even_mirror (h : FloatArray) :
  h <> [] ->
  rev (full_filter EVEN h) = full_filter EVEN h /\
  Nat.odd (List.length (full_filter EVEN h)) = true /\
  firstn (List.length h) (full_filter EVEN h) = h.
Proof.
  intros Hne. destruct (exists_last Hne) as [h' [c ->]].
  assert (Htl : tl (rev (h' ++ [c])) = rev h') by (rewrite rev_app_distr; reflexivity).
  unfold full_filter. rewrite Htl.
  split; [| split].
  - rewrite !rev_app_distr, rev_involutive. cbn [rev app].
    rewrite <- app_assoc. reflexivity.
  - rewrite !length_app, length_rev. cbn [List.length].
    replace (List.length h' + 1 + List.length h')%nat
      with (S (2 * List.length h')) by lia.
    rewrite Nat.odd_succ. apply Nat.even_spec. exists (List.length h'). lia.
  - rewrite firstn_app, Nat.sub_diag, firstn_all. cbn [firstn]. apply app_nil_r.
Qed.

Lemma mirror_symmetric_is_full_filter (F : FloatArray) :
  rev F = F ->
  Nat.odd (List.length F) = true ->
  F = full_filter EVEN (firstn (S (List.length F / 2)) F).
Proof.
  intros Hsym Hodd.
  apply Nat.odd_spec in Hodd. destruct Hodd as [k Hk].
  assert (Hhalf : (List.length F / 2 = k)%nat).
  { rewrite Hk. symmetry. apply (Nat.div_unique _ 2 k 1); lia. }
  rewrite Hhalf. unfold full_filter.
  assert (Hrev : rev (firstn (S k) F) = skipn k F).
  { rewrite <- Hsym at 2. rewrite skipn_rev. do 2 f_equal. lia. }
  rewrite Hrev.
  replace (tl (skipn k F)) with (skipn (S k) F).
  - symmetry. apply firstn_skipn.
  - change (S k) with (1 + k)%nat. rewrite <- skipn_skipn.
    destruct (skipn k F); reflexivity.
Qed.

(** ** The line filter over [Q] is the instance at exact arithmetic *)


Lemma GeneralConvolutionLineFilter_Filter_is_exact_instance
  (params : FullLineFilterParameters.t) (imem omem : Memory) :
  TPI.GeneralConvolutionLineFilter_Filter exact params imem omem
  = GeneralConvolutionLineFilter_Filter params imem omem.
Proof. reflexivity. Qed.


(** ** Arrays updated in a loop *)

Lemma assign_length {A : Type} (a : list A) :
  forall (i : nat) (v : A), List.length (assign a i v) = List.length a.
Proof.
  induction a as [| x a IH]; intros [| i] v; simpl; try reflexivity.
  now rewrite IH.
Qed.

Lemma nth_assign_same {A : Type} (a : list A) :
  forall (i : nat) (v d : A), (i < List.length a)%nat -> nth i (assign a i v) d = v.
Proof.
  induction a as [| x a IH]; intros [| i] v d Hi; simpl in *; try lia.
  - reflexivity.
  - apply IH. lia.
Qed.

Lemma nth_assign_other {A : Type} (a : list A) :
  forall (i j : nat) (v d : A), i <> j -> nth j (assign a i v) d = nth j a d.
Proof.
  induction a as [| x a IH]; intros [| i] [| j] v d Hij; simpl; try reflexivity.
  - congruence.
  - apply IH. congruence.
Qed.

(** A loop [for( ii = a; ii < a + k; ++ii ) if( c( ii )) l[ ii ] = v( ii );]
    leaves at index [j] either [v j] or what was there. *)
Lemma nth_assign_loop {A : Type} (c : nat -> bool) (v : nat -> A) (d : A) :
  forall (k a : nat) (l : list A) (j : nat),
    (a + k <= List.length l)%nat ->
    nth j (fold_left (fun l ii => if c ii then assign l ii (v ii) else l) (seq a k) l) d
    = if ((a <=? j)%nat && (j <? a + k)%nat && c j)%bool then v j else nth j l d.
Proof.
  induction k as [| k IH]; intros a l j Hlen; cbn [seq fold_left].
  - replace ((j <? a + 0)%nat) with (negb (a <=? j)%nat).
    + destruct (a <=? j)%nat; reflexivity.
    + destruct (Nat.leb_spec a j), (Nat.ltb_spec j (a + 0)); simpl; lia || reflexivity.
  - rewrite IH by (destruct (c a); rewrite ?assign_length; lia).
    destruct (Nat.leb_spec (S a) j) as [Hlo | Hlo];
      destruct (Nat.ltb_spec j (S a + k)) as [Hhi | Hhi];
      destruct (Nat.leb_spec a j) as [Hlo' | Hlo'];
      destruct (Nat.ltb_spec j (a + S k)) as [Hhi' | Hhi'];
      try lia; cbn [andb].
    + destruct (c j); [reflexivity |].
      destruct (c a); [apply nth_assign_other; lia | reflexivity].
    + destruct (c a); [apply nth_assign_other; lia | reflexivity].
    + assert (j = a) by lia. subst j.
      destruct (c a); [apply nth_assign_same; lia | reflexivity].
    + destruct (c a); [apply nth_assign_other; lia | reflexivity].
Qed.

Lemma assign_loop_length {A : Type} (c : nat -> bool) (v : nat -> A) :
  forall (idx : list nat) (l : list A),
    List.length (fold_left (fun l ii => if c ii then assign l ii (v ii) else l) idx l)
    = List.length l.
Proof.
  induction idx as [| i idx IH]; intros l; cbn [fold_left]; [reflexivity |].
  rewrite IH. destruct (c i); [apply assign_length | reflexivity].
Qed.

Lemma nth_fill {A : Type} (a : list A) (v d : A) :
  forall j : nat, (j < List.length a)%nat -> nth j (fill a v) d = v.
Proof.
  unfold fill. revert a. induction a as [| x a IH]; intros [| j] Hj; simpl in *; try lia.
  - reflexivity.
  - apply IH. lia.
Qed.

Lemma fill_repeat {A : Type} (v w : A) (n : nat) :
  fill (repeat w n) v = repeat v n.
Proof.
  unfold fill. induction n as [| n IH]; simpl; [reflexivity | now rewrite IH].
Qed.

Lemma fill_false_nth (a : BooleanArray) (j : nat) : nth j (fill a false) false = false.
Proof.
  unfold fill. revert j. induction a as [| x a IH]; intros [| j]; simpl; auto.
Qed.

(** ** Symmetry and origin validation *)

Lemma parse_symmetry_unrecognized (s : string) (n : Z) :
  recognized s = None ->
  InternOneDimensionalFilter.parse_symmetry s n =
    Throw (RunTimeError ("Symmetry string not recognized: " ++ s)%string).
Proof.
  unfold recognized, InternOneDimensionalFilter.parse_symmetry.
  destruct (s =? "")%string; [discriminate |].
  destruct (s =? "general")%string; [discriminate |].
  destruct (s =? "even")%string; [discriminate |].
  destruct (s =? "odd")%string; [discriminate |].
  destruct (s =? "d-even")%string; [discriminate |].
  destruct (s =? "d-odd")%string; [discriminate | reflexivity].
Qed.

Lemma ctor_unrecognized (flt : FloatArray) (o : Z) (s : string) :
  flt <> [] ->
  recognized s = None ->
  InternOneDimensionalFilter.ctor (OneDimensionalFilter.mk flt o s) =
    Throw (RunTimeError ("Symmetry string not recognized: " ++ s)%string).
Proof.
  intros Hne Hrec. unfold InternOneDimensionalFilter.ctor.
  cbn [OneDimensionalFilter.filter OneDimensionalFilter.symmetry OneDimensionalFilter.origin].
  destruct (Z.eqb_spec (Z.of_nat (List.length flt)) 0) as [H0 | _].
  - destruct flt; [congruence | simpl in H0; lia].
  - rewrite parse_symmetry_unrecognized by assumption. reflexivity.
Qed.

(** C4, as amended.  A symmetry string that is neither empty nor one of
    the five tags makes the normaliser fail with the "not recognized"
    error, which names the string and nothing else, whenever the filter
    has at least one coefficient.  With no coefficients the symmetry string
    is not looked at: the normaliser succeeds and yields the absent filter
    of logical size 0. *)
Theorem unrecognized_symmetry_fails_unless_empty :
  forall f : OneDimensionalFilter.t,
    recognized (OneDimensionalFilter.symmetry f) = None ->
    (OneDimensionalFilter.filter f <> [] ->
     InternOneDimensionalFilter.ctor f =
       Throw (RunTimeError ("Symmetry string not recognized: "
                            ++ OneDimensionalFilter.symmetry f)%string)) /\
    (OneDimensionalFilter.filter f = [] ->
     InternOneDimensionalFilter.ctor f = Ok (InternOneDimensionalFilter.init [])).
Proof.
  intros [flt o s] Hrec. cbn [OneDimensionalFilter.symmetry OneDimensionalFilter.filter] in *.
  split.
  - intros Hne. now apply ctor_unrecognized.
  - intros ->. reflexivity.
Qed.

Lemma to_uint_nonneg (o : Z) : 0 <= o < 2 ^ 63 -> to_uint o = o.
Proof. intros Ho. unfold to_uint, uint_modulus. apply Z.mod_small. lia. Qed.

(** C5.  For a filter with at least one coefficient and a recognised
    symmetry, let [L] be its logical size.  A negative origin argument is
    replaced by [L / 2] (integer division).  A non-negative origin argument
    makes the normaliser fail with "Origin outside of filter" exactly when
    it is at least [L]; otherwise it is kept as it is. *)
Theorem origin_default_and_validation :
  forall (flt : FloatArray) (o : Z) (s : string) (sym : FilterSymmetry),
    flt <> [] ->
    Z.of_nat (List.length flt) < max_filter_length ->
    recognized s = Some sym ->
    - 2 ^ 63 <= o < 2 ^ 63 ->
    let L := logicalSize sym (Z.of_nat (List.length flt)) in
    let r := InternOneDimensionalFilter.ctor (OneDimensionalFilter.mk flt o s) in
    (o < 0 -> r = Ok (InternOneDimensionalFilter.mk flt L (L / 2) sym)) /\
    (0 <= o ->
     (r = Throw (RunTimeError "Origin outside of filter") <-> L <= o) /\
     (o < L -> r = Ok (InternOneDimensionalFilter.mk flt L o sym))).
Proof.
  intros flt o s sym Hne Hlen Hrec Ho L r. subst r.
  rewrite (ctor_recognized flt o s sym Hne Hlen Hrec). cbv zeta. fold L.
  split.
  - intros Hneg. destruct (Z.ltb_spec o 0); [reflexivity | lia].
  - intros Hpos. destruct (Z.ltb_spec o 0); [lia |].
    rewrite to_uint_nonneg by lia.
    destruct (Z.leb_spec L o) as [Hout | Hin].
    + split; [split; [intros _; exact Hout | reflexivity] | lia].
    + split; [split; [discriminate | lia] | reflexivity].
Qed.

(** ** SeparableConvolution: what reaches the per-line engine *)

Lemma map_result_length {A B : Type} (f : A -> result B) :
  forall (xs : list A) (ys : list B),
    map_result f xs = Ok ys -> List.length ys = List.length xs.
Proof.
  induction xs as [| x xs IH]; intros ys H; simpl in H.
  - injection H as <-. reflexivity.
  - destruct (f x) as [y | e]; [| discriminate]. simpl in H.
    destruct (map_result f xs) as [ys' | e]; [| discriminate]. simpl in H.
    injection H as <-. simpl. now rewrite (IH ys' eq_refl).
Qed.

(** Either a check of [SeparableConvolution] throws before anything is
    called, or every check passes and the body is one call of
    [Framework::Separable]. *)
Lemma SeparableConvolution_inv (in_ : Image) (filterArray : list OneDimensionalFilter.t)
  (boundaryCondition : StringArray) (process : BooleanArray) :
  (exists e : Error,
      SeparableConvolution in_ filterArray boundaryCondition process = Raise e) \/
  (exists (filterData : InternOneDimensionalFilterArray) (bc : BoundaryConditionArray)
          (process0 : BooleanArray),
      map_result InternOneDimensionalFilter.ctor filterArray = Ok filterData /\
      StringArrayToBoundaryConditionArray boundaryCondition = Ok bc /\
      (List.length filterArray = 1%nat \/
       List.length filterArray = List.length (sizes in_)) /\
      List.length process0 = List.length (sizes in_) /\
      process0 = match process with [] => repeat true (List.length (sizes in_)) | _ => process end /\
      SeparableConvolution in_ filterArray boundaryCondition process =
        Do (Framework_Separable in_ (SuggestFlex (dataType in_)) (SuggestFlex (dataType in_))
              (restrict_process in_ filterData (Dimensionality in_) process0)
              (make_border filterData (Dimensionality in_)) bc filterData) Ret).
Proof.
  unfold SeparableConvolution, throw_if.
  destruct (IsForged in_); cbn [negb bind]; [| left; eexists; reflexivity].
  destruct (Dimensionality in_ <? 1); cbn [bind]; [left; eexists; reflexivity |].
  assert (Hcount :
            (negb (Z.of_nat (List.length filterArray) =? 1)
             && negb (Z.of_nat (List.length filterArray) =? Dimensionality in_))%bool = false ->
            List.length filterArray = 1%nat \/
            List.length filterArray = List.length (sizes in_)).
  { unfold Dimensionality.
    destruct (Z.eqb_spec (Z.of_nat (List.length filterArray)) 1);
      destruct (Z.eqb_spec (Z.of_nat (List.length filterArray))
                  (Z.of_nat (List.length (sizes in_)))); cbn; intros; try discriminate; lia. }
  destruct (negb (Z.of_nat (List.length filterArray) =? 1)
            && negb (Z.of_nat (List.length filterArray) =? Dimensionality in_))%bool;
    cbn [bind]; [left; eexists; reflexivity |].
  specialize (Hcount eq_refl).
  destruct (map_result InternOneDimensionalFilter.ctor filterArray) as [filterData | e];
    cbn [lift bind]; [| left; eexists; reflexivity].
  destruct process as [| p ps]; cbn [bind].
  - destruct (StringArrayToBoundaryConditionArray boundaryCondition) as [bc | e];
      cbn [lift bind]; [| left; eexists; reflexivity].
    right. exists filterData, bc, (repeat true (List.length (sizes in_))).
    split; [reflexivity |]. split; [reflexivity |]. split; [exact Hcount |].
    split; [apply repeat_length |]. split; [reflexivity |].
    unfold Dimensionality. rewrite Nat2Z.id. reflexivity.
  - destruct (Z.eqb_spec (Z.of_nat (List.length (p :: ps))) (Dimensionality in_)) as [Hlen | Hlen];
      cbn [negb bind]; [| left; eexists; reflexivity].
    destruct (StringArrayToBoundaryConditionArray boundaryCondition) as [bc | e];
      cbn [lift bind]; [| left; eexists; reflexivity].
    right. exists filterData, bc, (p :: ps).
    split; [reflexivity |]. split; [reflexivity |]. split; [exact Hcount |].
    split; [unfold Dimensionality in Hlen; lia |]. split; reflexivity.
Qed.

(** The preconditions under which no check throws. *)
Lemma SeparableConvolution_checks_pass (in_ : Image)
  (filterArray : list OneDimensionalFilter.t)
  (boundaryCondition : StringArray) (process : BooleanArray) :
  IsForged in_ = true ->
  1 <= Dimensionality in_ ->
  (List.length filterArray = 1%nat \/ Z.of_nat (List.length filterArray) = Dimensionality in_) ->
  (exists fd, map_result InternOneDimensionalFilter.ctor filterArray = Ok fd) ->
  (process = [] \/ Z.of_nat (List.length process) = Dimensionality in_) ->
  (exists bc, StringArrayToBoundaryConditionArray boundaryCondition = Ok bc) ->
  forall e : Error,
    SeparableConvolution in_ filterArray boundaryCondition process <> Raise e.
Proof.
  intros Hforged Hdims Hfa [fd Hfd] Hproc [bc Hbc] e.
  unfold SeparableConvolution, throw_if.
  rewrite Hforged. cbn [negb bind].
  destruct (Z.ltb_spec (Dimensionality in_) 1) as [Hlt | _]; [lia |]. cbn [bind].
  replace (negb (Z.of_nat (List.length filterArray) =? 1)
           && negb (Z.of_nat (List.length filterArray) =? Dimensionality in_))%bool
    with false.
  2: { destruct Hfa as [H1 | Hn].
       - rewrite H1. reflexivity.
       - rewrite Hn, Z.eqb_refl. cbn [negb]. now rewrite andb_false_r. }
  cbn [bind]. rewrite Hfd, Hbc. cbn [lift bind].
  destruct process as [| p ps]; cbn [bind lift]; [discriminate |].
  destruct Hproc as [Hnil | Hlen]; [discriminate |].
  rewrite Hlen, Z.eqb_refl. cbn [negb bind]. discriminate.
Qed.

(** [border_of] is the border requirement [max(origin, size - origin - 1)]
    over the integers whenever the origin lies inside the filter. *)
Lemma border_of_inside (f : InternOneDimensionalFilter.t) :
  0 <= InternOneDimensionalFilter.origin f < InternOneDimensionalFilter.size f ->
  InternOneDimensionalFilter.size f < uint_modulus ->
  border_of f =
    Z.max (InternOneDimensionalFilter.origin f)
      (InternOneDimensionalFilter.size f - InternOneDimensionalFilter.origin f - 1).
Proof.
  intros Ho Hs. unfold border_of. cbv zeta.
  rewrite wrap_small by lia. reflexivity.
Qed.

Lemma make_border_broadcast (f : InternOneDimensionalFilter.t) (nDims : Z) :
  make_border [f] nDims = repeat (border_of f) (Z.to_nat nDims).
Proof. unfold make_border. cbn [List.length Z.of_nat Z.eqb Pos.of_succ_nat Pos.eqb nth]. apply fill_repeat. Qed.

Lemma make_border_per_dimension (filterData : InternOneDimensionalFilterArray)
  (nDims : Z) (ii : nat) :
  List.length filterData <> 1%nat ->
  (ii < Z.to_nat nDims)%nat ->
  nth ii (make_border filterData nDims) 0 = border_of (nth ii filterData absent_filter).
Proof.
  intros Hlen Hii. unfold make_border.
  destruct (Z.eqb_spec (Z.of_nat (List.length filterData)) 1) as [H1 | _]; [lia |].
  rewrite (nth_assign_loop (fun _ => true)
             (fun ii => border_of (nth ii filterData absent_filter)) 0)
    by (rewrite repeat_length; lia).
  destruct (Nat.leb_spec 0 ii); [| lia].
  destruct (Nat.ltb_spec ii (0 + Z.to_nat nDims)); [reflexivity | lia].
Qed.

(** The per-dimension branch switches off every dimension whose filter is a
    no-op or along which the image has at most one sample. *)
Lemma restrict_process_per_dimension (in_ : Image)
  (filterData : InternOneDimensionalFilterArray) (process : BooleanArray) (ii : nat) :
  List.length filterData <> 1%nat ->
  List.length process = List.length (sizes in_) ->
  (ii < List.length (sizes in_))%nat ->
  nth ii (restrict_process in_ filterData (Dimensionality in_) process) false =
    if (IsMeaninglessFilter (nth ii filterData absent_filter) || (Size in_ ii <=? 1))%bool
    then false else nth ii process false.
Proof.
  intros Hlen Hproc Hii. unfold restrict_process, Dimensionality.
  destruct (Z.eqb_spec (Z.of_nat (List.length filterData)) 1) as [H1 | _]; [lia |].
  rewrite Nat2Z.id.
  rewrite (nth_assign_loop
             (fun ii => (IsMeaninglessFilter (nth ii filterData absent_filter)
                         || (Size in_ ii <=? 1))%bool)
             (fun _ => false) false) by lia.
  destruct (Nat.leb_spec 0 ii); [| lia].
  destruct (Nat.ltb_spec ii (0 + List.length (sizes in_))); [| lia].
  reflexivity.
Qed.

(** ** No-op filters *)

Lemma IsMeaninglessFilter_noop (f : InternOneDimensionalFilter.t) :
  is_noop f <-> IsMeaninglessFilter f = true.
Proof.
  unfold is_noop, IsMeaninglessFilter. rewrite orb_true_iff, andb_true_iff.
  rewrite !Z.eqb_eq, Qeq_bool_iff. reflexivity.
Qed.

Lemma restrict_process_all_noop (in_ : Image)
  (filterData : InternOneDimensionalFilterArray) (process : BooleanArray) :
  Forall is_noop filterData ->
  (List.length filterData = 1%nat \/ List.length filterData = List.length (sizes in_)) ->
  List.length process = List.length (sizes in_) ->
  forall d : nat,
    nth d (restrict_process in_ filterData (Dimensionality in_) process) false = false.
Proof.
  intros Hall Hcount Hproc d.
  destruct (Nat.eq_dec (List.length filterData) 1) as [H1 | Hn1].
  - destruct filterData as [| f [| g fd]]; try discriminate.
    unfold restrict_process. cbn [List.length Z.of_nat Pos.of_succ_nat Z.eqb Pos.eqb nth].
    apply Forall_inv in Hall. apply IsMeaninglessFilter_noop in Hall. rewrite Hall.
    apply fill_false_nth.
  - destruct Hcount as [H1 | Hlen]; [contradiction |].
    destruct (Nat.lt_ge_cases d (List.length (sizes in_))) as [Hd | Hd].
    + rewrite restrict_process_per_dimension by assumption.
      assert (Hnoop : IsMeaninglessFilter (nth d filterData absent_filter) = true).
      { apply IsMeaninglessFilter_noop.
        rewrite Forall_forall in Hall. apply Hall. apply nth_In. lia. }
      rewrite Hnoop. reflexivity.
    + apply nth_overflow. unfold restrict_process.
      destruct (Z.of_nat (List.length filterData) =? 1).
      * destruct (IsMeaninglessFilter _); [unfold fill; rewrite length_map |]; lia.
      * rewrite (assign_loop_length
                   (fun ii => (IsMeaninglessFilter (nth ii filterData absent_filter)
                               || (Size in_ ii <=? 1))%bool) (fun _ => false)).
        lia.
Qed.

Lemma Separable_engine_nothing_to_process
  (line_pass : (SeparableLineFilterParameters.t -> Memory -> Memory -> option Memory)
               -> Image -> nat -> Z -> BoundaryCondition -> Image)
  (in_ : Image) (t : DataType) (process : BooleanArray) (border : UnsignedArray)
  (bc : BoundaryConditionArray) (lf : InternOneDimensionalFilterArray) :
  (forall d : nat, nth d process false = false) ->
  Separable_engine line_pass in_ t process border bc lf =
    mkImage (forged in_) (sizes in_) t (pixels in_).
Proof.
  intros Hoff. unfold Separable_engine.
  generalize (mkImage (forged in_) (sizes in_) t (pixels in_)).
  generalize (seq 0 (List.length (sizes in_))).
  induction l as [| d l IH]; intros img; cbn [fold_left]; [reflexivity |].
  rewrite Hoff. apply IH.
Qed.

(** C3.  Let every filter handed to [SeparableConvolution] normalise to a
    no-op: logical size 0, or logical size 1 with the coefficient 1.  Then,
    whatever the boundary conditions and the [process] array are: the
    per-line engine is called with every dimension switched off; if the
    call returns an image, its samples and sizes are those of the input;
    and the call does return an image whenever the input is forged with at
    least one dimension, the number of filters is 1 or the dimensionality,
    the [process] array is empty or has one entry per dimension, and the
    boundary-condition strings are in the vocabulary. *)
Theorem noop_filters_leave_image_unchanged :
  forall (line_pass : (SeparableLineFilterParameters.t -> Memory -> Memory -> option Memory)
                      -> Image -> nat -> Z -> BoundaryCondition -> Image)
         (ext : Call -> result Image)
         (in_ : Image) (filterArray : list OneDimensionalFilter.t)
         (boundaryCondition : StringArray) (process : BooleanArray)
         (filterData : InternOneDimensionalFilterArray),
    map_result InternOneDimensionalFilter.ctor filterArray = Ok filterData ->
    Forall is_noop filterData ->
    let r := run (with_Separable_engine line_pass ext)
               (SeparableConvolution in_ filterArray boundaryCondition process) in
    (forall c : Call, In c (snd r) ->
       exists i t1 t2 p b bc lf,
         c = Framework_Separable i t1 t2 p b bc lf /\
         forall d : nat, nth d p false = false) /\
    (forall out : Image, fst r = Ok out ->
       pixels out = pixels in_ /\ sizes out = sizes in_) /\
    (IsForged in_ = true ->
     1 <= Dimensionality in_ ->
     (List.length filterArray = 1%nat \/
      Z.of_nat (List.length filterArray) = Dimensionality in_) ->
     (process = [] \/ Z.of_nat (List.length process) = Dimensionality in_) ->
     (exists bc, StringArrayToBoundaryConditionArray boundaryCondition = Ok bc) ->
     exists out : Image, fst r = Ok out).
Proof.
  intros line_pass ext in_ filterArray boundaryCondition process filterData Hfd Hall r.
  destruct (SeparableConvolution_inv in_ filterArray boundaryCondition process)
    as [[e He] | [fd [bc [p0 [Hfd' [Hbc [Hcount [Hp0 [Hp0' Hsc]]]]]]]]].
  - (* a check throws *)
    split; [| split].
    + subst r. rewrite He. cbn. intros c [].
    + subst r. rewrite He. cbn. intros out H. discriminate.
    + intros Hforged Hdims Hfa Hproc Hbc. exfalso.
      apply (SeparableConvolution_checks_pass in_ filterArray boundaryCondition process
               Hforged Hdims Hfa (ex_intro _ filterData Hfd) Hproc Hbc e He).
  - rewrite Hfd in Hfd'. injection Hfd' as <-.
    assert (Hoff : forall d : nat,
               nth d (restrict_process in_ filterData (Dimensionality in_) p0) false = false).
    { apply restrict_process_all_noop; try assumption.
      rewrite (map_result_length _ _ _ Hfd). exact Hcount. }
    subst r. rewrite Hsc. cbn [run with_Separable_engine fst snd].
    rewrite (Separable_engine_nothing_to_process _ _ _ _ _ _ _ Hoff).
    split; [| split].
    + intros c [<- | []]. do 7 eexists. split; [reflexivity | exact Hoff].
    + intros out H. injection H as <-. split; reflexivity.
    + intros _ _ _ _ _. eexists. reflexivity.
Qed.

(** ** Border requirement and switched-off dimensions *)

Lemma ctor_origin_inside (flt : FloatArray) (o : Z) (s : string)
  (fd : InternOneDimensionalFilter.t) :
  flt <> [] ->
  Z.of_nat (List.length flt) < max_filter_length ->
  InternOneDimensionalFilter.ctor (OneDimensionalFilter.mk flt o s) = Ok fd ->
  0 <= InternOneDimensionalFilter.origin fd < InternOneDimensionalFilter.size fd /\
  InternOneDimensionalFilter.size fd < uint_modulus.
Proof.
  intros Hne Hlen Hctor.
  assert (Hn : 1 <= Z.of_nat (List.length flt)).
  { destruct flt; [congruence | simpl; lia]. }
  destruct (recognized s) as [sym |] eqn:Hrec.
  - rewrite (ctor_recognized flt o s sym Hne Hlen Hrec) in Hctor. cbv zeta in Hctor.
    assert (Hsz : 1 <= logicalSize sym (Z.of_nat (List.length flt)) < uint_modulus).
    { unfold max_filter_length in Hlen. unfold uint_modulus.
      destruct sym; unfold logicalSize; lia. }
    destruct (Z.ltb_spec o 0).
    + injection Hctor as <-.
      cbn [InternOneDimensionalFilter.origin InternOneDimensionalFilter.size].
      split; [split; [apply Z.div_pos; lia | apply Z.div_lt_upper_bound; lia] | lia].
    + destruct (Z.leb_spec (logicalSize sym (Z.of_nat (List.length flt))) (to_uint o));
        [discriminate |].
      injection Hctor as <-.
      cbn [InternOneDimensionalFilter.origin InternOneDimensionalFilter.size].
      split; [split; [| assumption] | lia].
      unfold to_uint, uint_modulus. apply Z.mod_pos_bound. lia.
  - rewrite (ctor_unrecognized flt o s Hne Hrec) in Hctor. discriminate.
Qed.

(** For a filter with at least one coefficient the border handed to the
    engine is [max(origin, size - origin - 1)] over the integers. *)
Lemma border_of_normalised (flt : FloatArray) (o : Z) (s : string)
  (fd : InternOneDimensionalFilter.t) :
  flt <> [] ->
  Z.of_nat (List.length flt) < max_filter_length ->
  InternOneDimensionalFilter.ctor (OneDimensionalFilter.mk flt o s) = Ok fd ->
  border_of fd =
    Z.max (InternOneDimensionalFilter.origin fd)
      (InternOneDimensionalFilter.size fd - InternOneDimensionalFilter.origin fd - 1).
Proof.
  intros Hne Hlen Hctor.
  destruct (ctor_origin_inside flt o s fd Hne Hlen Hctor) as [Ho Hs].
  now apply border_of_inside.
Qed.

(** C2, at an input where the code departs from the statement: one filter
    without coefficients, broadcast over a three-dimensional image.  The
    filter normalises to logical size 0 and origin 0; the border handed to
    the engine is [2^64 - 1] in every dimension, where
    [max(origin, size - origin - 1)] over the integers is 0. *)
Theorem border_of_absent_filter_wraps :
  forall (dt : DataType) (px : Pixels),
    let in_ := mkImage true [80; 6; 5] dt px in
    SeparableConvolution in_ [OneDimensionalFilter.mk [] (-1) ""] ["periodic"%string] []
    = Do (Framework_Separable in_ (SuggestFlex dt) (SuggestFlex dt)
            [false; false; false]
            [18446744073709551615; 18446744073709551615; 18446744073709551615]
            [BC_PERIODIC] [absent_filter]) Ret
    /\ Z.max (InternOneDimensionalFilter.origin absent_filter)
         (InternOneDimensionalFilter.size absent_filter
          - InternOneDimensionalFilter.origin absent_filter - 1) = 0.
Proof. intros dt px. split; reflexivity. Qed.

Lemma restrict_process_broadcast (in_ : Image) (f : InternOneDimensionalFilter.t)
  (nDims : Z) (process : BooleanArray) :
  restrict_process in_ [f] nDims process =
    if IsMeaninglessFilter f then fill process false else process.
Proof. reflexivity. Qed.

(** C6, at an input where the code departs from the statement: one
    filter, not a no-op, broadcast over a 5 x 1 image with the default
    [process] array.  The image has extent 1 along dimension 1, yet the
    engine is called with that dimension still marked for processing; the
    extent is only looked at when there is one filter per dimension. *)
Theorem broadcast_keeps_singleton_dimension :
  forall (dt : DataType) (px : Pixels),
    let in_ := mkImage true [5; 1] dt px in
    Size in_ 1 = 1 /\
    SeparableConvolution in_
      [OneDimensionalFilter.mk [1%Q; 2%Q; 1%Q] (-1) "general"] ["periodic"%string] []
    = Do (Framework_Separable in_ (SuggestFlex dt) (SuggestFlex dt)
            [true; true] [1; 1] [BC_PERIODIC]
            [InternOneDimensionalFilter.mk [1%Q; 2%Q; 1%Q] 3 1 GENERAL]) Ret.
Proof. intros dt px. split; reflexivity. Qed.

(** ** ConvolveFT *)

Lemma as_representation_spatial (r : string) :
  (as_representation r =? "spatial")%string = (r =? "spatial")%string.
Proof. unfold as_representation. destruct (r =? "spatial")%string; reflexivity. Qed.

Lemma run_bind {A B : Type} (h : Call -> result Image) (f : A -> Prog B) :
  forall p : Prog A,
    run h (bind p f) =
      match run h p with
      | (Ok a, t) => let (r, t') := run h (f a) in (r, t ++ t')
      | (Throw e, t) => (Throw e, t)
      end.
Proof.
  induction p as [a | e | c k IH]; cbn [bind run].
  - destruct (run h (f a)). reflexivity.
  - reflexivity.
  - destruct (h c) as [img | e]; [| reflexivity].
    rewrite IH. destruct (run h (k img)) as [[a | e] t]; [| reflexivity].
    destruct (run h (f a)). reflexivity.
Qed.

(** Dropping the flag changes neither the calls nor the outcome. *)
Lemma ConvolveFT_run (h : Call -> result Image) (in_ filter : Image) (r1 r2 r3 : string) :
  run h (ConvolveFT in_ filter r1 r2 r3) =
    match run h (ConvolveFT_body in_ filter r1 r2 r3) with
    | (Ok a, t) => (Ok (fst a), t)
    | (Throw e, t) => (Throw e, t)
    end.
Proof.
  unfold ConvolveFT. rewrite run_bind.
  destruct (run h (ConvolveFT_body in_ filter r1 r2 r3)) as [[a | e] t]; [| reflexivity].
  cbn [run]. now rewrite app_nil_r.
Qed.

(** Case analysis along a run of [ConvolveFT_body]: every test of the
    body and every answer of the handler. *)
Ltac run_cases h :=
  unfold throw_if;
  repeat (cbn [run bind lift throw_if negb fst snd];
          match goal with
          | |- context [match h ?c with _ => _ end] => destruct (h c) eqn:?
          | |- context [if ?b then _ else _] => destruct b eqn:?
          end);
  cbn [run bind lift throw_if negb fst snd].

(** C10.  [ConvolveFT] looks at each of its three representation strings
    only through the test against "spatial": called with any strings it is
    the same program as when called with each string replaced by
    "spatial" if it equals "spatial" and by "frequency" otherwise.  No run
    ends in an error about a representation string: an exception is
    [IMAGE_NOT_FORGED] or [SIZES_DONT_MATCH] thrown by the body, or it was
    thrown by one of the calls the body made. *)
Theorem representation_strings_not_validated :
  forall (in_ filter : Image) (r1 r2 r3 : string),
    ConvolveFT in_ filter r1 r2 r3 =
      ConvolveFT in_ filter (as_representation r1) (as_representation r2)
        (as_representation r3) /\
    forall (h : Call -> result Image) (e : Error),
      fst (run h (ConvolveFT in_ filter r1 r2 r3)) = Throw e ->
      e = IMAGE_NOT_FORGED \/ e = SIZES_DONT_MATCH \/
      exists c : Call, In c (snd (run h (ConvolveFT in_ filter r1 r2 r3))) /\ h c = Throw e.
Proof.
  intros in_ filter r1 r2 r3. split.
  - unfold ConvolveFT, ConvolveFT_body.
    rewrite !as_representation_spatial. reflexivity.
  - intros h e. rewrite ConvolveFT_run. unfold ConvolveFT_body.
    run_cases h; intros Hthrow; try discriminate;
      injection Hthrow as <-;
      first [ left; reflexivity
            | right; left; reflexivity
            | right; right; eexists; split; [| eassumption]; cbn; tauto ].
Qed.

(** ** ConvolveFT once its own checks have passed *)

(** After the checks, a run that fails has failed in a callee: the last
    call of the trace was answered with the error of the run. *)
Lemma ConvolveFT_body_failure (h : Call -> result Image) (in_ filter : Image)
  (r1 r2 r3 : string) (e : Error) :
  IsForged in_ = true ->
  IsForged filter = true ->
  UnsignedArray_le (sizes (expanded_filter in_ filter)) (sizes in_) = true ->
  fst (run h (ConvolveFT_body in_ filter r1 r2 r3)) = Throw e ->
  exists (c : Call) (pre : list Call),
    snd (run h (ConvolveFT_body in_ filter r1 r2 r3)) = pre ++ [c] /\ h c = Throw e.
Proof.
  intros Hin Hfilter Hle. unfold ConvolveFT_body, throw_if.
  rewrite Hin, Hfilter. cbn [negb bind].
  revert Hle. unfold expanded_filter, QuickCopy.
  run_cases h; intros Hle Hthrow; try discriminate;
    try (injection Hthrow as <-);
    cbn [sizes ExpandDimensionality] in *;
    try (match goal with
         | H : negb _ = true |- _ => rewrite Hle in H; discriminate H
         end);
    match goal with
    | H : h ?c = Throw _ |- _ => exists c
    end;
    eexists; (split; [| eassumption]);
    match goal with
    | |- ?t = ?p ++ _ => unify p (removelast t)
    end;
    reflexivity.
Qed.

(** After the checks, a run in which every call made is answered returns,
    with the flag as described; if the output is asked for as "spatial",
    its last call is the inverse transform of some image, with the "real"
    option exactly when the flag is set, and the answer to that call is
    the result. *)
Lemma ConvolveFT_body_progress (h : Call -> result Image) (in_ filter : Image)
  (r1 r2 r3 : string) :
  IsForged in_ = true ->
  IsForged filter = true ->
  UnsignedArray_le (sizes (expanded_filter in_ filter)) (sizes in_) = true ->
  (forall c : Call,
      In c (snd (run h (ConvolveFT_body in_ filter r1 r2 r3))) ->
      exists img : Image, h c = Ok img) ->
  exists out : Image,
    fst (run h (ConvolveFT_body in_ filter r1 r2 r3))
    = Ok (out, real_expected in_ filter r1 r2) /\
    (r3 = "spatial"%string ->
     exists (prod : Image) (pre : list Call),
       snd (run h (ConvolveFT_body in_ filter r1 r2 r3))
       = pre ++ [FourierTransform prod
                   ("inverse"%string
                    :: (if real_expected in_ filter r1 r2 then ["real"%string] else []))] /\
       h (FourierTransform prod
            ("inverse"%string
             :: (if real_expected in_ filter r1 r2 then ["real"%string] else []))) = Ok out).
Proof.
  intros Hin Hfilter Hle Hans.
  destruct (fst (run h (ConvolveFT_body in_ filter r1 r2 r3))) as [[out real] | e] eqn:Hr.
  - revert Hr Hans. unfold ConvolveFT_body, throw_if, real_expected.
    rewrite Hin, Hfilter. cbn [negb bind].
    run_cases h; intros Hr Hans; try discriminate; injection Hr as <- <-;
      unfold QuickCopy in *; cbn [dataType sizes Pad ExpandDimensionality] in *;
      destruct (IsReal (dataType in_)); destruct (IsReal (dataType filter));
      cbn [andb] in *; try discriminate;
      (eexists; split; [reflexivity |]); intros Hsp;
      repeat match goal with
             | H : (?s =? "spatial")%string = false, E : ?s = "spatial"%string |- _ =>
                 rewrite E in H; discriminate H
             end;
      match goal with
      | H : h (FourierTransform ?p ("inverse"%string :: _)) = Ok _ |- _ => exists p
      end;
      eexists; (split; [| eassumption]);
      match goal with
      | |- ?t = ?p ++ _ => unify p (removelast t)
      end;
      reflexivity.
  - destruct (ConvolveFT_body_failure h in_ filter r1 r2 r3 e Hin Hfilter Hle Hr)
      as [c [pre [Htrace Hc]]].
    destruct (Hans c) as [img Himg].
    + rewrite Htrace. apply in_or_app. right. left. reflexivity.
    + congruence.
Qed.

Ltac settle_tests :=
  unfold QuickCopy in *;
  cbn [dataType sizes Pad ExpandDimensionality] in *;
  repeat match goal with
         | H : (_ =? "spatial")%string = true |- _ =>
             rewrite ?H; apply String.eqb_eq in H
         | H : (_ =? "spatial")%string = false |- _ =>
             rewrite ?H; apply String.eqb_neq in H
         end.

(** C8.  In every run of [ConvolveFT] against any handler:
    when the body reaches its end, the local variable [real] is true
    exactly when both operands were given as "spatial" and both have a real
    sample type; every transform called with the "inverse" option belongs
    to a run whose output representation is "spatial", and its options are
    "inverse" together with "real" exactly when that condition holds; and a
    run that succeeds with output representation "spatial" has made such a
    call.  The calls of [ConvolveFT] are those of the body.
    Moreover the body does reach its end: with forged operands, a filter
    that fits the input, and every call it makes answered, the run returns
    with [real] as described, and if the output representation is
    "spatial" its last call is the inverse transform, with the "real"
    option exactly under that condition, whose answer is the result. *)
Theorem real_flag_tracks_spatial_real_operands :
  forall (h : Call -> result Image) (in_ filter : Image) (r1 r2 r3 : string),
    let r := run h (ConvolveFT_body in_ filter r1 r2 r3) in
    let flag := real_expected in_ filter r1 r2 in
    snd (run h (ConvolveFT in_ filter r1 r2 r3)) = snd r /\
    (forall (out : Image) (real : bool), fst r = Ok (out, real) -> real = flag) /\
    (forall (img : Image) (opts : list string),
        In (FourierTransform img opts) (snd r) ->
        In "inverse"%string opts ->
        r3 = "spatial"%string /\
        opts = "inverse"%string :: (if flag then ["real"%string] else [])) /\
    (forall (out : Image) (real : bool),
        fst r = Ok (out, real) ->
        r3 = "spatial"%string ->
        exists prod : Image,
          In (FourierTransform prod
                ("inverse"%string :: (if flag then ["real"%string] else []))) (snd r)) /\
    (IsForged in_ = true ->
     IsForged filter = true ->
     UnsignedArray_le (sizes (expanded_filter in_ filter)) (sizes in_) = true ->
     (forall c : Call, In c (snd r) -> exists img : Image, h c = Ok img) ->
     exists out : Image,
       fst r = Ok (out, flag) /\
       fst (run h (ConvolveFT in_ filter r1 r2 r3)) = Ok out /\
       (r3 = "spatial"%string ->
        exists (prod : Image) (pre : list Call),
          snd r = pre ++ [FourierTransform prod
                            ("inverse"%string
                             :: (if flag then ["real"%string] else []))] /\
          h (FourierTransform prod
               ("inverse"%string :: (if flag then ["real"%string] else []))) = Ok out)).
Proof.
  intros h in_ filter r1 r2 r3 r flag. subst r flag.
  match goal with
  | |- _ /\ _ /\ _ /\ _ /\ ?returns => assert (Hreturns : returns)
  end.
  { intros Hin Hfilter Hle Hans.
    destruct (ConvolveFT_body_progress h in_ filter r1 r2 r3 Hin Hfilter Hle Hans)
      as [out [Hout Hlast]].
    exists out. split; [exact Hout |]. split; [| exact Hlast].
    rewrite ConvolveFT_run.
    destruct (run h (ConvolveFT_body in_ filter r1 r2 r3)) as [[a | e] t];
      cbn [fst] in Hout |- *; [| discriminate].
    injection Hout as ->. reflexivity. }
  refine ((fun H => conj (proj1 H)
                      (conj (proj1 (proj2 H))
                         (conj (proj1 (proj2 (proj2 H)))
                            (conj (proj2 (proj2 (proj2 H))) Hreturns)))) _).
  clear Hreturns.
  split.
  { rewrite ConvolveFT_run.
    destruct (run h (ConvolveFT_body in_ filter r1 r2 r3)) as [[a | e] t]; reflexivity. }
  unfold ConvolveFT_body, real_expected.
  run_cases h; settle_tests.
  all: destruct (IsReal (dataType in_)); destruct (IsReal (dataType filter));
    cbn [andb String.eqb] in *; try discriminate.
  all: split; [intros out real Hr; try discriminate; injection Hr as <- <-; reflexivity |].
  all: split.
  all: try (intros out real Hr Hsp; try discriminate; try contradiction;
            eexists; cbn; eauto 10; fail).
  all: intros img opts HIn Hinv; cbn [In] in HIn;
    repeat match goal with
           | H : _ \/ _ |- _ => destruct H
           | H : False |- _ => destruct H
           | H : FourierTransform _ _ = FourierTransform _ _ |- _ =>
               injection H as <- <-
           | H : _ = FourierTransform _ _ |- _ => discriminate H
           end;
    cbn [In] in Hinv;
    repeat match goal with
           | H : _ \/ _ |- _ => destruct H
           | H : False |- _ => destruct H
           end;
    try discriminate; split; (assumption || reflexivity).
Qed.

(** ** The size check of ConvolveFT *)

Lemma exceeds_somewhere_cons (x y : Z) (a b : UnsignedArray) :
  exceeds_somewhere (x :: a) (y :: b) <-> y < x \/ exceeds_somewhere a b.
Proof.
  unfold exceeds_somewhere. split.
  - intros [[| d] [u [v [Ha [Hb Hlt]]]]]; cbn [nth_error] in Ha, Hb.
    + left. congruence.
    + right. exists d, u, v. auto.
  - intros [Hlt | [d [u [v [Ha [Hb Hlt]]]]]].
    + exists 0%nat, x, y. auto.
    + exists (S d), u, v. auto.
Qed.

Lemma exceeds_somewhere_nil_r (a : UnsignedArray) : ~ exceeds_somewhere a [].
Proof. intros [[| d] [u [v [_ [Hb _]]]]]; discriminate. Qed.

Lemma exceeds_somewhere_nil_l (b : UnsignedArray) : ~ exceeds_somewhere [] b.
Proof. intros [[| d] [u [v [Ha _]]]]; discriminate. Qed.

Lemma UnsignedArray_le_false_iff (a : UnsignedArray) :
  forall b : UnsignedArray,
    UnsignedArray_le a b = false <->
    List.length a <> List.length b \/ exceeds_somewhere a b.
Proof.
  induction a as [| x a IH]; intros [| y b]; cbn [UnsignedArray_le List.length].
  - split; [discriminate |].
    intros [H | H]; [congruence | now apply exceeds_somewhere_nil_l in H].
  - split; [left; discriminate | reflexivity].
  - split; [left; discriminate | reflexivity].
  - rewrite exceeds_somewhere_cons, andb_false_iff, IH, Z.leb_gt.
    assert (Hs : S (List.length a) <> S (List.length b) <-> List.length a <> List.length b)
      by lia.
    rewrite Hs. tauto.
Qed.

Lemma expanded_filter_length (in_ filter : Image) :
  List.length (sizes (expanded_filter in_ filter)) <> List.length (sizes in_) <->
  (List.length (sizes in_) < List.length (sizes filter))%nat.
Proof.
  unfold expanded_filter, QuickCopy, Dimensionality.
  destruct (Z.ltb_spec (Z.of_nat (List.length (sizes filter)))
              (Z.of_nat (List.length (sizes in_)))) as [Hlt | Hge].
  - cbn [ExpandDimensionality sizes]. rewrite length_app, repeat_length, Nat2Z.id. lia.
  - lia.
Qed.

(** The outcome and the calls of [ConvolveFT], from those of its body. *)
Lemma ConvolveFT_outcome (h : Call -> result Image) (in_ filter : Image)
  (r1 r2 r3 : string) :
  fst (run h (ConvolveFT in_ filter r1 r2 r3))
  = match fst (run h (ConvolveFT_body in_ filter r1 r2 r3)) with
    | Ok a => Ok (fst a)
    | Throw e => Throw e
    end /\
  snd (run h (ConvolveFT in_ filter r1 r2 r3))
  = snd (run h (ConvolveFT_body in_ filter r1 r2 r3)).
Proof.
  rewrite ConvolveFT_run.
  destruct (run h (ConvolveFT_body in_ filter r1 r2 r3)) as [[a | e] t];
    split; reflexivity.
Qed.

(** C9, as amended.  With both images forged and the transform of the
    input (if one is asked for) answered by [inFT]:
    a filter of lower dimensionality gets trailing dimensions of extent 1
    up to the dimensionality of the input;
    the size check fails exactly when the filter has more dimensions than
    the input or the expanded filter is larger than the input in some
    dimension;
    when it fails the run ends with [SIZES_DONT_MATCH] and no call has
    touched the filter;
    when it passes, the next call receives the filter padded to the shape
    of the input: the forward transform of the filter if the filter is
    "spatial", the sample-wise product otherwise; from there on the run
    fails only with the error of a call it made, and it returns when
    every call it makes is answered.
    So, against a handler that never answers [SIZES_DONT_MATCH], the run
    ends with that error exactly when the filter has more dimensions than
    the input or is larger than the input in some dimension. *)
Theorem size_check_then_padding :
  forall (h : Call -> result Image) (in_ filter inFT : Image) (r1 r2 r3 : string),
    IsForged in_ = true ->
    IsForged filter = true ->
    (if (r1 =? "spatial")%string
     then h (FourierTransform in_ []) = Ok inFT
     else inFT = QuickCopy in_) ->
    let fexp := expanded_filter in_ filter in
    let pre := if (r1 =? "spatial")%string then [FourierTransform in_ []] else [] in
    let padded := Pad fexp (sizes in_) in
    let next :=
      if (r2 =? "spatial")%string
      then FourierTransform padded []
      else MultiplySampleWise inFT padded (dataType inFT) in
    (Dimensionality filter < Dimensionality in_ ->
     sizes fexp =
       sizes filter
       ++ repeat 1 (List.length (sizes in_) - List.length (sizes filter))) /\
    (UnsignedArray_le (sizes fexp) (sizes in_) = false <->
     (List.length (sizes in_) < List.length (sizes filter))%nat \/
     exceeds_somewhere (sizes fexp) (sizes in_)) /\
    (UnsignedArray_le (sizes fexp) (sizes in_) = false ->
     run h (ConvolveFT in_ filter r1 r2 r3) = (Throw SIZES_DONT_MATCH, pre)) /\
    (UnsignedArray_le (sizes fexp) (sizes in_) = true ->
     sizes padded = sizes in_ /\
     exists (r : result Image) (rest : list Call),
       run h (ConvolveFT in_ filter r1 r2 r3) = (r, pre ++ next :: rest) /\
       (forall e : Error,
           r = Throw e -> exists c : Call, In c (next :: rest) /\ h c = Throw e) /\
       ((forall c : Call, In c (next :: rest) -> exists img : Image, h c = Ok img) ->
        exists out : Image, r = Ok out)) /\
    ((forall c : Call, h c <> Throw SIZES_DONT_MATCH) ->
     (fst (run h (ConvolveFT in_ filter r1 r2 r3)) = Throw SIZES_DONT_MATCH <->
      (List.length (sizes in_) < List.length (sizes filter))%nat \/
      exceeds_somewhere (sizes fexp) (sizes in_))).
Proof.
  intros h in_ filter inFT r1 r2 r3 Hin Hfilter HinFT fexp pre padded next.
  assert (Hexpand :
    Dimensionality filter < Dimensionality in_ ->
    sizes fexp =
      sizes filter ++ repeat 1 (List.length (sizes in_) - List.length (sizes filter))).
  { intros Hlt. subst fexp. unfold expanded_filter, QuickCopy.
    destruct (Z.ltb_spec (Dimensionality filter) (Dimensionality in_)); [| lia].
    cbn [ExpandDimensionality sizes]. unfold Dimensionality. now rewrite Nat2Z.id. }
  assert (Hcheck :
    UnsignedArray_le (sizes fexp) (sizes in_) = false <->
    (List.length (sizes in_) < List.length (sizes filter))%nat \/
    exceeds_somewhere (sizes fexp) (sizes in_)).
  { rewrite UnsignedArray_le_false_iff. subst fexp.
    rewrite expanded_filter_length. reflexivity. }
  assert (Hfails :
    UnsignedArray_le (sizes fexp) (sizes in_) = false ->
    run h (ConvolveFT in_ filter r1 r2 r3) = (Throw SIZES_DONT_MATCH, pre)).
  { intros Hle. rewrite ConvolveFT_run. unfold ConvolveFT_body, throw_if.
    rewrite Hin, Hfilter. cbn [negb bind].
    fold (expanded_filter in_ filter). fold fexp. rewrite Hle.
    subst pre. destruct (r1 =? "spatial")%string.
    + cbn [bind run negb]. rewrite HinFT. reflexivity.
    + reflexivity. }
  assert (Hpasses :
    UnsignedArray_le (sizes fexp) (sizes in_) = true ->
    exists (r : result Image) (rest : list Call),
      run h (ConvolveFT in_ filter r1 r2 r3) = (r, pre ++ next :: rest)).
  { intros Hle.
    rewrite ConvolveFT_run. unfold ConvolveFT_body, throw_if.
    rewrite Hin, Hfilter. cbn [negb bind].
    fold (expanded_filter in_ filter). fold fexp. rewrite Hle.
    fold padded. subst pre next.
    destruct (r1 =? "spatial")%string; destruct (r2 =? "spatial")%string;
      cbn [bind run negb]; rewrite ?HinFT; subst; unfold QuickCopy;
      run_cases h; eexists; eexists; cbn [app]; reflexivity. }
  assert (Hpre : forall c : Call, In c pre -> h c = Ok inFT).
  { subst pre. intros c Hc. destruct (r1 =? "spatial")%string; [| destruct Hc].
    destruct Hc as [<- | []]. exact HinFT. }
  destruct (ConvolveFT_outcome h in_ filter r1 r2 r3) as [Hfst Hsnd].
  assert (Hcallee :
    UnsignedArray_le (sizes fexp) (sizes in_) = true ->
    forall (r : result Image) (rest : list Call) (e : Error),
      run h (ConvolveFT in_ filter r1 r2 r3) = (r, pre ++ next :: rest) ->
      r = Throw e ->
      exists c : Call, In c (next :: rest) /\ h c = Throw e).
  { intros Hle r rest e Hrun ->.
    rewrite Hrun in Hfst, Hsnd. cbn [fst snd] in Hfst, Hsnd.
    destruct (fst (run h (ConvolveFT_body in_ filter r1 r2 r3))) as [a | e'] eqn:Hbody;
      [discriminate |].
    injection Hfst as ->.
    destruct (ConvolveFT_body_failure h in_ filter r1 r2 r3 e' Hin Hfilter Hle Hbody)
      as [c [pre' [Htrace Hc]]].
    exists c. split; [| exact Hc].
    assert (HIn : In c (pre ++ next :: rest)).
    { rewrite Hsnd, Htrace. apply in_or_app. right. left. reflexivity. }
    apply in_app_or in HIn. destruct HIn as [HIn | HIn]; [| exact HIn].
    rewrite (Hpre c HIn) in Hc. discriminate. }
  split; [exact Hexpand |]. split; [exact Hcheck |]. split; [exact Hfails |].
  split.
  - intros Hle. split; [reflexivity |].
    destruct (Hpasses Hle) as [r [rest Hrun]].
    exists r, rest. split; [exact Hrun |]. split.
    + intros e. apply (Hcallee Hle r rest e Hrun).
    + intros Hans.
      destruct (ConvolveFT_body_progress h in_ filter r1 r2 r3 Hin Hfilter Hle)
        as [out [Hout _]].
      { intros c Hc. rewrite <- Hsnd, Hrun in Hc. cbn [snd] in Hc.
        apply in_app_or in Hc. destruct Hc as [Hc | Hc].
        - exists inFT. apply Hpre, Hc.
        - apply Hans, Hc. }
      exists out. rewrite Hrun, Hout in Hfst. exact Hfst.
  - intros Hnever. rewrite <- Hcheck. split.
    + intros Hthrow.
      destruct (UnsignedArray_le (sizes fexp) (sizes in_)) eqn:Hle; [| reflexivity].
      destruct (Hpasses eq_refl) as [r [rest Hrun]].
      destruct (Hcallee eq_refl r rest SIZES_DONT_MATCH Hrun) as [c [_ Hc]].
      { rewrite Hrun in Hthrow. exact Hthrow. }
      destruct (Hnever c Hc).
    + intros Hle. rewrite (Hfails Hle). reflexivity.
Qed.

(** ** GeneralConvolution with a binary kernel *)

Lemma weighted_taps_binary (imem : Memory) (p : Z) :
  forall (offsets : list Z) (acc : Q),
    exists g : Q,
      weighted_taps imem p offsets (binary_weights offsets) acc = Some g /\
      (g == acc + neighborhood_sum imem p offsets)%Q.
Proof.
  induction offsets as [| o offsets IH]; intros acc; cbn [weighted_taps binary_weights map neighborhood_sum].
  - exists acc. split; [reflexivity | ring].
  - destruct (IH (acc + imem (p + o)%Z * 1)%Q) as [g [Hg Heq]].
    exists g. split; [exact Hg |]. rewrite Heq. ring.
Qed.

Lemma cardinality_nonzero (offsets : list Z) :
  offsets <> [] -> ~ (inject_Z (Z.of_nat (List.length offsets)) == 0)%Q.
Proof.
  intros Hne. destruct offsets as [| o offsets]; [congruence |].
  unfold Qeq, inject_Z. cbn [Qnum Qden List.length]. lia.
Qed.

Lemma uniform_times_cardinality (imem : Memory) (p : Z) (offsets : list Z) :
  offsets <> [] ->
  exists g : Q,
    weighted_taps imem p offsets (binary_weights offsets) 0%Q = Some g /\
    (g == neighborhood_sum imem p offsets)%Q /\
    (inject_Z (Z.of_nat (List.length offsets)) * Uniform_sample imem p offsets == g)%Q.
Proof.
  intros Hne.
  destruct (weighted_taps_binary imem p offsets 0%Q) as [g [Hg Heq]].
  pose proof (cardinality_nonzero offsets Hne) as Hcard.
  exists g. split; [exact Hg |].
  assert (Hsum : (g == neighborhood_sum imem p offsets)%Q) by (rewrite Heq; ring).
  split; [exact Hsum |]. unfold Uniform_sample. rewrite Hsum. field. exact Hcard.
Qed.

(** Two output lines that start out a factor [N] apart, [N] the cardinality
    of the footprint, are still a factor [N] apart after the uniform filter
    has written the one and the weighted sum with unit weights the other. *)
Lemma full_line_loop_scaled (imem : Memory) (offsets : list Z) (s os : Z) :
  offsets <> [] ->
  forall (n : nat) (in_ out : Z) (omu omg : Memory),
    (forall a : Z, (inject_Z (Z.of_nat (List.length offsets)) * omu a == omg a)%Q) ->
    exists mu mg : Memory,
      full_line_loop (fun p => Some (Uniform_sample imem p offsets)) s os n in_ out omu
      = Some mu /\
      full_line_loop (fun p => weighted_taps imem p offsets (binary_weights offsets) 0%Q)
        s os n in_ out omg = Some mg /\
      forall a : Z, (inject_Z (Z.of_nat (List.length offsets)) * mu a == mg a)%Q.
Proof.
  intros Hne. induction n as [| n IH]; intros in_ out omu omg Hom; cbn [full_line_loop].
  - exists omu, omg. auto.
  - destruct (uniform_times_cardinality imem in_ offsets Hne) as [g [Hg [_ Hscaled]]].
    rewrite Hg. apply IH. intros a. unfold store.
    destruct (a =? out); [exact Hscaled | apply Hom].
Qed.

(** C7, as amended.  For a forged input and a forged kernel image of
    binary sample type, [GeneralConvolution] consists of one call of the
    uniform filter with the mirrored kernel; against every handler that is
    the only call made, so the offset-table path ([Framework::Full]) is
    not entered.  At every output sample and for every non-empty
    footprint, the weighted sum of the general line filter with the
    weights of a binary kernel is the unweighted neighbourhood sum, and the
    uniform filter yields that sum divided by the cardinality of the
    footprint.  Line by line: run on output buffers that start a factor of
    the cardinality apart, the uniform filter and the general line filter
    leave buffers a factor of the cardinality apart. *)
Theorem binary_kernel_takes_uniform_filter :
  forall (in_ c_filter : Image) (boundaryCondition : StringArray),
    IsForged in_ = true ->
    IsForged c_filter = true ->
    IsBinary (dataType c_filter) = true ->
    let kernel := Mirror (Kernel_of_image c_filter) in
    GeneralConvolution in_ c_filter boundaryCondition =
      Do (Uniform in_ kernel boundaryCondition) Ret /\
    mirror kernel = true /\
    (forall h : Call -> result Image,
        snd (run h (GeneralConvolution in_ c_filter boundaryCondition)) =
          [Uniform in_ kernel boundaryCondition]) /\
    (forall (imem : Memory) (p : Z) (offsets : list Z),
        offsets <> [] ->
        exists g : Q,
          weighted_taps imem p offsets (binary_weights offsets) 0%Q = Some g /\
          (g == neighborhood_sum imem p offsets)%Q /\
          (Uniform_sample imem p offsets
           == g / inject_Z (Z.of_nat (List.length offsets)))%Q) /\
    (forall (params : FullLineFilterParameters.t) (imem omu omg : Memory),
        let pixelTable := FullLineFilterParameters.pixelTable params in
        let N := inject_Z (Z.of_nat (List.length (PixelTableOffsets.offsets pixelTable))) in
        PixelTableOffsets.offsets pixelTable <> [] ->
        PixelTableOffsets.Weights pixelTable =
          binary_weights (PixelTableOffsets.offsets pixelTable) ->
        (forall a : Z, (N * omu a == omg a)%Q) ->
        exists mu mg : Memory,
          Uniform_Filter params imem omu = Some mu /\
          GeneralConvolutionLineFilter_Filter params imem omg = Some mg /\
          forall a : Z, (N * mu a == mg a)%Q).
Proof.
  intros in_ c_filter boundaryCondition Hin Hfilter Hbin kernel.
  assert (Hprog : GeneralConvolution in_ c_filter boundaryCondition =
                    Do (Uniform in_ kernel boundaryCondition) Ret).
  { unfold GeneralConvolution, throw_if. rewrite Hin, Hfilter, Hbin. reflexivity. }
  split; [exact Hprog |]. split; [reflexivity |]. split; [| split].
  - intros h. rewrite Hprog. cbn [run].
    destruct (h (Uniform in_ kernel boundaryCondition)); reflexivity.
  - intros imem p offsets Hne.
    destruct (uniform_times_cardinality imem p offsets Hne) as [g [Hg [Hsum _]]].
    exists g. split; [exact Hg |]. split; [exact Hsum |].
    unfold Uniform_sample. rewrite Hsum. reflexivity.
  - intros params imem omu omg pixelTable N Hne Hweights Hom.
    unfold Uniform_Filter, GeneralConvolutionLineFilter_Filter.
    fold pixelTable. rewrite Hweights.
    apply full_line_loop_scaled; assumption.
Qed.

(** * Further properties of the code *)

(** ** What the loop over a line writes *)

Lemma line_loop_frame (body : Z -> Q) (s os : Z) :
  forall (n : nat) (in_ out : Z) (omem : Memory) (a : Z),
    (forall ii : nat, (ii < n)%nat -> a <> out + Z.of_nat ii * os) ->
    line_loop body s os n in_ out omem a = omem a.
Proof.
  induction n as [| n IH]; intros in_ out omem a Ha; cbn [line_loop]; [reflexivity |].
  rewrite IH.
  - unfold store. destruct (Z.eqb_spec a out) as [E | _]; [| reflexivity].
    exfalso. apply (Ha 0%nat); [lia |]. rewrite E. cbn. ring.
  - intros ii Hii. specialize (Ha (S ii) ltac:(lia)).
    rewrite Nat2Z.inj_succ in Ha. intros E. apply Ha. rewrite E. ring.
Qed.

Lemma line_loop_written (body : Z -> Q) (s os : Z) :
  os <> 0 ->
  forall (n : nat) (in_ out : Z) (omem : Memory) (ii : nat),
    (ii < n)%nat ->
    line_loop body s os n in_ out omem (out + Z.of_nat ii * os)
    = body (in_ + Z.of_nat ii * s).
Proof.
  intros Hos. induction n as [| n IH]; intros in_ out omem ii Hii; [lia |].
  cbn [line_loop]. destruct ii as [| ii].
  - rewrite line_loop_frame.
    + unfold store. replace (out + Z.of_nat 0 * os) with out by (cbn; ring).
      rewrite Z.eqb_refl. f_equal. cbn. ring.
    + intros k _ E. assert (Hk : (Z.of_nat k + 1) * os = 0) by (cbn in E; lia).
      apply Z.mul_eq_0 in Hk. lia.
  - replace (out + Z.of_nat (S ii) * os) with ((out + os) + Z.of_nat ii * os)
      by (rewrite Nat2Z.inj_succ; ring).
    rewrite IH by lia. f_equal. rewrite Nat2Z.inj_succ. ring.
Qed.

(** Two runs whose bodies agree at the positions the loop visits, on output
    buffers that agree, leave output buffers that agree. *)
Lemma line_loop_agree (b1 b2 : Z -> Q) (s os : Z) :
  forall (n : nat) (in_ out : Z) (om1 om2 : Memory),
    (forall ii : nat, (ii < n)%nat ->
       (b1 (in_ + Z.of_nat ii * s)%Z == b2 (in_ + Z.of_nat ii * s)%Z)%Q) ->
    (forall a : Z, (om1 a == om2 a)%Q) ->
    forall a : Z,
      (line_loop b1 s os n in_ out om1 a == line_loop b2 s os n in_ out om2 a)%Q.
Proof.
  induction n as [| n IH]; intros in_ out om1 om2 Hb Hom a; cbn [line_loop].
  - apply Hom.
  - apply IH.
    + intros ii Hii. specialize (Hb (S ii) ltac:(lia)).
      rewrite Nat2Z.inj_succ in Hb.
      replace (in_ + s + Z.of_nat ii * s) with (in_ + Z.succ (Z.of_nat ii) * s) by ring.
      exact Hb.
    + intros b. unfold store. destruct (b =? out); [| apply Hom].
      specialize (Hb 0%nat ltac:(lia)).
      replace (in_ + Z.of_nat 0 * s) with in_ in Hb by (cbn; ring). exact Hb.
Qed.

Lemma conv_sum_agree (m1 m2 : Memory) (s : Z) :
  forall (l : FloatArray) (p : Z),
    (forall j : nat, (j < List.length l)%nat ->
       (m1 (p - Z.of_nat j * s)%Z == m2 (p - Z.of_nat j * s)%Z)%Q) ->
    (conv_sum m1 s l p == conv_sum m2 s l p)%Q.
Proof.
  induction l as [| c l IH]; intros p H; cbn [conv_sum]; [reflexivity |].
  rewrite IH.
  - specialize (H 0%nat ltac:(cbn; lia)).
    replace (p - Z.of_nat 0 * s) with p in H by (cbn; ring). rewrite H. reflexivity.
  - intros j Hj. specialize (H (S j) ltac:(cbn; lia)).
    rewrite Nat2Z.inj_succ in H.
    replace (p - s - Z.of_nat j * s) with (p - Z.succ (Z.of_nat j) * s) by ring.
    exact H.
Qed.

(** ** The separable line filter as a convolution sum *)

(** A filter with coefficients that passes normalisation has the shape the
    line filter relies on. *)
Lemma ctor_normal_form (flt : FloatArray) (o : Z) (s : string)
  (fd : InternOneDimensionalFilter.t) :
  flt <> [] ->
  Z.of_nat (List.length flt) < max_filter_length ->
  InternOneDimensionalFilter.ctor (OneDimensionalFilter.mk flt o s) = Ok fd ->
  exists (sym : FilterSymmetry) (org : Z),
    recognized s = Some sym /\
    0 <= org < logicalSize sym (Z.of_nat (List.length flt)) /\
    org = (if o <? 0 then logicalSize sym (Z.of_nat (List.length flt)) / 2 else to_uint o) /\
    fd = InternOneDimensionalFilter.mk flt
           (logicalSize sym (Z.of_nat (List.length flt))) org sym.
Proof.
  intros Hne Hlen Hctor.
  assert (Hn : 1 <= Z.of_nat (List.length flt)).
  { destruct flt; [congruence | simpl; lia]. }
  destruct (recognized s) as [sym |] eqn:Hrec.
  - rewrite (ctor_recognized flt o s sym Hne Hlen Hrec) in Hctor. cbv zeta in Hctor.
    pose proof (logicalSize_ge sym _ Hn) as Hge.
    destruct (Z.ltb_spec o 0).
    + injection Hctor as <-. exists sym, (logicalSize sym (Z.of_nat (List.length flt)) / 2).
      split; [reflexivity |]. split; [| split; reflexivity].
      split; [apply Z.div_pos; lia | apply Z.div_lt_upper_bound; lia].
    + destruct (Z.leb_spec (logicalSize sym (Z.of_nat (List.length flt))) (to_uint o));
        [discriminate |].
      injection Hctor as <-. exists sym, (to_uint o).
      split; [reflexivity |]. split; [| split; reflexivity].
      split; [| assumption]. unfold to_uint, uint_modulus. apply Z.mod_pos_bound. lia.
  - rewrite (ctor_unrecognized flt o s Hne Hrec) in Hctor. discriminate.
Qed.

(** The line filter run with a normalised filter writes what the loop over
    the line writes when its body is the convolution sum of the explicit
    full filter, read from [origin] samples to the right of the output
    position. *)
Lemma Filter_as_convolution (sym : FilterSymmetry) (h : FloatArray) (org : Z)
  (params : SeparableLineFilterParameters.t) (imem omem : Memory) :
  h <> [] ->
  Z.of_nat (List.length (full_filter sym h)) < max_filter_length ->
  0 <= org < logicalSize sym (Z.of_nat (List.length h)) ->
  let inb := SeparableLineFilterParameters.inBuffer params in
  let outb := SeparableLineFilterParameters.outBuffer params in
  exists m : Memory,
    Filter [InternOneDimensionalFilter.mk h (logicalSize sym (Z.of_nat (List.length h)))
              org sym] params imem omem = Some m /\
    forall a : Z,
      (m a ==
       line_loop (conv_sum imem (SeparableBuffer.stride inb) (full_filter sym h))
         (SeparableBuffer.stride inb) (SeparableBuffer.stride outb)
         (Z.to_nat (SeparableBuffer.length inb))
         (SeparableBuffer.buffer inb + org * SeparableBuffer.stride inb)
         (SeparableBuffer.buffer outb) omem a)%Q.
Proof.
  intros Hne Hlen Horg inb outb.
  destruct (Filter_full_filter sym h org params imem omem Hne Hlen Horg)
    as [mf [mh [Hf [Hh Heq]]]].
  exists mh. split; [exact Hh |].
  intros a. rewrite <- Heq.
  rewrite Filter_single in Hf. cbv zeta in Hf.
  cbn [InternOneDimensionalFilter.filter InternOneDimensionalFilter.size
       InternOneDimensionalFilter.origin InternOneDimensionalFilter.symmetry] in Hf.
  injection Hf as <-.
  pose proof (full_filter_length sym h Hne) as Hfull.
  assert (Hn : 1 <= Z.of_nat (List.length h)).
  { destruct h; [congruence | simpl; lia]. }
  pose proof (logicalSize_ge sym _ Hn) as Hge.
  unfold max_filter_length in Hlen.
  rewrite to_sint_small by lia.
  fold inb outb.
  replace (SeparableBuffer.buffer inb + org * SeparableBuffer.stride inb)
    with ((SeparableBuffer.buffer inb + org * SeparableBuffer.stride inb) + 0) at 1 by ring.
  apply line_loop_shift; [| reflexivity].
  intros p. replace (p + 0) with p by ring.
  rewrite <- Hfull. apply line_sample_general.
Qed.

Lemma full_filter_length_le (sym : FilterSymmetry) (h : FloatArray) :
  Z.of_nat (List.length (full_filter sym h)) <= 2 * Z.of_nat (List.length h).
Proof.
  assert (Htl : (List.length (tl (rev h)) <= List.length h)%nat).
  { rewrite <- (length_rev h). destruct (rev h); simpl; lia. }
  destruct sym; unfold full_filter;
    rewrite ?length_app, ?length_map, ?length_rev; lia.
Qed.

(** X2: locality.  The line filter reads the input line only from [border]
    samples before its first sample to [border] samples after its last
    one, [border] being the border requirement of the filter: two input
    buffers that agree there give the same output. *)
Theorem Filter_reads_within_border :
  forall (flt : FloatArray) (o : Z) (s : string) (fd : InternOneDimensionalFilter.t)
         (params : SeparableLineFilterParameters.t) (imem1 imem2 omem : Memory),
    flt <> [] ->
    2 * Z.of_nat (List.length flt) < max_filter_length ->
    InternOneDimensionalFilter.ctor (OneDimensionalFilter.mk flt o s) = Ok fd ->
    let inb := SeparableLineFilterParameters.inBuffer params in
    (forall k : Z,
        - border_of fd <= k <= SeparableBuffer.length inb - 1 + border_of fd ->
        (imem1 (SeparableBuffer.buffer inb + k * SeparableBuffer.stride inb)%Z
         == imem2 (SeparableBuffer.buffer inb + k * SeparableBuffer.stride inb)%Z)%Q) ->
    exists m1 m2 : Memory,
      Filter [fd] params imem1 omem = Some m1 /\
      Filter [fd] params imem2 omem = Some m2 /\
      forall a : Z, (m1 a == m2 a)%Q.
Proof.
  intros flt o s fd params imem1 imem2 omem Hne Hlen Hctor inb Hagree.
  destruct (ctor_normal_form flt o s fd Hne ltac:(lia) Hctor)
    as [sym [org [Hrec [Horg [_ ->]]]]].
  pose proof (full_filter_length_le sym flt) as Hle.
  pose proof (full_filter_length sym flt Hne) as Hfull.
  destruct (Filter_as_convolution sym flt org params imem1 omem Hne ltac:(lia) Horg)
    as [m1 [Hm1 Heq1]].
  destruct (Filter_as_convolution sym flt org params imem2 omem Hne ltac:(lia) Horg)
    as [m2 [Hm2 Heq2]].
  exists m1, m2. split; [exact Hm1 |]. split; [exact Hm2 |].
  intros a. rewrite Heq1, Heq2. fold inb.
  assert (Hborder : border_of (InternOneDimensionalFilter.mk flt
                                 (logicalSize sym (Z.of_nat (List.length flt))) org sym)
                    = Z.max org (logicalSize sym (Z.of_nat (List.length flt)) - org - 1)).
  { apply border_of_inside; cbn [InternOneDimensionalFilter.origin
                                 InternOneDimensionalFilter.size];
      [assumption | unfold max_filter_length in Hlen; unfold uint_modulus; lia]. }
  rewrite Hborder in Hagree.
  apply line_loop_agree; [| reflexivity].
  intros ii Hii. apply conv_sum_agree. intros j Hj.
  replace (SeparableBuffer.buffer inb + org * SeparableBuffer.stride inb
           + Z.of_nat ii * SeparableBuffer.stride inb
           - Z.of_nat j * SeparableBuffer.stride inb)
    with (SeparableBuffer.buffer inb
          + (org + Z.of_nat ii - Z.of_nat j) * SeparableBuffer.stride inb) by ring.
  apply Hagree. lia.
Qed.

(** X3: frame.  Whatever the filters are, the line filter leaves every
    address of the output buffer that is not one of the [length] output
    positions as it was. *)
Theorem Filter_writes_only_its_line :
  forall (filter_ : InternOneDimensionalFilterArray)
         (params : SeparableLineFilterParameters.t) (imem omem m : Memory),
    Filter filter_ params imem omem = Some m ->
    let inb := SeparableLineFilterParameters.inBuffer params in
    let outb := SeparableLineFilterParameters.outBuffer params in
    forall a : Z,
      (forall ii : Z,
          0 <= ii < SeparableBuffer.length inb ->
          a <> SeparableBuffer.buffer outb + ii * SeparableBuffer.stride outb) ->
      m a = omem a.
Proof.
  intros filter_ params imem omem m Hm inb outb a Ha.
  unfold Filter in Hm.
  destruct (select_procDim (List.length filter_) params) as [procDim |]; [| discriminate].
  destruct (nth_error filter_ (Z.to_nat procDim)) as [f |]; [| discriminate].
  cbv zeta in Hm. injection Hm as <-.
  apply line_loop_frame. intros ii Hii. apply Ha. fold inb in Hii. lia.
Qed.

(** ** More on normalised filters *)

(** X5: when normalisation succeeds.  For a filter short enough to be held
    in memory and an origin argument in the range of [dip::sint],
    normalisation succeeds exactly when the filter has no coefficients, or
    its symmetry string is recognised and its origin argument is negative
    or smaller than the logical size. *)
Theorem ctor_succeeds_iff :
  forall (flt : FloatArray) (o : Z) (s : string),
    Z.of_nat (List.length flt) < max_filter_length ->
    - 2 ^ 63 <= o < 2 ^ 63 ->
    ((exists fd, InternOneDimensionalFilter.ctor (OneDimensionalFilter.mk flt o s) = Ok fd)
     <->
     flt = [] \/
     exists sym : FilterSymmetry,
       recognized s = Some sym /\
       (o < 0 \/ o < logicalSize sym (Z.of_nat (List.length flt)))).
Proof.
  intros flt o s Hlen Ho. split.
  - intros [fd Hfd]. destruct flt as [| c flt']; [left; reflexivity | right].
    destruct (ctor_normal_form (c :: flt') o s fd ltac:(discriminate) Hlen Hfd)
      as [sym [org [Hrec [Horg [Hdef _]]]]].
    exists sym. split; [exact Hrec |].
    destruct (Z.ltb_spec o 0); [left; assumption | right].
    rewrite to_uint_nonneg in Hdef by lia. lia.
  - intros [-> | [sym [Hrec Hor]]].
    + eexists. apply ctor_empty.
    + destruct flt as [| c flt'].
      * eexists. apply ctor_empty.
      * rewrite (ctor_recognized (c :: flt') o s sym ltac:(discriminate) Hlen Hrec).
        cbv zeta. destruct (Z.ltb_spec o 0); [eexists; reflexivity |].
        rewrite to_uint_nonneg by lia.
        destruct (Z.leb_spec (logicalSize sym (Z.of_nat (List.length (c :: flt')))) o);
          [lia | eexists; reflexivity].
Qed.

(** X6: shape of a normalised filter.  After normalisation of a filter with
    coefficients: the coefficients are kept; the origin lies inside the
    filter; the size counts at least the coefficients and at most twice as
    many; an "even" or "odd" filter has odd size and a "d-even" or "d-odd"
    filter has even size. *)
Theorem normalised_filter_shape :
  forall (flt : FloatArray) (o : Z) (s : string) (fd : InternOneDimensionalFilter.t),
    flt <> [] ->
    Z.of_nat (List.length flt) < max_filter_length ->
    InternOneDimensionalFilter.ctor (OneDimensionalFilter.mk flt o s) = Ok fd ->
    InternOneDimensionalFilter.filter fd = flt /\
    0 <= InternOneDimensionalFilter.origin fd < InternOneDimensionalFilter.size fd /\
    Z.of_nat (List.length flt) <= InternOneDimensionalFilter.size fd
      <= 2 * Z.of_nat (List.length flt) /\
    recognized s = Some (InternOneDimensionalFilter.symmetry fd) /\
    match InternOneDimensionalFilter.symmetry fd with
    | GENERAL => InternOneDimensionalFilter.size fd = Z.of_nat (List.length flt)
    | EVEN | ODD => Z.odd (InternOneDimensionalFilter.size fd) = true
    | D_EVEN | D_ODD => Z.even (InternOneDimensionalFilter.size fd) = true
    end.
Proof.
  intros flt o s fd Hne Hlen Hctor.
  destruct (ctor_normal_form flt o s fd Hne Hlen Hctor)
    as [sym [org [Hrec [Horg [_ ->]]]]].
  cbn [InternOneDimensionalFilter.filter InternOneDimensionalFilter.origin
       InternOneDimensionalFilter.size InternOneDimensionalFilter.symmetry].
  assert (Hn : 1 <= Z.of_nat (List.length flt)).
  { destruct flt; [congruence | simpl; lia]. }
  split; [reflexivity |]. split; [exact Horg |].
  split; [destruct sym; unfold logicalSize; lia |].
  split; [exact Hrec |].
  destruct sym; unfold logicalSize.
  - reflexivity.
  - replace (2 * Z.of_nat (List.length flt) - 1)
      with (1 + 2 * (Z.of_nat (List.length flt) - 1)) by ring.
    rewrite Z.odd_add_mul_2. reflexivity.
  - replace (2 * Z.of_nat (List.length flt) - 1)
      with (1 + 2 * (Z.of_nat (List.length flt) - 1)) by ring.
    rewrite Z.odd_add_mul_2. reflexivity.
  - replace (2 * Z.of_nat (List.length flt)) with (0 + 2 * Z.of_nat (List.length flt)) by ring.
    rewrite Z.even_add_mul_2. reflexivity.
  - replace (2 * Z.of_nat (List.length flt)) with (0 + 2 * Z.of_nat (List.length flt)) by ring.
    rewrite Z.even_add_mul_2. reflexivity.
Qed.

(** X7: default origin.  With a negative origin argument a filter with [n]
    coefficients gets the origin [size / 2]; that is the index [n - 1] of
    the last stored coefficient for "even" and "odd" and [n] for "d-even"
    and "d-odd"; and the border requirement of the filter is [size / 2]. *)
Theorem default_origin_is_centre :
  forall (flt : FloatArray) (o : Z) (s : string) (fd : InternOneDimensionalFilter.t),
    flt <> [] ->
    Z.of_nat (List.length flt) < max_filter_length ->
    o < 0 ->
    InternOneDimensionalFilter.ctor (OneDimensionalFilter.mk flt o s) = Ok fd ->
    InternOneDimensionalFilter.origin fd = InternOneDimensionalFilter.size fd / 2 /\
    border_of fd = InternOneDimensionalFilter.size fd / 2 /\
    match InternOneDimensionalFilter.symmetry fd with
    | GENERAL => True
    | EVEN | ODD => InternOneDimensionalFilter.origin fd = Z.of_nat (List.length flt) - 1
    | D_EVEN | D_ODD => InternOneDimensionalFilter.origin fd = Z.of_nat (List.length flt)
    end.
Proof.
  intros flt o s fd Hne Hlen Hneg Hctor.
  destruct (ctor_normal_form flt o s fd Hne Hlen Hctor)
    as [sym [org [Hrec [Horg [Hdef ->]]]]].
  destruct (Z.ltb_spec o 0); [| lia].
  cbn [InternOneDimensionalFilter.origin InternOneDimensionalFilter.size
       InternOneDimensionalFilter.symmetry].
  set (L := logicalSize sym (Z.of_nat (List.length flt))) in *.
  assert (Hn : 1 <= Z.of_nat (List.length flt)).
  { destruct flt; [congruence | simpl; lia]. }
  assert (HL : 1 <= L < uint_modulus).
  { unfold max_filter_length in Hlen. subst L. unfold uint_modulus.
    destruct sym; unfold logicalSize; lia. }
  assert (Hhalf : 2 * (L / 2) <= L < 2 * (L / 2) + 2).
  { pose proof (Z.div_mod L 2 ltac:(lia)). pose proof (Z.mod_pos_bound L 2 ltac:(lia)). lia. }
  split; [exact Hdef |]. split.
  - rewrite border_of_inside
      by (cbn [InternOneDimensionalFilter.origin InternOneDimensionalFilter.size]; lia).
    cbn [InternOneDimensionalFilter.origin InternOneDimensionalFilter.size]. lia.
  - subst org. subst L. destruct sym; unfold logicalSize in *; try exact I; lia.
Qed.

(** ** Filters of logical size 1 and the choice of the filter *)

(** X8: the elided unit filter is a copy.  A filter that normalises to
    logical size 1 and that [IsMeaninglessFilter] accepts would, if the line
    filter were run with it, copy every sample of the line to the output:
    skipping it changes no value. *)
Theorem meaningless_unit_filter_copies_line :
  forall (flt : FloatArray) (o : Z) (s : string) (fd : InternOneDimensionalFilter.t)
         (params : SeparableLineFilterParameters.t) (imem omem : Memory),
    Z.of_nat (List.length flt) < max_filter_length ->
    InternOneDimensionalFilter.ctor (OneDimensionalFilter.mk flt o s) = Ok fd ->
    InternOneDimensionalFilter.size fd = 1 ->
    IsMeaninglessFilter fd = true ->
    let inb := SeparableLineFilterParameters.inBuffer params in
    let outb := SeparableLineFilterParameters.outBuffer params in
    SeparableBuffer.stride outb <> 0 ->
    exists m : Memory,
      Filter [fd] params imem omem = Some m /\
      forall ii : Z,
        0 <= ii < SeparableBuffer.length inb ->
        (m (SeparableBuffer.buffer outb + ii * SeparableBuffer.stride outb)%Z
         == imem (SeparableBuffer.buffer inb + ii * SeparableBuffer.stride inb)%Z)%Q.
Proof.
  intros flt o s fd params imem omem Hlen Hctor Hsize Hnoop inb outb Hos.
  destruct flt as [| c flt'].
  { rewrite ctor_empty in Hctor. injection Hctor as <-. discriminate Hsize. }
  destruct (ctor_normal_form (c :: flt') o s fd ltac:(discriminate) Hlen Hctor)
    as [sym [org [Hrec [Horg [_ Hfd]]]]].
  subst fd. cbn [InternOneDimensionalFilter.size] in Hsize.
  assert (Hshape : flt' = [] /\ (sym = GENERAL \/ sym = EVEN \/ sym = ODD)).
  { cbn [List.length] in Hsize. rewrite Nat2Z.inj_succ in Hsize.
    destruct sym; unfold logicalSize in Hsize;
      (split; [destruct flt'; [reflexivity | cbn [List.length] in Hsize; lia] | auto 6; lia]). }
  destruct Hshape as [-> Hsym].
  rewrite Hsize in Horg. assert (org = 0) by lia. subst org.
  unfold IsMeaninglessFilter in Hnoop.
  cbn [InternOneDimensionalFilter.size InternOneDimensionalFilter.filter nth] in Hnoop.
  rewrite Hsize in Hnoop. cbn [Z.eqb Pos.eqb orb andb] in Hnoop.
  apply Qeq_bool_iff in Hnoop.
  destruct (Filter_as_convolution sym [c] 0 params imem omem ltac:(discriminate))
    as [m [Hm Heq]].
  { pose proof (full_filter_length_le sym [c]). cbn [List.length] in *.
    unfold max_filter_length. lia. }
  { cbn [List.length] in *. rewrite <- Hsize in *. lia. }
  fold inb outb in Heq.
  exists m. split; [exact Hm |].
  intros ii Hii. rewrite Heq.
  replace ii with (Z.of_nat (Z.to_nat ii)) at 1 by lia.
  rewrite line_loop_written by (assumption || lia).
  rewrite Z2Nat.id by lia.
  assert (Hfull : full_filter sym [c] = [c]).
  { destruct Hsym as [-> | [-> | ->]]; reflexivity. }
  rewrite Hfull. cbn [conv_sum]. rewrite Hnoop.
  replace (SeparableBuffer.buffer inb + 0 * SeparableBuffer.stride inb
           + ii * SeparableBuffer.stride inb)
    with (SeparableBuffer.buffer inb + ii * SeparableBuffer.stride inb) by ring.
  ring.
Qed.

(** X9: one filter per dimension.  When the line filter holds more than one
    filter, a line along dimension [d] is filtered with entry [d] of the
    array, or with entry [d - 1] when the framework has turned the tensor
    axis into a spatial dimension: the outcome is that of the line filter
    holding that entry alone. *)
Theorem Filter_uses_filter_of_dimension :
  forall (filter_ : InternOneDimensionalFilterArray)
         (params : SeparableLineFilterParameters.t) (imem omem : Memory)
         (f : InternOneDimensionalFilter.t),
    (1 < List.length filter_)%nat ->
    let d := if SeparableLineFilterParameters.tensorToSpatial params
             then SeparableLineFilterParameters.dimension params - 1
             else SeparableLineFilterParameters.dimension params in
    0 <= d ->
    nth_error filter_ (Z.to_nat d) = Some f ->
    Filter filter_ params imem omem = Filter [f] params imem omem.
Proof.
  intros filter_ params imem omem f Hlen d Hd Hf.
  rewrite Filter_single. unfold Filter, select_procDim.
  destruct (Z.ltb_spec 1 (Z.of_nat (List.length filter_))) as [_ | H]; [| lia].
  subst d. destruct (SeparableLineFilterParameters.tensorToSpatial params).
  - destruct (Z.ltb_spec 0 (SeparableLineFilterParameters.dimension params)); [| lia].
    rewrite Hf. reflexivity.
  - rewrite Hf. reflexivity.
Qed.

(** ** The line filter of the general convolution *)

Lemma weighted_taps_value (imem : Memory) (p : Z) :
  forall (offsets : list Z) (weights : list Q) (acc : Q),
    (List.length offsets <= List.length weights)%nat ->
    exists g : Q,
      weighted_taps imem p offsets weights acc = Some g /\
      (g == acc + weighted_sum imem p offsets weights)%Q.
Proof.
  induction offsets as [| o offsets IH]; intros weights acc Hlen.
  - exists acc. split; [reflexivity |]. cbn [weighted_sum]. ring.
  - destruct weights as [| w weights]; [cbn in Hlen; lia |].
    cbn [weighted_taps weighted_sum].
    destruct (IH weights (acc + imem (p + o)%Z * w)%Q ltac:(cbn in Hlen; lia)) as [g [Hg Heq]].
    exists g. split; [exact Hg |]. rewrite Heq. ring.
Qed.

Lemma weighted_taps_undefined (imem : Memory) (p : Z) :
  forall (offsets : list Z) (weights : list Q) (acc : Q),
    (List.length weights < List.length offsets)%nat ->
    weighted_taps imem p offsets weights acc = None.
Proof.
  induction offsets as [| o offsets IH]; intros weights acc Hlen; [cbn in Hlen; lia |].
  destruct weights as [| w weights]; [reflexivity |].
  cbn [weighted_taps]. apply IH. cbn in Hlen. lia.
Qed.

Lemma full_line_loop_value (body : Z -> option Q) (f : Z -> Q) (s os : Z)
  (Hbody : forall p : Z, exists g : Q, body p = Some g /\ (g == f p)%Q) :
  forall (n : nat) (in_ out : Z) (om1 om2 : Memory),
    (forall a : Z, (om1 a == om2 a)%Q) ->
    exists m : Memory,
      full_line_loop body s os n in_ out om1 = Some m /\
      forall a : Z, (m a == line_loop f s os n in_ out om2 a)%Q.
Proof.
  induction n as [| n IH]; intros in_ out om1 om2 Hom; cbn [full_line_loop line_loop].
  - exists om1. split; [reflexivity | exact Hom].
  - destruct (Hbody in_) as [g [Hg Heq]]. rewrite Hg.
    apply IH. intros a. unfold store. destruct (a =? out); [exact Heq | apply Hom].
Qed.


Lemma general_line_filter_defined_inv (params : FullLineFilterParameters.t)
  (imem omem m : Memory) :
  GeneralConvolutionLineFilter_Filter params imem omem = Some m ->
  FullLineFilterParameters.bufferLength params <= 0 \/
  (List.length (PixelTableOffsets.offsets (FullLineFilterParameters.pixelTable params))
   <= List.length (PixelTableOffsets.Weights (FullLineFilterParameters.pixelTable params)))%nat.
Proof.
  unfold GeneralConvolutionLineFilter_Filter. cbv zeta. intros Hm.
  destruct (Z_le_gt_dec (FullLineFilterParameters.bufferLength params) 0) as [H0 | Hpos];
    [left; exact H0 | right].
  set (pt := FullLineFilterParameters.pixelTable params) in *.
  destruct (Nat.le_gt_cases (List.length (PixelTableOffsets.offsets pt))
              (List.length (PixelTableOffsets.Weights pt))) as [Hle | Hgt];
    [exact Hle | exfalso].
  destruct (Z.to_nat (FullLineFilterParameters.bufferLength params)) as [| n] eqn:En; [lia |].
  cbn [full_line_loop] in Hm.
  rewrite weighted_taps_undefined in Hm by exact Hgt. discriminate.
Qed.

Lemma general_line_filter_value (params : FullLineFilterParameters.t)
  (imem omem : Memory) :
  let inb := FullLineFilterParameters.inBuffer params in
  let outb := FullLineFilterParameters.outBuffer params in
  let pt := FullLineFilterParameters.pixelTable params in
  (List.length (PixelTableOffsets.offsets pt)
   <= List.length (PixelTableOffsets.Weights pt))%nat ->
  exists m : Memory,
    GeneralConvolutionLineFilter_Filter params imem omem = Some m /\
    forall a : Z,
      (m a ==
       line_loop
         (fun p => weighted_sum imem p (PixelTableOffsets.offsets pt)
                     (PixelTableOffsets.Weights pt))
         (FullBuffer.stride inb) (FullBuffer.stride outb)
         (Z.to_nat (FullLineFilterParameters.bufferLength params))
         (FullBuffer.buffer inb) (FullBuffer.buffer outb) omem a)%Q.
Proof.
  intros inb outb pt Hle.
  unfold GeneralConvolutionLineFilter_Filter. cbv zeta. fold inb outb pt.
  apply full_line_loop_value; [| intros a; reflexivity].
  intros p. destruct (weighted_taps_value imem p _ _ 0%Q Hle) as [g [Hg Heq]].
  exists g. split; [exact Hg |]. rewrite Heq. ring.
Qed.

(** X10: when the general line filter is defined.  The line filter of the
    general convolution runs through without reading past the end of the
    weights exactly when the line is empty or the pixel table has at least
    as many weights as offsets. *)
Theorem general_line_filter_defined_iff :
  forall (params : FullLineFilterParameters.t) (imem omem : Memory),
    let pixelTable := FullLineFilterParameters.pixelTable params in
    (exists m : Memory, GeneralConvolutionLineFilter_Filter params imem omem = Some m)
    <->
    FullLineFilterParameters.bufferLength params <= 0 \/
    (List.length (PixelTableOffsets.offsets pixelTable)
     <= List.length (PixelTableOffsets.Weights pixelTable))%nat.
Proof.
  intros params imem omem pixelTable. split.
  - intros [m Hm]. exact (general_line_filter_defined_inv params imem omem m Hm).
  - intros [H0 | Hle].
    + unfold GeneralConvolutionLineFilter_Filter. cbv zeta.
      replace (Z.to_nat (FullLineFilterParameters.bufferLength params)) with 0%nat by lia.
      eexists. reflexivity.
    + destruct (general_line_filter_value params imem omem Hle) as [m [Hm _]].
      exists m. exact Hm.
Qed.


(** ** SeparableConvolution: validation and what is handed to the engine *)

Lemma map_result_first_error {A B : Type} (f : A -> result B) :
  forall (pre : list A) (x : A) (post : list A) (e : Error),
    (forall y, In y pre -> exists b, f y = Ok b) ->
    f x = Throw e ->
    map_result f (pre ++ x :: post) = Throw e.
Proof.
  induction pre as [| y pre IH]; intros x post e Hpre Hx; cbn [app map_result].
  - rewrite Hx. reflexivity.
  - destruct (Hpre y (or_introl eq_refl)) as [b Hb]. rewrite Hb. cbn [bind_result].
    rewrite (IH x post e); [reflexivity | | exact Hx].
    intros z Hz. apply Hpre. right. exact Hz.
Qed.

Lemma map_result_nth {A B : Type} (f : A -> result B) (d : B) :
  forall (xs : list A) (ys : list B) (j : nat) (x : A),
    map_result f xs = Ok ys ->
    nth_error xs j = Some x ->
    f x = Ok (nth j ys d).
Proof.
  induction xs as [| x0 xs IH]; intros ys j x Hmap Hj.
  - destruct j; discriminate.
  - cbn [map_result] in Hmap.
    destruct (f x0) as [y0 |] eqn:E0; [| discriminate]. cbn [bind_result] in Hmap.
    destruct (map_result f xs) as [ys' |] eqn:E; [| discriminate]. cbn [bind_result] in Hmap.
    injection Hmap as <-.
    destruct j as [| j].
    + cbn in Hj. injection Hj as <-. exact E0.
    + cbn in Hj. cbn [nth]. apply (IH ys' j x eq_refl Hj).
Qed.

Lemma fill_as_repeat {A : Type} (l : list A) (v : A) :
  fill l v = repeat v (List.length l).
Proof.
  unfold fill. induction l as [| x l IH]; cbn [map List.length repeat]; [reflexivity |].
  now rewrite IH.
Qed.

Lemma nth_repeat_Z (v : Z) (n ii : nat) : (ii < n)%nat -> nth ii (repeat v n) 0 = v.
Proof.
  revert ii. induction n as [| n IH]; intros [| ii] H; cbn [repeat nth]; try lia.
  apply IH. lia.
Qed.

Lemma nth_repeat_false (n ii : nat) : nth ii (repeat false n) false = false.
Proof. revert ii. induction n as [| n IH]; intros [| ii]; cbn; auto. Qed.

(** Every call a run of [SeparableConvolution] makes is the one call of the
    engine described by [SeparableConvolution_inv]. *)
Lemma SeparableConvolution_trace (h : Call -> result Image) (in_ : Image)
  (filterArray : list OneDimensionalFilter.t) (boundaryCondition : StringArray)
  (process : BooleanArray) (c : Call) :
  In c (snd (run h (SeparableConvolution in_ filterArray boundaryCondition process))) ->
  exists (filterData : InternOneDimensionalFilterArray) (bc : BoundaryConditionArray)
         (process0 : BooleanArray),
    map_result InternOneDimensionalFilter.ctor filterArray = Ok filterData /\
    StringArrayToBoundaryConditionArray boundaryCondition = Ok bc /\
    (List.length filterArray = 1%nat \/
     List.length filterArray = List.length (sizes in_)) /\
    List.length process0 = List.length (sizes in_) /\
    process0 = match process with [] => repeat true (List.length (sizes in_)) | _ => process end /\
    c = Framework_Separable in_ (SuggestFlex (dataType in_)) (SuggestFlex (dataType in_))
          (restrict_process in_ filterData (Dimensionality in_) process0)
          (make_border filterData (Dimensionality in_)) bc filterData.
Proof.
  intros HIn.
  destruct (SeparableConvolution_inv in_ filterArray boundaryCondition process)
    as [[e He] | [fd [bc [p0 [Hfd [Hbc [Hcount [Hp0 [Hp0' Hsc]]]]]]]]].
  - rewrite He in HIn. cbn in HIn. contradiction.
  - exists fd, bc, p0. repeat (split; [assumption |]).
    rewrite Hsc in HIn. cbn [run] in HIn.
    destruct (h _); cbn in HIn; destruct HIn as [<- | []]; reflexivity.
Qed.

(** X13: validation order.  [SeparableConvolution] checks, in this order:
    that the input is forged; that it has at least one dimension; that
    there is one filter or one per dimension; that every filter
    normalises (the error of the first filter that fails is the one
    reported); that a given [process] array has one entry per dimension;
    that the boundary-condition strings translate.  A failed check ends the
    run with its error before any call is made. *)
Theorem SeparableConvolution_validation_order :
  forall (h : Call -> result Image) (in_ : Image)
         (filterArray : list OneDimensionalFilter.t)
         (boundaryCondition : StringArray) (process : BooleanArray),
    let r := run h (SeparableConvolution in_ filterArray boundaryCondition process) in
    let n := Dimensionality in_ in
    let count_ok := Z.of_nat (List.length filterArray) = 1
                    \/ Z.of_nat (List.length filterArray) = n in
    (IsForged in_ = false -> r = (Throw IMAGE_NOT_FORGED, [])) /\
    (IsForged in_ = true -> n < 1 -> r = (Throw DIMENSIONALITY_NOT_SUPPORTED, [])) /\
    (IsForged in_ = true -> 1 <= n -> ~ count_ok -> r = (Throw ARRAY_ILLEGAL_SIZE, [])) /\
    (IsForged in_ = true -> 1 <= n -> count_ok ->
     forall (pre : list OneDimensionalFilter.t) (x : OneDimensionalFilter.t)
            (post : list OneDimensionalFilter.t) (e : Error),
       filterArray = pre ++ x :: post ->
       (forall y, In y pre -> exists fd, InternOneDimensionalFilter.ctor y = Ok fd) ->
       InternOneDimensionalFilter.ctor x = Throw e ->
       r = (Throw e, [])) /\
    (IsForged in_ = true -> 1 <= n -> count_ok ->
     forall fd, map_result InternOneDimensionalFilter.ctor filterArray = Ok fd ->
     process <> [] -> Z.of_nat (List.length process) <> n ->
     r = (Throw ARRAY_PARAMETER_WRONG_LENGTH, [])) /\
    (IsForged in_ = true -> 1 <= n -> count_ok ->
     forall fd, map_result InternOneDimensionalFilter.ctor filterArray = Ok fd ->
     process = [] \/ Z.of_nat (List.length process) = n ->
     forall e, StringArrayToBoundaryConditionArray boundaryCondition = Throw e ->
     r = (Throw e, [])).
Proof.
  intros h in_ filterArray boundaryCondition process r n count_ok.
  subst r. unfold SeparableConvolution, throw_if. fold n.
  assert (Hcount : count_ok ->
            (negb (Z.of_nat (List.length filterArray) =? 1)
             && negb (Z.of_nat (List.length filterArray) =? n))%bool = false).
  { intros [H1 | Hn].
    - rewrite H1. reflexivity.
    - rewrite Hn, Z.eqb_refl. cbn [negb]. apply andb_false_r. }
  repeat split.
  - intros Hf. rewrite Hf. reflexivity.
  - intros Hf Hn. rewrite Hf. cbn [negb bind].
    destruct (Z.ltb_spec n 1); [reflexivity | lia].
  - intros Hf Hn Hc. rewrite Hf. cbn [negb bind].
    destruct (Z.ltb_spec n 1); [lia |]. cbn [bind].
    destruct (Z.eqb_spec (Z.of_nat (List.length filterArray)) 1) as [E1 | _];
      [exfalso; apply Hc; left; exact E1 |].
    destruct (Z.eqb_spec (Z.of_nat (List.length filterArray)) n) as [En | _];
      [exfalso; apply Hc; right; exact En |].
    reflexivity.
  - intros Hf Hn Hc pre x post e -> Hpre Hx. rewrite Hf. cbn [negb bind].
    destruct (Z.ltb_spec n 1); [lia |]. cbn [bind].
    rewrite (Hcount Hc). cbn [bind].
    rewrite (map_result_first_error _ pre x post e Hpre Hx). reflexivity.
  - intros Hf Hn Hc fd Hfd Hne Hlen. rewrite Hf. cbn [negb bind].
    destruct (Z.ltb_spec n 1); [lia |]. cbn [bind].
    rewrite (Hcount Hc). cbn [bind]. rewrite Hfd. cbn [lift bind].
    destruct process as [| p ps]; [congruence |].
    destruct (Z.eqb_spec (Z.of_nat (List.length (p :: ps))) n); [contradiction |].
    reflexivity.
  - intros Hf Hn Hc fd Hfd Hproc e Hbc. rewrite Hf. cbn [negb bind].
    destruct (Z.ltb_spec n 1); [lia |]. cbn [bind].
    rewrite (Hcount Hc). cbn [bind]. rewrite Hfd. cbn [lift bind].
    destruct process as [| p ps]; cbn [bind].
    + rewrite Hbc. reflexivity.
    + destruct Hproc as [Hnil | Hlen]; [discriminate |].
      rewrite Hlen, Z.eqb_refl. cbn [negb bind]. rewrite Hbc. reflexivity.
Qed.

(** X14: the process array handed to the engine.  In every call of the
    engine the [process] array has one entry per dimension.  With one
    filter it is all false when the filter is a no-op and otherwise the
    caller's array (all true when none was given).  With one filter per
    dimension, a dimension is processed exactly when the caller asked for
    it, its filter is not a no-op and the image has more than one sample
    along it.  In no case is a dimension processed that the caller had
    switched off. *)
Theorem dispatched_process_array :
  forall (h : Call -> result Image) (in_ : Image)
         (filterArray : list OneDimensionalFilter.t)
         (boundaryCondition : StringArray) (process : BooleanArray) (c : Call),
    In c (snd (run h (SeparableConvolution in_ filterArray boundaryCondition process))) ->
    let n := List.length (sizes in_) in
    let process0 := match process with [] => repeat true n | _ => process end in
    exists (t1 t2 : DataType) (p : BooleanArray) (b : UnsignedArray)
           (bc : BoundaryConditionArray) (fd : InternOneDimensionalFilterArray),
      c = Framework_Separable in_ t1 t2 p b bc fd /\
      map_result InternOneDimensionalFilter.ctor filterArray = Ok fd /\
      List.length p = n /\
      (List.length filterArray = 1%nat ->
       p = if IsMeaninglessFilter (nth 0 fd absent_filter)
           then repeat false n else process0) /\
      (List.length filterArray <> 1%nat ->
       forall ii : nat, (ii < n)%nat ->
         nth ii p false =
           (nth ii process0 false
            && negb (IsMeaninglessFilter (nth ii fd absent_filter))
            && (1 <? Size in_ ii))%bool) /\
      (forall ii : nat, nth ii p false = true -> nth ii process0 false = true).
Proof.
  intros h in_ filterArray boundaryCondition process c HIn n process0.
  destruct (SeparableConvolution_trace h in_ filterArray boundaryCondition process c HIn)
    as [fd [bc [p0 [Hfd [Hbc [Hcount [Hp0 [Hp0' ->]]]]]]]].
  fold n in Hp0, Hp0', Hcount. fold process0 in Hp0'. subst p0.
  pose proof (map_result_length _ _ _ Hfd) as Hlenfd.
  do 6 eexists. split; [reflexivity |]. split; [exact Hfd |].
  assert (Hlen : List.length (restrict_process in_ fd (Dimensionality in_) process0) = n).
  { unfold restrict_process. destruct (Z.of_nat (List.length fd) =? 1).
    - destruct (IsMeaninglessFilter _); [unfold fill; rewrite length_map |]; exact Hp0.
    - rewrite (assign_loop_length
                 (fun ii => (IsMeaninglessFilter (nth ii fd absent_filter)
                             || (Size in_ ii <=? 1))%bool) (fun _ => false)).
      exact Hp0. }
  split; [exact Hlen |].
  assert (Hone : List.length filterArray = 1%nat ->
            restrict_process in_ fd (Dimensionality in_) process0 =
              if IsMeaninglessFilter (nth 0 fd absent_filter)
              then repeat false n else process0).
  { intros H1. unfold restrict_process. rewrite Hlenfd, H1.
    cbn [Z.of_nat Pos.of_succ_nat Z.eqb Pos.eqb].
    destruct (IsMeaninglessFilter _); [| reflexivity].
    rewrite fill_as_repeat. f_equal. exact Hp0. }
  assert (Hmany : List.length filterArray <> 1%nat ->
            forall ii : nat, (ii < n)%nat ->
              nth ii (restrict_process in_ fd (Dimensionality in_) process0) false =
                (nth ii process0 false
                 && negb (IsMeaninglessFilter (nth ii fd absent_filter))
                 && (1 <? Size in_ ii))%bool).
  { intros Hn1 ii Hii.
    rewrite restrict_process_per_dimension by (try exact Hp0; try exact Hii; lia).
    destruct (nth ii process0 false);
      destruct (IsMeaninglessFilter (nth ii fd absent_filter));
      destruct (Z.leb_spec (Size in_ ii) 1), (Z.ltb_spec 1 (Size in_ ii));
      try lia; reflexivity. }
  split; [exact Hone |]. split; [exact Hmany |].
  intros ii Htrue.
  change (nth ii (restrict_process in_ fd (Dimensionality in_) process0) false = true)
    in Htrue.
  destruct (Nat.eq_dec (List.length filterArray) 1) as [H1 | Hn1].
  - rewrite (Hone H1) in Htrue.
    destruct (IsMeaninglessFilter _); [| exact Htrue].
    rewrite nth_repeat_false in Htrue. discriminate.
  - destruct (Nat.lt_ge_cases ii n) as [Hii | Hii].
    + rewrite (Hmany Hn1 ii Hii) in Htrue.
      apply andb_true_iff in Htrue. destruct Htrue as [Htrue _].
      apply andb_true_iff in Htrue. tauto.
    + rewrite nth_overflow in Htrue by lia. discriminate.
Qed.

(** X15: the border array handed to the engine.  In every call of the engine
    the [border] array has one entry per dimension, and the entry of a
    dimension whose filter has coefficients is
    [max(origin, size - origin - 1)] of the normalised filter, the
    subtraction taken over the integers; the filter of a dimension is the
    one filter given, or the filter at the index of the dimension. *)
Theorem dispatched_border_array :
  forall (h : Call -> result Image) (in_ : Image)
         (filterArray : list OneDimensionalFilter.t)
         (boundaryCondition : StringArray) (process : BooleanArray) (c : Call),
    In c (snd (run h (SeparableConvolution in_ filterArray boundaryCondition process))) ->
    let n := List.length (sizes in_) in
    exists (t1 t2 : DataType) (p : BooleanArray) (b : UnsignedArray)
           (bc : BoundaryConditionArray) (fd : InternOneDimensionalFilterArray),
      c = Framework_Separable in_ t1 t2 p b bc fd /\
      List.length b = n /\
      List.length fd = List.length filterArray /\
      forall (ii : nat) (spec : OneDimensionalFilter.t),
        (ii < n)%nat ->
        nth_error filterArray (if (List.length filterArray =? 1)%nat then 0%nat else ii)
        = Some spec ->
        OneDimensionalFilter.filter spec <> [] ->
        Z.of_nat (List.length (OneDimensionalFilter.filter spec)) < max_filter_length ->
        exists f : InternOneDimensionalFilter.t,
          InternOneDimensionalFilter.ctor spec = Ok f /\
          nth ii b 0 =
            Z.max (InternOneDimensionalFilter.origin f)
              (InternOneDimensionalFilter.size f - InternOneDimensionalFilter.origin f - 1).
Proof.
  intros h in_ filterArray boundaryCondition process c HIn n.
  destruct (SeparableConvolution_trace h in_ filterArray boundaryCondition process c HIn)
    as [fd [bc [p0 [Hfd [Hbc [Hcount [Hp0 [Hp0' ->]]]]]]]].
  pose proof (map_result_length _ _ _ Hfd) as Hlenfd.
  do 6 eexists. split; [reflexivity |].
  assert (Hnat : Z.to_nat (Dimensionality in_) = n)
    by (unfold Dimensionality; apply Nat2Z.id).
  split; [| split; [exact Hlenfd |]].
  - unfold make_border. rewrite Hnat.
    destruct (Z.of_nat (List.length fd) =? 1).
    + unfold fill. rewrite length_map. apply repeat_length.
    + rewrite (assign_loop_length (fun _ => true)
                 (fun ii => border_of (nth ii fd absent_filter))).
      apply repeat_length.
  - intros ii spec Hii Hspec Hne Hlen.
    destruct spec as [flt o s]. cbn [OneDimensionalFilter.filter] in Hne, Hlen.
    destruct (Nat.eqb_spec (List.length filterArray) 1) as [H1 | Hn1].
    + pose proof (map_result_nth _ absent_filter _ _ _ _ Hfd Hspec) as Hf.
      exists (nth 0 fd absent_filter). split; [exact Hf |].
      destruct fd as [| f [| g fd']]; cbn [List.length] in Hlenfd; try lia.
      rewrite make_border_broadcast, Hnat. cbn [nth] in Hf |- *.
      rewrite nth_repeat_Z by exact Hii.
      apply (border_of_normalised flt o s f Hne Hlen Hf).
    + pose proof (map_result_nth _ absent_filter _ _ _ _ Hfd Hspec) as Hf.
      exists (nth ii fd absent_filter). split; [exact Hf |].
      rewrite make_border_per_dimension by lia.
      apply (border_of_normalised flt o s _ Hne Hlen Hf).
Qed.

(** ** ConvolveFT and GeneralConvolution: errors and calls *)

(** X16: the calls of a successful ConvolveFT.  A run of [ConvolveFT] that
    returns an image has made, in this order: the forward transform of the
    input if the input is "spatial"; the forward transform of the padded
    filter if the filter is "spatial"; the sample-wise product of the two
    results, in the sample type of the first; the inverse transform of the
    product if the output is "spatial".  An operand that is not "spatial"
    enters the product as it is (the filter padded), and a product that is
    not transformed back is the result. *)
Theorem ConvolveFT_calls_on_success :
  forall (h : Call -> result Image) (in_ filter out : Image) (r1 r2 r3 : string),
    fst (run h (ConvolveFT in_ filter r1 r2 r3)) = Ok out ->
    let padded := Pad (expanded_filter in_ filter) (sizes in_) in
    let options :=
      "inverse"%string
      :: (if real_expected in_ filter r1 r2 then ["real"%string] else []) in
    IsForged in_ = true /\
    IsForged filter = true /\
    UnsignedArray_le (sizes (expanded_filter in_ filter)) (sizes in_) = true /\
    exists inFT filterFT product : Image,
      (if (r1 =? "spatial")%string
       then h (FourierTransform in_ []) = Ok inFT else inFT = in_) /\
      (if (r2 =? "spatial")%string
       then h (FourierTransform padded []) = Ok filterFT else filterFT = padded) /\
      h (MultiplySampleWise inFT filterFT (dataType inFT)) = Ok product /\
      (if (r3 =? "spatial")%string
       then h (FourierTransform product options) = Ok out else out = product) /\
      snd (run h (ConvolveFT in_ filter r1 r2 r3)) =
        (if (r1 =? "spatial")%string then [FourierTransform in_ []] else [])
        ++ (if (r2 =? "spatial")%string then [FourierTransform padded []] else [])
        ++ [MultiplySampleWise inFT filterFT (dataType inFT)]
        ++ (if (r3 =? "spatial")%string then [FourierTransform product options] else []).
Proof.
  intros h in_ filter out r1 r2 r3 Hok padded options.
  subst padded options. revert Hok.
  rewrite ConvolveFT_run. unfold ConvolveFT_body, real_expected, expanded_filter.
  run_cases h; intros Hok; try discriminate; injection Hok as <-;
    unfold QuickCopy in *; cbn [dataType sizes Pad ExpandDimensionality] in *;
    destruct (IsReal (dataType in_)); destruct (IsReal (dataType filter));
    cbn [andb] in *; try discriminate;
    repeat match goal with
           | H : negb ?b = false |- _ => apply negb_false_iff in H
           end;
    repeat match goal with
           | H : (_ =? "spatial")%string = _ |- _ => rewrite ?H
           | H : (_ <? _) = _ |- _ => rewrite ?H
           end;
    (split; [assumption |]); (split; [assumption |]); (split; [assumption |]);
    do 3 eexists;
    repeat match goal with
           | |- _ /\ _ => split
           end;
    try eassumption; try reflexivity;
    cbn [app];
    repeat match goal with
           | H : (?a && ?b)%bool = _ |- context [(?a && ?b)%bool] => rewrite H
           | H : IsReal ?t = _ |- context [IsReal ?t] => rewrite H
           end;
    cbn [andb];
    try eassumption; try reflexivity.
Qed.

(** X17: unforged operands.  [ConvolveFT] refuses an input or a filter that
    is not forged with [IMAGE_NOT_FORGED] before it calls anything: no
    transform is made, whatever the representation strings and the sizes
    are. *)
Theorem ConvolveFT_requires_forged_operands :
  forall (h : Call -> result Image) (in_ filter : Image) (r1 r2 r3 : string),
    IsForged in_ = false \/ IsForged filter = false ->
    run h (ConvolveFT in_ filter r1 r2 r3) = (Throw IMAGE_NOT_FORGED, []).
Proof.
  intros h in_ filter r1 r2 r3 Hnot.
  rewrite ConvolveFT_run. unfold ConvolveFT_body, throw_if.
  destruct (IsForged in_); cbn [negb bind run]; [| reflexivity].
  destruct Hnot as [H | H]; [discriminate |]. rewrite H. reflexivity.
Qed.


(** ** The line filters in the arithmetic of the sample type *)

Lemma TPI_line_loop_frame {T : Type} (body : Z -> T) (s os : Z) :
  forall (n : nat) (in_ out : Z) (omem : TPI.Memory) (a : Z),
    (forall ii : nat, (ii < n)%nat -> a <> out + Z.of_nat ii * os) ->
    TPI.line_loop body s os n in_ out omem a = omem a.
Proof.
  induction n as [| n IH]; intros in_ out omem a Ha; cbn [TPI.line_loop]; [reflexivity |].
  rewrite IH.
  - unfold TPI.store. destruct (Z.eqb_spec a out) as [E | _]; [| reflexivity].
    exfalso. apply (Ha 0%nat); [lia |]. rewrite E. cbn. ring.
  - intros ii Hii. specialize (Ha (S ii) ltac:(lia)).
    rewrite Nat2Z.inj_succ in Ha. intros E. apply Ha. rewrite E. ring.
Qed.

Lemma TPI_line_loop_written {T : Type} (body : Z -> T) (s os : Z) :
  os <> 0 ->
  forall (n : nat) (in_ out : Z) (omem : TPI.Memory) (ii : nat),
    (ii < n)%nat ->
    TPI.line_loop body s os n in_ out omem (out + Z.of_nat ii * os)
    = body (in_ + Z.of_nat ii * s).
Proof.
  intros Hos. induction n as [| n IH]; intros in_ out omem ii Hii; [lia |].
  cbn [TPI.line_loop]. destruct ii as [| ii].
  - rewrite TPI_line_loop_frame.
    + unfold TPI.store. replace (out + Z.of_nat 0 * os) with out by (cbn; ring).
      rewrite Z.eqb_refl. f_equal. cbn. ring.
    + intros k _ E. assert (Hk : (Z.of_nat k + 1) * os = 0) by (cbn in E; lia).
      apply Z.mul_eq_0 in Hk. lia.
  - replace (out + Z.of_nat (S ii) * os) with ((out + os) + Z.of_nat ii * os)
      by (rewrite Nat2Z.inj_succ; ring).
    rewrite IH by lia. f_equal. rewrite Nat2Z.inj_succ. ring.
Qed.

(** The terms of a loop, added to [sum] one after the other. *)
Lemma general_taps_in_order {T : Type} (A : SampleArith.t T) (imem : TPI.Memory)
  (flt : FloatArray) (s : Z) :
  forall (n jj : nat) (p : Z) (sum : T),
    TPI.general_taps A imem flt s n jj p sum
    = fold_left (SampleArith.add A)
        (map (fun k : nat =>
                SampleArith.mul A (SampleArith.cast A (nth (jj + k) flt 0%Q))
                  (imem (p - Z.of_nat k * s)))
             (seq 0 n))
        sum.
Proof.
  induction n as [| n IH]; intros jj p sum; [reflexivity |].
  cbn [TPI.general_taps seq map fold_left]. rewrite IH.
  rewrite <- seq_shift, map_map.
  replace (p - Z.of_nat 0 * s) with p by (cbn; ring).
  rewrite Nat.add_0_r. f_equal. apply map_ext. intros k.
  rewrite Nat2Z.inj_succ. f_equal; [f_equal; f_equal; lia | f_equal; ring].
Qed.

Lemma paired_taps_in_order {T : Type} (A : SampleArith.t T) (pair : T -> T -> T)
  (imem : TPI.Memory) (flt : FloatArray) (s : Z) :
  forall (jj : nat) (l r : Z) (sum : T),
    TPI.paired_taps A pair imem flt s jj l r sum
    = fold_left (SampleArith.add A)
        (map (fun k : nat =>
                SampleArith.mul A (SampleArith.cast A (nth (jj - 1 - k) flt 0%Q))
                  (pair (imem (r + Z.of_nat k * s)) (imem (l - Z.of_nat k * s))))
             (seq 0 jj))
        sum.
Proof.
  induction jj as [| j IH]; intros l r sum; [reflexivity |].
  cbn [TPI.paired_taps seq map fold_left]. rewrite IH.
  rewrite <- seq_shift, map_map.
  replace (r + Z.of_nat 0 * s) with r by (cbn; ring).
  replace (l - Z.of_nat 0 * s) with l by (cbn; ring).
  replace (S j - 1 - 0)%nat with j by lia.
  f_equal. apply map_ext. intros k.
  rewrite Nat2Z.inj_succ.
  f_equal; [f_equal; f_equal; lia | f_equal; f_equal; ring].
Qed.

(** X1: values written.  In every sample arithmetic, a filter with [n]
    coefficients that passes normalisation makes the separable line filter
    write at output position [ii] (output stride not zero) the terms below,
    added one after the other in this order; [x k] is the input sample [k]
    places to the right of position [ii], [c j] the coefficient [j] cast
    to the sample type, and [d = origin - (n - 1)].
    - "general": from [0], the terms [c jj * x (origin - jj)] for
      [jj = 0 .. n-1];
    - "even" and "odd": from [c (n-1) * x d], the terms
      [c (n-2-k) * (x (d+1+k) +/- x (d-1-k))] for [k = 0 .. n-2];
    - "d-even" and "d-odd": from [0], the terms
      [c (n-1-k) * (x (d+k) +/- x (d-1-k))] for [k = 0 .. n-1].
    The two samples of a pair are combined before the multiplication. *)
Theorem Filter_accumulates_taps :
  forall (T : Type) (A : SampleArith.t T) (flt : FloatArray) (o : Z) (s : string)
         (fd : InternOneDimensionalFilter.t)
         (params : SeparableLineFilterParameters.t) (imem omem : TPI.Memory),
    flt <> [] ->
    Z.of_nat (List.length flt) < max_filter_length ->
    InternOneDimensionalFilter.ctor (OneDimensionalFilter.mk flt o s) = Ok fd ->
    let inb := SeparableLineFilterParameters.inBuffer params in
    let outb := SeparableLineFilterParameters.outBuffer params in
    SeparableBuffer.stride outb <> 0 ->
    exists m : TPI.Memory,
      TPI.Filter A [fd] params imem omem = Some m /\
      forall ii : Z,
        0 <= ii < SeparableBuffer.length inb ->
        let x := fun k : Z =>
          imem (SeparableBuffer.buffer inb + (ii + k) * SeparableBuffer.stride inb) in
        let c := fun j : nat => SampleArith.cast A (nth j flt 0%Q) in
        let n := List.length flt in
        let origin := InternOneDimensionalFilter.origin fd in
        let d := origin - (Z.of_nat n - 1) in
        let paired := fun (pair : T -> T -> T) (first : Z) (count : nat) (init : T) =>
          fold_left (SampleArith.add A)
            (map (fun k : nat =>
                    SampleArith.mul A (c (count - 1 - k)%nat)
                      (pair (x (first + Z.of_nat k)) (x (d - 1 - Z.of_nat k))))
                 (seq 0 count))
            init in
        m (SeparableBuffer.buffer outb + ii * SeparableBuffer.stride outb)
        = match InternOneDimensionalFilter.symmetry fd with
          | GENERAL =>
              fold_left (SampleArith.add A)
                (map (fun jj : nat => SampleArith.mul A (c jj) (x (origin - Z.of_nat jj)))
                     (seq 0 n))
                (SampleArith.zero A)
          | EVEN =>
              paired (SampleArith.add A) (d + 1) (n - 1)%nat
                (SampleArith.mul A (c (n - 1)%nat) (x d))
          | ODD =>
              paired (SampleArith.sub A) (d + 1) (n - 1)%nat
                (SampleArith.mul A (c (n - 1)%nat) (x d))
          | D_EVEN => paired (SampleArith.add A) d n (SampleArith.zero A)
          | D_ODD => paired (SampleArith.sub A) d n (SampleArith.zero A)
          end.
Proof.
  intros T A flt o s fd params imem omem Hne Hlen Hctor inb outb Hos.
  destruct (ctor_normal_form flt o s fd Hne Hlen Hctor)
    as [sym [org [Hrec [Horg [_ ->]]]]].
  eexists. split; [reflexivity |].
  intros ii Hii x c n origin d paired.
  cbn [InternOneDimensionalFilter.filter InternOneDimensionalFilter.size
       InternOneDimensionalFilter.origin InternOneDimensionalFilter.symmetry] in *.
  fold inb outb. fold n.
  assert (Hn : 1 <= Z.of_nat n).
  { subst n. destruct flt; [congruence | cbn [List.length]; lia]. }
  unfold max_filter_length in Hlen. fold n in Hlen, Horg.
  assert (Hfsh : wrap (Z.of_nat n - 1) = Z.of_nat n - 1)
    by (apply wrap_small; unfold uint_modulus; lia).
  assert (Hfsh1 : wrap (Z.of_nat n - 1 + 1) = Z.of_nat n).
  { rewrite wrap_small by (unfold uint_modulus; lia). lia. }
  assert (Hsize : logicalSize sym (Z.of_nat n) <= 2 * Z.of_nat n)
    by (destruct sym; unfold logicalSize; lia).
  assert (Hshift : to_sint (wrap (org - (Z.of_nat n - 1))) = org - (Z.of_nat n - 1))
    by (apply to_sint_wrap; lia).
  assert (Hcast : to_sint org = org) by (apply to_sint_small; lia).
  rewrite Hfsh, ?Hfsh1, Hshift, Hcast.
  replace ii with (Z.of_nat (Z.to_nat ii)) at 1 by lia.
  assert (Hlt : (Z.to_nat ii < Z.to_nat (SeparableBuffer.length inb))%nat) by lia.
  subst origin. fold d.
  destruct sym; rewrite TPI_line_loop_written by assumption;
    rewrite Z2Nat.id by lia; unfold TPI.line_sample; cbv zeta.
  - rewrite general_taps_in_order. cbn [logicalSize].
    rewrite Nat2Z.id. f_equal. apply map_ext. intros k. cbn [Nat.add].
    subst x c. cbv beta. do 2 f_equal. ring.
  - rewrite paired_taps_in_order.
    replace (Z.to_nat (Z.of_nat n - 1)) with (n - 1)%nat by lia.
    subst paired x c. cbv beta. f_equal.
    + apply map_ext. intros k. do 2 f_equal; f_equal; ring.
    + do 2 f_equal. ring.
  - rewrite paired_taps_in_order.
    replace (Z.to_nat (Z.of_nat n - 1)) with (n - 1)%nat by lia.
    subst paired x c. cbv beta. f_equal.
    + apply map_ext. intros k. do 2 f_equal; f_equal; ring.
    + do 2 f_equal. ring.
  - rewrite paired_taps_in_order. rewrite Nat2Z.id.
    subst paired x c. cbv beta. f_equal.
    apply map_ext. intros k. do 2 f_equal; f_equal; ring.
  - rewrite paired_taps_in_order. rewrite Nat2Z.id.
    subst paired x c. cbv beta. f_equal.
    apply map_ext. intros k. do 2 f_equal; f_equal; ring.
Qed.

(** ** The two line filters on a filter given in full *)





End Engine.

Arguments mkImage {DataType Pixels} forged sizes dataType pixels.
Arguments pixels {DataType Pixels} i.
Arguments sizes {DataType Pixels} i.
Arguments dataType {DataType Pixels} i.
Arguments IsForged {DataType Pixels} img.
Arguments Dimensionality {DataType Pixels} img.
Arguments Size {DataType Pixels} img ii.
Arguments Kernel_of_image {DataType Pixels} img.
Arguments Mirror {DataType Pixels} k.
Arguments mirror {DataType Pixels} k.
Arguments Framework_Separable {DataType Pixels}.
Arguments Framework_Full {DataType Pixels}.
Arguments Uniform {DataType Pixels}.
Arguments FourierTransform {DataType Pixels}.
Arguments MultiplySampleWise {DataType Pixels}.
Arguments Ret {DataType Pixels A} a.
Arguments Raise {DataType Pixels A} e.
Arguments Do {DataType Pixels A} c k.
Arguments run {DataType Pixels A} h p.
Arguments with_Separable_engine {DataType Pixels} line_pass ext c.
Arguments SeparableConvolution {DataType Pixels} SuggestFlex in_ filterArray
  boundaryCondition process.
Arguments GeneralConvolution {DataType Pixels} IsBinary SuggestFlex in_ c_filter
  boundaryCondition.
Arguments ConvolveFT {DataType Pixels} IsReal pad_pixels in_ filter
  inRepresentation filterRepresentation outRepresentation.
Arguments ConvolveFT_body {DataType Pixels} IsReal pad_pixels in_ filter
  inRepresentation filterRepresentation outRepresentation.
Arguments expanded_filter {DataType Pixels} in_ filter.
Arguments Pad {DataType Pixels} pad_pixels img newSizes.
Arguments size_mismatch_iff_extent_exceeds {DataType Pixels} IsReal pad_pixels h
  in_ filter r1 r2 r3.

(** * Worked instances

    A small instance of the sample type interface and of the pixel store,
    on which the drivers run to a value. *)

Inductive SampleType : Type :=
| DT_BIN
| DT_UINT16
| DT_SFLOAT
| DT_DFLOAT
| DT_DCOMPLEX.

Definition SampleType_IsReal (t : SampleType) : bool :=
  match t with
  | DT_UINT16 | DT_SFLOAT | DT_DFLOAT => true
  | DT_BIN | DT_DCOMPLEX => false
  end.

Definition SampleType_IsBinary (t : SampleType) : bool :=
  match t with
  | DT_BIN => true
  | _ => false
  end.

Definition SampleType_SuggestFlex (t : SampleType) : SampleType :=
  match t with
  | DT_BIN | DT_UINT16 | DT_SFLOAT => DT_SFLOAT
  | DT_DFLOAT => DT_DFLOAT
  | DT_DCOMPLEX => DT_DCOMPLEX
  end.

(** Samples of a one-dimensional image, padded with zeros at the end. *)
Definition pad_line (oldSizes newSizes : UnsignedArray) (px : list Q) : list Q :=
  px ++ repeat 0%Q (Z.to_nat (hd 0 newSizes) - List.length px).

(** A handler that answers every call with the first image it was given. *)
Definition echo (c : Call SampleType (list Q)) : result (Image SampleType (list Q)) :=
  match c with
  | Framework_Separable in_ _ _ _ _ _ _ => Ok in_
  | Framework_Full in_ _ _ _ _ _ _ => Ok in_
  | Uniform in_ _ _ => Ok in_
  | FourierTransform in_ _ => Ok in_
  | MultiplySampleWise lhs _ _ => Ok lhs
  end.

(** A per-dimension pass that negates every sample: when it runs, the
    image changes. *)
Definition negating_pass
  (lineFilter : SeparableLineFilterParameters.t -> Memory -> Memory -> option Memory)
  (img : Image SampleType (list Q)) (d : nat) (border : Z) (bc : BoundaryCondition)
  : Image SampleType (list Q) :=
  mkImage (IsForged img) (sizes img) (dataType img) (map Qopp (pixels img)).

Definition ramp : Memory := fun p => inject_Z p.

Definition zeros : Memory := fun _ => 0%Q.

Definition ones : Memory := fun _ => 1%Q.

Definition line_of_three : SeparableLineFilterParameters.t :=
  SeparableLineFilterParameters.mk
    (SeparableBuffer.mk 0 3 1) (SeparableBuffer.mk 0 3 1) 0 false.

Definition image_5 : Image SampleType (list Q) :=
  mkImage true [5] DT_UINT16 [1%Q; 2%Q; 3%Q; 4%Q; 5%Q].

Definition filter_3 : Image SampleType (list Q) :=
  mkImage true [3] DT_DFLOAT [1%Q; 2%Q; 1%Q].

Definition filter_2x1 : Image SampleType (list Q) :=
  mkImage true [2; 1] DT_DFLOAT [1%Q; 1%Q].

Definition binary_kernel_3 : Image SampleType (list Q) :=
  mkImage true [3] DT_BIN [1%Q; 1%Q; 1%Q].

(** [2^1023] as a [dfloat]. *)
Definition two_1023 : spec_float := binary_normalize 53 1024 1 1023 false.

(** A line of [dfloat] samples: [2^1023] at positions 0 and 2, zero
    elsewhere. *)
Definition peaks : Z -> spec_float :=
  fun p => if ((p =? 0) || (p =? 2))%bool then two_1023 else S754_zero false.

(** A line of [sfloat] samples: [2^24], [-2^24], [1] at positions 0, 1, 2. *)
Definition near_2_24 : Z -> spec_float :=
  fun p =>
    if p =? 0 then binary_normalize 24 128 16777216 0 false
    else if p =? 1 then binary_normalize 24 128 (-16777216) 0 false
    else if p =? 2 then binary_normalize 24 128 1 0 false
    else S754_zero false.

Definition float_zeros : Z -> spec_float := fun _ => S754_zero false.

(** ** Further instances *)

(** The ramp, cut to zero more than one sample outside the line of three. *)
Definition ramp_near_line : Memory :=
  fun p => if ((p <? -1) || (3 <? p))%bool then 0%Q else inject_Z p.

(** The second line of a two-dimensional image, laid out like [line_of_three]. *)
Definition line_of_dimension_1 : SeparableLineFilterParameters.t :=
  SeparableLineFilterParameters.mk
    (SeparableBuffer.mk 0 3 1) (SeparableBuffer.mk 0 3 1) 1 false.


Definition even_1_2 : InternOneDimensionalFilter.t :=
  InternOneDimensionalFilter.mk [1%Q; 2%Q] 3 1 EVEN.

Definition unit_filter : InternOneDimensionalFilter.t :=
  InternOneDimensionalFilter.mk [1%Q] 1 0 EVEN.

Definition unforged_image : Image SampleType (list Q) :=
  mkImage false [5] DT_UINT16 [].


(** The filter [1/4; 1/2; 1/4], as a half-filter under "even" and in full. *)
Definition even_quarter_half : InternOneDimensionalFilter.t :=
  InternOneDimensionalFilter.mk [1 # 4; 1 # 2]%Q 3 1 EVEN.


(** ** The line filter on a ramp *)

(** The half-filter [1; 2] under "even" stands for [1; 2; 1]; on the line
    [x p = p] the output sample at 1 is [x 2 + 2 * x 1 + x 0 = 4]. *)
Example even_filter_on_ramp :
  exists m : Memory,
    Filter [InternOneDimensionalFilter.mk [1%Q; 2%Q] 3 1 EVEN] line_of_three ramp zeros
    = Some m /\ (m 1%Z == 4)%Q /\ (m 2%Z == 8)%Q.
Proof. eexists. split; [reflexivity |]. split; reflexivity. Qed.

(** [GENERAL] walks the input backwards: the first coefficient meets the
    sample to the right of the output position. *)
Example general_filter_is_convolution :
  exists m : Memory,
    Filter [InternOneDimensionalFilter.mk [1%Q; 0%Q; 0%Q] 3 1 GENERAL] line_of_three ramp zeros
    = Some m /\ (m 0%Z == 1)%Q /\ (m 1%Z == 2)%Q /\ (m 2%Z == 3)%Q.
Proof. eexists. split; [reflexivity |]. repeat split; reflexivity. Qed.

(** ** The line filter in floating point *)

(** The two outputs behind [symmetric_differs_from_full_in_binary64]. *)
Example even_filter_overflows :
  exists mh mf : Z -> spec_float,
    TPI.Filter binary64 [InternOneDimensionalFilter.mk [1 # 4; 1 # 2]%Q 3 1 EVEN]
      line_of_three peaks float_zeros = Some mh /\
    TPI.Filter binary64 [InternOneDimensionalFilter.mk [1 # 4; 1 # 2; 1 # 4]%Q 3 1 GENERAL]
      line_of_three peaks float_zeros = Some mf /\
    mh 1 = S754_infinity false /\
    mf 1 = binary_normalize 53 1024 1 1022 false.
Proof. do 2 eexists. repeat split; vm_compute; reflexivity. Qed.

(** Rounding alone: [sfloat] samples [2^24], [-2^24], [1], filtered with
    [1; 1; 1].  Under "even" the sum [1 + 2^24] rounds to [2^24] and the
    output sample is 0; under "general" it is 1. *)
Example even_filter_rounds :
  exists mh mf : Z -> spec_float,
    TPI.Filter binary32 [InternOneDimensionalFilter.mk [1%Q; 1%Q] 3 1 EVEN]
      line_of_three near_2_24 float_zeros = Some mh /\
    TPI.Filter binary32 [InternOneDimensionalFilter.mk [1%Q; 1%Q; 1%Q] 3 1 GENERAL]
      line_of_three near_2_24 float_zeros = Some mf /\
    mh 1 = S754_zero false /\
    mf 1 = binary_normalize 24 128 1 0 false.
Proof. do 2 eexists. repeat split; vm_compute; reflexivity. Qed.

(** ** Instances of the theorems with hypotheses *)


Lemma real_flag_tracks_spatial_real_operands_witness :
  exists (out prod : Image SampleType (list Q)) (pre : list (Call SampleType (list Q))),
    fst (run echo (ConvolveFT SampleType_IsReal pad_line image_5 filter_3
                     "spatial" "spatial" "spatial")) = Ok out /\
    snd (run echo (ConvolveFT_body SampleType_IsReal pad_line image_5 filter_3
                     "spatial" "spatial" "spatial"))
    = pre ++ [FourierTransform prod ["inverse"%string; "real"%string]] /\
    echo (FourierTransform prod ["inverse"%string; "real"%string]) = Ok out.
Proof.
  destruct (real_flag_tracks_spatial_real_operands SampleType (list Q) SampleType_IsReal
              pad_line echo image_5 filter_3 "spatial" "spatial" "spatial")
    as [_ [_ [_ [_ Hreturns]]]].
  destruct Hreturns as [out [_ [Hout Hlast]]].
  - reflexivity.
  - reflexivity.
  - reflexivity.
  - intros c _. destruct c; eexists; reflexivity.
  - destruct (Hlast eq_refl) as [prod [pre [Htrace Hanswer]]].
    exists out, prod, pre. split; [exact Hout |]. split; [exact Htrace | exact Hanswer].
Defined.

Lemma noop_filters_leave_image_unchanged_witness :
  map_result InternOneDimensionalFilter.ctor [OneDimensionalFilter.mk [1%Q] (-1) "even"]
  = Ok [InternOneDimensionalFilter.mk [1%Q] 1 0 EVEN] /\
  Forall is_noop [InternOneDimensionalFilter.mk [1%Q] 1 0 EVEN] /\
  exists out : Image SampleType (list Q),
    fst (run (with_Separable_engine negating_pass echo)
           (SeparableConvolution SampleType_SuggestFlex image_5
              [OneDimensionalFilter.mk [1%Q] (-1) "even"] ["periodic"%string] [true]))
    = Ok out /\
    pixels out = pixels image_5.
Proof.
  assert (Hnoop : Forall is_noop [InternOneDimensionalFilter.mk [1%Q] 1 0 EVEN]).
  { constructor; [| constructor]. right. split; reflexivity. }
  split; [reflexivity |]. split; [exact Hnoop |].
  destruct (noop_filters_leave_image_unchanged SampleType (list Q)
              SampleType_SuggestFlex negating_pass echo image_5
              [OneDimensionalFilter.mk [1%Q] (-1) "even"] ["periodic"%string] [true]
              [InternOneDimensionalFilter.mk [1%Q] 1 0 EVEN] eq_refl Hnoop)
    as [_ [Hsame Hreturns]].
  destruct Hreturns as [out Hout].
  - reflexivity.
  - cbn. lia.
  - left. reflexivity.
  - right. reflexivity.
  - eexists. reflexivity.
  - exists out. split; [exact Hout |]. apply (Hsame out Hout).
Defined.

Lemma unrecognized_symmetry_fails_unless_empty_witness :
  recognized "foo" = None /\
  InternOneDimensionalFilter.ctor (OneDimensionalFilter.mk [1%Q] (-1) "foo")
  = Throw (RunTimeError "Symmetry string not recognized: foo").
Proof.
  split; [reflexivity |].
  apply (unrecognized_symmetry_fails_unless_empty
           (OneDimensionalFilter.mk [1%Q] (-1) "foo") eq_refl).
  discriminate.
Defined.

Lemma origin_default_and_validation_witness :
  [1%Q; 2%Q; 3%Q] <> [] /\
  Z.of_nat (List.length [1%Q; 2%Q; 3%Q]) < max_filter_length /\
  recognized "even" = Some EVEN /\
  - 2 ^ 63 <= 1 < 2 ^ 63 /\
  InternOneDimensionalFilter.ctor (OneDimensionalFilter.mk [1%Q; 2%Q; 3%Q] 1 "even")
  = Ok (InternOneDimensionalFilter.mk [1%Q; 2%Q; 3%Q] 5 1 EVEN).
Proof.
  assert (Hne : [1%Q; 2%Q; 3%Q] <> []) by discriminate.
  assert (Hlen : Z.of_nat (List.length [1%Q; 2%Q; 3%Q]) < max_filter_length) by reflexivity.
  assert (Ho : - 2 ^ 63 <= 1 < 2 ^ 63) by (split; [discriminate | reflexivity]).
  split; [exact Hne |]. split; [exact Hlen |]. split; [reflexivity |]. split; [exact Ho |].
  apply (origin_default_and_validation [1%Q; 2%Q; 3%Q] 1 "even" EVEN Hne Hlen eq_refl Ho).
  - discriminate.
  - reflexivity.
Defined.

Lemma binary_kernel_takes_uniform_filter_witness :
  IsForged image_5 = true /\
  IsForged binary_kernel_3 = true /\
  SampleType_IsBinary (dataType binary_kernel_3) = true /\
  GeneralConvolution SampleType_IsBinary SampleType_SuggestFlex image_5 binary_kernel_3
    ["periodic"%string]
  = Do (Uniform image_5 (Mirror (Kernel_of_image binary_kernel_3)) ["periodic"%string]) Ret.
Proof.
  split; [reflexivity |]. split; [reflexivity |]. split; [reflexivity |].
  apply (binary_kernel_takes_uniform_filter SampleType (list Q) SampleType_IsBinary
           SampleType_SuggestFlex image_5 binary_kernel_3 ["periodic"%string]
           eq_refl eq_refl eq_refl).
Defined.

Lemma size_check_then_padding_witness :
  IsForged image_5 = true /\
  IsForged filter_3 = true /\
  sizes (Pad pad_line (expanded_filter image_5 filter_3) (sizes image_5)) = [5] /\
  exists (out : Image SampleType (list Q)) (rest : list (Call SampleType (list Q))),
    run echo (ConvolveFT SampleType_IsReal pad_line image_5 filter_3
                "frequency" "spatial" "spatial")
    = (Ok out,
       FourierTransform
         (Pad pad_line (expanded_filter image_5 filter_3) (sizes image_5)) []
       :: rest).
Proof.
  split; [reflexivity |]. split; [reflexivity |].
  destruct (size_check_then_padding SampleType (list Q) SampleType_IsReal pad_line echo
              image_5 filter_3 image_5 "frequency" "spatial" "spatial"
              eq_refl eq_refl eq_refl)
    as [_ [_ [_ [Hpasses _]]]].
  destruct (Hpasses eq_refl) as [Hsizes [r [rest [Hrun [_ Hreturns]]]]].
  split; [exact Hsizes |].
  destruct Hreturns as [out ->].
  - intros c _. destruct c; eexists; reflexivity.
  - exists out, rest. exact Hrun.
Defined.

(** ** Inputs at which a statement fails *)


(** An unknown symmetry string on a filter without coefficients: the
    normaliser succeeds. *)
Lemma unrecognized_symmetry_on_empty_filter :
  ~ unrecognized_symmetry_fails (OneDimensionalFilter.mk [] (-1) "foo").
Proof. intros H. specialize (H eq_refl). discriminate H. Qed.

(** A footprint of two samples on a constant line of ones: the weighted
    sum is 2, the uniform filter yields 1. *)
Lemma uniform_differs_from_weighted :
  ~ uniform_equals_weighted ones 0 [0; 1].
Proof. intros H. specialize (H _ eq_refl). vm_compute in H. discriminate H. Qed.

(** A 2 x 1 filter on an image of 5 samples: the filter has more
    dimensions than the image, the size check fails, and yet in the one
    dimension both have the filter is the smaller. *)
Lemma size_mismatch_without_larger_extent :
  ~ size_mismatch_iff_extent_exceeds SampleType_IsReal pad_line echo image_5 filter_2x1
      "frequency" "frequency" "frequency".
Proof.
  intros [H _]. specialize (H eq_refl).
  destruct H as [d [x [y [Ha [Hb Hlt]]]]].
  destruct d as [| [| d]]; cbn in Ha, Hb.
  - injection Ha as <-. injection Hb as <-. lia.
  - discriminate Hb.
  - destruct d; discriminate Hb.
Qed.

(** ** Instances of the further properties *)

Lemma Filter_reads_within_border_witness :
  border_of even_1_2 = 1 /\
  (ramp 5%Z == 5)%Q /\ (ramp_near_line 5%Z == 0)%Q /\
  exists m1 m2 : Memory,
    Filter [even_1_2] line_of_three ramp zeros = Some m1 /\
    Filter [even_1_2] line_of_three ramp_near_line zeros = Some m2 /\
    forall a : Z, (m1 a == m2 a)%Q.
Proof.
  split; [reflexivity |]. split; [reflexivity |]. split; [reflexivity |].
  apply (Filter_reads_within_border [1%Q; 2%Q] (-1) "even" even_1_2 line_of_three
           ramp ramp_near_line zeros).
  - discriminate.
  - reflexivity.
  - reflexivity.
  - intros k Hk. change (border_of even_1_2) with 1 in Hk.
    cbn [SeparableLineFilterParameters.inBuffer line_of_three SeparableBuffer.length
         SeparableBuffer.buffer SeparableBuffer.stride] in *.
    unfold ramp, ramp_near_line.
    destruct (Z.ltb_spec (0 + k * 1) (-1)); [lia |].
    destruct (Z.ltb_spec 3 (0 + k * 1)); [lia |].
    reflexivity.
Defined.

Lemma Filter_writes_only_its_line_witness :
  exists m : Memory,
    Filter [even_1_2] line_of_three ramp ones = Some m /\
    (forall ii : Z, 0 <= ii < 3 -> 7 <> 0 + ii * 1) /\
    m 7 = ones 7.
Proof.
  assert (Hm : exists m : Memory, Filter [even_1_2] line_of_three ramp ones = Some m)
    by (eexists; reflexivity).
  destruct Hm as [m Hm].
  assert (Hout : forall ii : Z, 0 <= ii < 3 -> 7 <> 0 + ii * 1) by (intros ii Hii; lia).
  exists m. split; [exact Hm |]. split; [exact Hout |].
  apply (Filter_writes_only_its_line [even_1_2] line_of_three ramp ones m Hm 7 Hout).
Defined.

Lemma ctor_succeeds_iff_witness :
  Z.of_nat (List.length [1%Q; 2%Q; 3%Q]) < max_filter_length /\
  - 2 ^ 63 <= 5 < 2 ^ 63 /\
  ((exists fd, InternOneDimensionalFilter.ctor
                 (OneDimensionalFilter.mk [1%Q; 2%Q; 3%Q] 5 "even") = Ok fd)
   <->
   [1%Q; 2%Q; 3%Q] = [] \/
   exists sym : FilterSymmetry,
     recognized "even" = Some sym /\
     (5 < 0 \/ 5 < logicalSize sym (Z.of_nat (List.length [1%Q; 2%Q; 3%Q])))).
Proof.
  assert (Hlen : Z.of_nat (List.length [1%Q; 2%Q; 3%Q]) < max_filter_length) by reflexivity.
  assert (Ho : - 2 ^ 63 <= 5 < 2 ^ 63) by (split; [discriminate | reflexivity]).
  split; [exact Hlen |]. split; [exact Ho |].
  apply (ctor_succeeds_iff [1%Q; 2%Q; 3%Q] 5 "even" Hlen Ho).
Defined.

Lemma normalised_filter_shape_witness :
  [1%Q; 2%Q] <> [] /\
  Z.of_nat (List.length [1%Q; 2%Q]) < max_filter_length /\
  InternOneDimensionalFilter.ctor (OneDimensionalFilter.mk [1%Q; 2%Q] (-1) "even")
  = Ok even_1_2 /\
  InternOneDimensionalFilter.filter even_1_2 = [1%Q; 2%Q] /\
  0 <= InternOneDimensionalFilter.origin even_1_2 < InternOneDimensionalFilter.size even_1_2 /\
  Z.of_nat (List.length [1%Q; 2%Q]) <= InternOneDimensionalFilter.size even_1_2
    <= 2 * Z.of_nat (List.length [1%Q; 2%Q]) /\
  recognized "even" = Some EVEN /\
  Z.odd (InternOneDimensionalFilter.size even_1_2) = true.
Proof.
  assert (Hne : [1%Q; 2%Q] <> []) by discriminate.
  assert (Hlen : Z.of_nat (List.length [1%Q; 2%Q]) < max_filter_length) by reflexivity.
  split; [exact Hne |]. split; [exact Hlen |]. split; [reflexivity |].
  apply (normalised_filter_shape [1%Q; 2%Q] (-1) "even" even_1_2 Hne Hlen eq_refl).
Defined.

Lemma default_origin_is_centre_witness :
  [1%Q; 2%Q] <> [] /\
  Z.of_nat (List.length [1%Q; 2%Q]) < max_filter_length /\
  -1 < 0 /\
  InternOneDimensionalFilter.ctor (OneDimensionalFilter.mk [1%Q; 2%Q] (-1) "even")
  = Ok even_1_2 /\
  InternOneDimensionalFilter.origin even_1_2 = InternOneDimensionalFilter.size even_1_2 / 2 /\
  border_of even_1_2 = InternOneDimensionalFilter.size even_1_2 / 2 /\
  InternOneDimensionalFilter.origin even_1_2 = Z.of_nat (List.length [1%Q; 2%Q]) - 1.
Proof.
  assert (Hne : [1%Q; 2%Q] <> []) by discriminate.
  assert (Hlen : Z.of_nat (List.length [1%Q; 2%Q]) < max_filter_length) by reflexivity.
  assert (Hneg : -1 < 0) by reflexivity.
  split; [exact Hne |]. split; [exact Hlen |]. split; [exact Hneg |].
  split; [reflexivity |].
  apply (default_origin_is_centre [1%Q; 2%Q] (-1) "even" even_1_2 Hne Hlen Hneg eq_refl).
Defined.

Lemma meaningless_unit_filter_copies_line_witness :
  InternOneDimensionalFilter.ctor (OneDimensionalFilter.mk [1%Q] (-1) "even")
  = Ok unit_filter /\
  InternOneDimensionalFilter.size unit_filter = 1 /\
  IsMeaninglessFilter unit_filter = true /\
  exists m : Memory,
    Filter [unit_filter] line_of_three ramp zeros = Some m /\
    forall ii : Z, 0 <= ii < 3 -> (m (0 + ii * 1)%Z == ramp (0 + ii * 1)%Z)%Q.
Proof.
  split; [reflexivity |]. split; [reflexivity |]. split; [reflexivity |].
  apply (meaningless_unit_filter_copies_line [1%Q] (-1) "even" unit_filter line_of_three
           ramp zeros).
  - reflexivity.
  - reflexivity.
  - reflexivity.
  - reflexivity.
  - discriminate.
Defined.

Lemma Filter_uses_filter_of_dimension_witness :
  (1 < List.length [unit_filter; even_1_2])%nat /\
  nth_error [unit_filter; even_1_2] (Z.to_nat 1) = Some even_1_2 /\
  Filter [unit_filter; even_1_2] line_of_dimension_1 ramp zeros
  = Filter [even_1_2] line_of_dimension_1 ramp zeros.
Proof.
  assert (Hlen : (1 < List.length [unit_filter; even_1_2])%nat) by (cbn; lia).
  split; [exact Hlen |]. split; [reflexivity |].
  apply (Filter_uses_filter_of_dimension [unit_filter; even_1_2] line_of_dimension_1
           ramp zeros even_1_2 Hlen).
  - discriminate.
  - reflexivity.
Defined.


Lemma dispatched_process_array_witness :
  exists c : Call SampleType (list Q),
    In c (snd (run echo
                 (SeparableConvolution SampleType_SuggestFlex image_5
                    [OneDimensionalFilter.mk [1%Q; 2%Q] (-1) "even"]
                    ["periodic"%string] []))) /\
    exists (t1 t2 : SampleType) (p : BooleanArray) (b : UnsignedArray)
           (bc : BoundaryConditionArray) (fd : InternOneDimensionalFilterArray),
      c = Framework_Separable image_5 t1 t2 p b bc fd /\
      map_result InternOneDimensionalFilter.ctor
        [OneDimensionalFilter.mk [1%Q; 2%Q] (-1) "even"] = Ok fd /\
      List.length p = 1%nat /\
      (1%nat = 1%nat ->
       p = if IsMeaninglessFilter (nth 0 fd absent_filter)
           then repeat false 1 else repeat true 1) /\
      (1%nat <> 1%nat ->
       forall ii : nat, (ii < 1)%nat ->
         nth ii p false =
           (nth ii (repeat true 1) false
            && negb (IsMeaninglessFilter (nth ii fd absent_filter))
            && (1 <? Size image_5 ii))%bool) /\
      (forall ii : nat, nth ii p false = true -> nth ii (repeat true 1) false = true).
Proof.
  eexists. split; [left; reflexivity |].
  apply (dispatched_process_array SampleType (list Q) SampleType_SuggestFlex echo image_5
           [OneDimensionalFilter.mk [1%Q; 2%Q] (-1) "even"] ["periodic"%string] []).
  left. reflexivity.
Defined.

Lemma dispatched_border_array_witness :
  exists c : Call SampleType (list Q),
    In c (snd (run echo
                 (SeparableConvolution SampleType_SuggestFlex image_5
                    [OneDimensionalFilter.mk [1%Q; 2%Q] (-1) "even"]
                    ["periodic"%string] []))) /\
    exists (t1 t2 : SampleType) (p : BooleanArray) (b : UnsignedArray)
           (bc : BoundaryConditionArray) (fd : InternOneDimensionalFilterArray),
      c = Framework_Separable image_5 t1 t2 p b bc fd /\
      nth 0 b 0 = 1.
Proof.
  eexists. split; [left; reflexivity |].
  destruct (dispatched_border_array SampleType (list Q) SampleType_SuggestFlex echo image_5
              [OneDimensionalFilter.mk [1%Q; 2%Q] (-1) "even"] ["periodic"%string] []
              _ (or_introl eq_refl))
    as [t1 [t2 [p [b [bc [fd [Hc [_ [_ Hb]]]]]]]]].
  exists t1, t2, p, b, bc, fd. split; [exact Hc |].
  destruct (Hb 0%nat (OneDimensionalFilter.mk [1%Q; 2%Q] (-1) "even")) as [f [Hf Hval]].
  - cbn. lia.
  - reflexivity.
  - discriminate.
  - reflexivity.
  - injection Hf as <-. exact Hval.
Defined.

Lemma ConvolveFT_calls_on_success_witness :
  fst (run echo (ConvolveFT SampleType_IsReal pad_line image_5 filter_3
                   "spatial" "spatial" "spatial")) = Ok image_5 /\
  exists inFT filterFT product : Image SampleType (list Q),
    echo (FourierTransform image_5 []) = Ok inFT /\
    echo (FourierTransform (Pad pad_line (expanded_filter image_5 filter_3) (sizes image_5)) [])
    = Ok filterFT /\
    echo (MultiplySampleWise inFT filterFT (dataType inFT)) = Ok product /\
    echo (FourierTransform product ["inverse"%string; "real"%string]) = Ok image_5 /\
    snd (run echo (ConvolveFT SampleType_IsReal pad_line image_5 filter_3
                     "spatial" "spatial" "spatial")) =
      [FourierTransform image_5 []]
      ++ [FourierTransform (Pad pad_line (expanded_filter image_5 filter_3) (sizes image_5)) []]
      ++ [MultiplySampleWise inFT filterFT (dataType inFT)]
      ++ [FourierTransform product ["inverse"%string; "real"%string]].
Proof.
  split; [reflexivity |].
  apply (ConvolveFT_calls_on_success SampleType (list Q) SampleType_IsReal pad_line echo
           image_5 filter_3 image_5 "spatial" "spatial" "spatial" eq_refl).
Defined.

Lemma ConvolveFT_requires_forged_operands_witness :
  IsForged unforged_image = false /\
  run echo (ConvolveFT SampleType_IsReal pad_line unforged_image filter_3
              "frequency" "spatial" "spatial")
  = (Throw IMAGE_NOT_FORGED, []).
Proof.
  split; [reflexivity |].
  apply (ConvolveFT_requires_forged_operands SampleType (list Q) SampleType_IsReal pad_line
           echo unforged_image filter_3 "frequency" "spatial" "spatial").
  left. reflexivity.
Defined.

Lemma Filter_accumulates_taps_witness :
  [1 # 4; 1 # 2]%Q <> [] /\
  Z.of_nat (List.length [1 # 4; 1 # 2]%Q) < max_filter_length /\
  InternOneDimensionalFilter.ctor (OneDimensionalFilter.mk [1 # 4; 1 # 2]%Q (-1) "even")
  = Ok even_quarter_half /\
  exists m : Z -> spec_float,
    TPI.Filter binary64 [even_quarter_half] line_of_three peaks float_zeros = Some m /\
    m 1 = SFadd 53 1024
            (SFmul 53 1024 (SampleArith.cast binary64 (1 # 2)) (peaks 1))
            (SFmul 53 1024 (SampleArith.cast binary64 (1 # 4))
               (SFadd 53 1024 (peaks 2) (peaks 0))).
Proof.
  assert (Hne : [1 # 4; 1 # 2]%Q <> []) by discriminate.
  assert (Hlen : Z.of_nat (List.length [1 # 4; 1 # 2]%Q) < max_filter_length) by reflexivity.
  split; [exact Hne |]. split; [exact Hlen |]. split; [reflexivity |].
  destruct (Filter_accumulates_taps spec_float binary64 [1 # 4; 1 # 2]%Q (-1) "even"
              even_quarter_half line_of_three peaks float_zeros Hne Hlen eq_refl)
    as [m [Hm Hvalue]].
  - discriminate.
  - exists m. split; [exact Hm |]. apply (Hvalue 1). split; [discriminate | reflexivity].
Defined.

